(** * Import service of the Kontent backup manager

    A shallow embedding of [src/import/import.service.ts] (class
    [ImportService]) and the properties of its import run.

    The service talks to the Management API through [IManagementClient].
    Every awaited request is modelled as an event appended to a log, and
    the answer of the remote project is given by an oracle that sees the log
    of everything that happened before the request.  An exception (a thrown
    [Error] or a rejected promise) ends the computation with [Throw]. *)

From Stdlib Require Import String List Bool ZArith Arith Lia Permutation.
From Stdlib.Strings Require Import Byte.
Import ListNotations.
Open Scope string_scope.
Open Scope list_scope.

Set Implicit Arguments.
#[local] Set Warnings "-register-all".

(* ================================================================= *)
(** ** JavaScript values used by the service *)

(** Truthiness of an optional string: [undefined] and the empty string are
    both falsy ([if (!itemCodename)]); a truthy one gives its value. *)
Definition truthy (o : option string) : option string :=
  match o with
  | Some s => if String.eqb s EmptyString then None else Some s
  | None => None
  end.

(** [a === b] on possibly undefined strings. *)
Definition opt_eqb (a b : option string) : bool :=
  match a, b with
  | Some x, Some y => String.eqb x y
  | None, None => true
  | _, _ => false
  end.

(** Untyped payloads (element values, taxonomy terms, ...). *)
Inductive json : Type :=
| JNull
| JBool (b : bool)
| JNum (z : Z)
| JStr (s : string)
| JArr (items : list json)
| JObj (fields : list (string * json)).

(* ================================================================= *)
(** ** Contracts of the exported project (the import source) *)

(** [{ id, codename? }]: a reference to another entity.  The codename is
    the side channel filled in by the codename translator. *)
Record Reference := {
  ref_id : string;
  ref_codename : option string
}.

Record LanguageContract := {
  lang_id : string;
  lang_name : string;
  lang_codename : string;
  lang_external_id : option string;
  lang_is_active : bool;
  lang_is_default : bool;
  lang_fallback_language : option Reference
}.

Record TaxonomyContract := {
  tax_id : string;
  tax_name : string;
  tax_codename : string;
  tax_external_id : option string;
  tax_terms : json
}.

Record ContentTypeSnippetContract := {
  cts_id : string;
  cts_name : string;
  cts_codename : string;
  cts_external_id : option string;
  cts_elements : json
}.

Record ContentTypeContract := {
  ct_id : string;
  ct_name : string;
  ct_codename : string;
  ct_external_id : option string;
  ct_elements : json
}.

Record FileReference := {
  fr_id : string;
  fr_type : string
}.

Record AssetDescription := {
  ad_language : Reference;
  ad_description : option string
}.

Record AssetContract := {
  a_id : string;
  a_file_name : string;
  a_title : option string;
  a_size : Z;
  a_type : string;
  a_descriptions : list AssetDescription;
  a_file_reference : FileReference;
  a_external_id : option string;
  a_folder : option Reference
}.

(** [IBinaryFile]: the payload that accompanies an asset. *)
Record BinaryFile := {
  bf_asset : AssetContract;
  bf_binaryData : list byte
}.

(** Asset folders are trees through their [folders] child list. *)
Inductive AssetFolderContract : Type :=
  MkAssetFolderContract
    (afc_id : string) (afc_name : string) (afc_external_id : option string)
    (afc_folders : list AssetFolderContract).

Definition afc_id (f : AssetFolderContract) : string :=
  let 'MkAssetFolderContract i _ _ _ := f in i.
Definition afc_name (f : AssetFolderContract) : string :=
  let 'MkAssetFolderContract _ n _ _ := f in n.
Definition afc_external_id (f : AssetFolderContract) : option string :=
  let 'MkAssetFolderContract _ _ e _ := f in e.
Definition afc_folders (f : AssetFolderContract) : list AssetFolderContract :=
  let 'MkAssetFolderContract _ _ _ fs := f in fs.

Record ContentItemContract := {
  ci_id : string;
  ci_name : string;
  ci_codename : string;
  ci_external_id : option string;
  ci_type : Reference
}.

Record LanguageVariantContract := {
  lv_item : Reference;
  lv_language : Reference;
  lv_workflow_step : Reference;
  lv_elements : json
}.

Record WorkflowStepContract := {
  ws_id : string;
  ws_name : string;
  ws_codename : option string;
  ws_transitions_to : list Reference
}.

(** [IImportSource]: [importData], [assetFolders] and [binaryFiles]. *)
Record ImportData := {
  languages : list LanguageContract;
  taxonomies : list TaxonomyContract;
  contentTypeSnippets : list ContentTypeSnippetContract;
  contentTypes : list ContentTypeContract;
  assets : list AssetContract;
  contentItems : list ContentItemContract;
  languageVariants : list LanguageVariantContract;
  workflowSteps : list WorkflowStepContract
}.

Record ImportSource := {
  importData : ImportData;
  assetFolders : list AssetFolderContract;
  binaryFiles : list BinaryFile
}.

(* ================================================================= *)
(** ** Models answered by the target project *)

Record LanguageModel := {
  lm_id : string;
  lm_name : string;
  lm_codename : string;
  lm_isActive : bool
}.

Record TaxonomyModel := { tm_id : string; tm_name : string }.
Record ContentTypeModel := { ctm_id : string; ctm_name : string }.
Record AssetModel := { am_id : string; am_fileName : string }.
Record ContentItemModel := { cim_id : string; cim_name : string }.
Record LanguageVariantModel := { lvm_item : Reference; lvm_language : Reference }.

Inductive AssetFolderModel : Type :=
  MkAssetFolderModel
    (af_id : string) (af_name : string) (af_externalId : option string)
    (af_folders : list AssetFolderModel).

Definition af_id (f : AssetFolderModel) : string :=
  let 'MkAssetFolderModel i _ _ _ := f in i.
Definition af_name (f : AssetFolderModel) : string :=
  let 'MkAssetFolderModel _ n _ _ := f in n.
Definition af_externalId (f : AssetFolderModel) : option string :=
  let 'MkAssetFolderModel _ _ e _ := f in e.
Definition af_folders (f : AssetFolderModel) : list AssetFolderModel :=
  let 'MkAssetFolderModel _ _ _ fs := f in fs.

(* ================================================================= *)
(** ** Request data *)

(** [fallback_language] of [IAddLanguageData]: by id or by codename. *)
Inductive FallbackLanguage : Type :=
| FallbackById (id : string)
| FallbackByCodename (codename : string).

Record AddLanguageData := {
  ald_codename : string;
  ald_name : string;
  ald_external_id : option string;
  ald_fallback_language : FallbackLanguage;
  ald_is_active : bool
}.

(** The two [replace] operations sent by [fixLanguageAsync]. *)
Inductive ModifyLanguageOp : Type :=
| ReplaceIsActive (value : bool)
| ReplaceCodename (value : string).

Record AddSnippetData := {
  asd_elements : json;
  asd_name : string;
  asd_codename : string;
  asd_external_id : option string
}.

Record UploadBinaryFileData := {
  ubf_binaryData : list byte;
  ubf_contentType : string;
  ubf_filename : string
}.

Record AddAssetData := {
  aad_descriptions : list AssetDescription;
  aad_file_reference : FileReference;
  aad_external_id : option string;
  aad_folder : option Reference;
  aad_title : option string
}.

Inductive AddAssetFolderData : Type :=
  MkAddAssetFolderData
    (afd_name : string) (afd_external_id : option string)
    (afd_folders : list AddAssetFolderData).

Definition afd_external_id (f : AddAssetFolderData) : option string :=
  let 'MkAddAssetFolderData _ e _ := f in e.
Definition afd_folders (f : AddAssetFolderData) : list AddAssetFolderData :=
  let 'MkAddAssetFolderData _ _ fs := f in fs.

Record AddContentItemData := {
  acd_name : string;
  acd_type_codename : string;
  acd_codename : string;
  acd_external_id : option string
}.

(* ================================================================= *)
(** ** Import results *)

(** [ValidImportContract] and [ValidImportModel] are unions. *)
Inductive ValidImportContract : Type :=
| CAssetFolder (c : AssetFolderContract)
| CLanguage (c : LanguageContract)
| CTaxonomy (c : TaxonomyContract)
| CContentTypeSnippet (c : ContentTypeSnippetContract)
| CContentType (c : ContentTypeContract)
| CAsset (c : AssetContract)
| CContentItem (c : ContentItemContract)
| CLanguageVariant (c : LanguageVariantContract).

Inductive ValidImportModel : Type :=
| MAssetFolder (m : AssetFolderModel)
| MLanguage (m : LanguageModel)
| MTaxonomy (m : TaxonomyModel)
| MContentType (m : ContentTypeModel)
| MAsset (m : AssetModel)
| MContentItem (m : ContentItemModel)
| MLanguageVariant (m : LanguageVariantModel).

(** [IImportItemResult<TRaw, TModel>]. *)
Record ImportItemResult (TRaw TModel : Type) := {
  imported : TModel;
  original : TRaw;
  importId : string;
  originalId : string
}.

(** [IImportItemResult<ValidImportContract, ValidImportModel>], the entries
    of the list the run answers. *)
Definition ValidResult : Type := ImportItemResult ValidImportContract ValidImportModel.

(** A typed result seen at the union type, as [importedItems.push(...)]
    does. *)
Definition widen {TRaw TModel} (raw : TRaw -> ValidImportContract)
    (model : TModel -> ValidImportModel) (r : ImportItemResult TRaw TModel)
  : ValidResult :=
  {| imported := model (imported r);
     original := raw (original r);
     importId := importId r;
     originalId := originalId r |}.

(** [ActionType], the tag handed to the [onImport] callback. *)
Inductive ActionType : Type :=
| AtLanguage | AtAsset | AtAssetFolder | AtContentType | AtContentTypeSnippet
| AtContentItem | AtLanguageVariant | AtTaxonomy | AtPublish
| AtChangeWorkflowStep.

(* ================================================================= *)
(** ** Requests, events and errors *)

(** The requests the service sends through [this.client]. *)
Inductive Request : Type :=
| ListLanguages
| ModifyLanguage (codename : string) (ops : list ModifyLanguageOp)
| AddLanguage (data : AddLanguageData)
| AddTaxonomy (data : TaxonomyContract)
| AddContentTypeSnippet (data : AddSnippetData)
| AddContentType (data : ContentTypeContract)
| UploadBinaryFile (data : UploadBinaryFileData)
| AddAsset (data : AddAssetData)
| AddAssetFolders (folders : list AddAssetFolderData)
| AddContentItem (data : AddContentItemData)
| UpsertLanguageVariant (itemCodename languageCodename : string) (elements : json)
| PublishLanguageVariant (itemCodename languageCodename : string)
| ChangeWorkflowStepOfLanguageVariant
    (itemCodename languageCodename workflowStepId : string).

(** What an observer of a run sees, in order: the requests and the two
    callbacks of the configuration ([console.log] is not modelled). *)
Inductive Event : Type :=
| Call (r : Request)
| OnImport (title : string) (type : ActionType)
| OnUnsupportedBinaryFile (file : BinaryFile).

(** The exceptions of the service.  [RequestFailed] is a rejected promise
    of the client, rethrown by [handleImportError]; the others are the
    [throw Error(...)] statements, and [TypeError] is a property read on
    [undefined]. *)
Inductive Error : Type :=
| RequestFailed (r : Request)
| InvalidDefaultExistingLanguage (id : string)
| DefaultLanguageCodenameMismatch (source target : string)
| LanguageHasUnsetCodename (name : string)
| CouldNotFindBinaryFile (assetId : string)
| UnsetTypeCodename (itemCodename : string)
| MissingItemCodename
| MissingLanguageCodename
| CouldNotFindOriginalFolder (externalId : option string) (name : string)
| TypeError.

Inductive Outcome (A : Type) : Type :=
| Ok (a : A)
| Throw (e : Error).
Arguments Ok {A} a.
Arguments Throw {A} e.

Definition isThrow {A} (o : Outcome A) : bool :=
  match o with Ok _ => false | Throw _ => true end.

(** A computation reads the log of what happened before it and answers
    with its outcome and the events it adds to the log. *)
Definition M (A : Type) : Type := list Event -> Outcome A * list Event.

Definition ret {A} (a : A) : M A := fun _ => (Ok a, []).

Definition throw {A} (e : Error) : M A := fun _ => (Throw e, []).

Definition bind {A B} (m : M A) (f : A -> M B) : M B :=
  fun h =>
    match m h with
    | (Ok a, e1) => let '(o, e2) := f a (h ++ e1) in (o, e1 ++ e2)
    | (Throw e, e1) => (Throw e, e1)
    end.

Definition emit (ev : Event) : M unit := fun _ => (Ok tt, [ev]).

(** An awaited request: the oracle [answer] sees the log before the
    request; [None] is a rejected promise. *)
Definition request {R} (rq : Request) (answer : list Event -> option R) : M R :=
  fun h =>
    match answer h with
    | Some r => (Ok r, [Call rq])
    | None => (Throw (RequestFailed rq), [Call rq])
    end.

(** A synchronous computation that may throw, run inside [M]. *)
Definition lift {A} (o : Outcome A) : M A := fun _ => (o, []).

Declare Scope import_scope.
Delimit Scope import_scope with import.
Notation "x <- m ;; k" := (bind m (fun x => k))
  (at level 61, m at next level, right associativity) : import_scope.
Notation "m ;;; k" := (bind m (fun _ => k))
  (at level 61, right associativity) : import_scope.
Open Scope import_scope.

(** The answers of the target project, one oracle per request kind. *)
Record ManagementClient := {
  listLanguages : list Event -> option (list LanguageModel);
  modifyLanguage :
    string -> list ModifyLanguageOp -> list Event -> option unit;
  addLanguage : AddLanguageData -> list Event -> option LanguageModel;
  addTaxonomy : TaxonomyContract -> list Event -> option TaxonomyModel;
  addContentTypeSnippet : AddSnippetData -> list Event -> option ContentTypeModel;
  addContentType : ContentTypeContract -> list Event -> option ContentTypeModel;
  uploadBinaryFile : UploadBinaryFileData -> list Event -> option FileReference;
  addAsset : AddAssetData -> list Event -> option AssetModel;
  addAssetFolders :
    list AddAssetFolderData -> list Event -> option (list AssetFolderModel);
  addContentItem : AddContentItemData -> list Event -> option ContentItemModel;
  upsertLanguageVariant :
    string -> string -> json -> list Event -> option LanguageVariantModel;
  publishLanguageVariant : string -> string -> list Event -> option unit;
  changeWorkflowStepOfLanguageVariant :
    string -> string -> string -> list Event -> option unit
}.

(* ================================================================= *)
(** ** Configuration *)

(** [IImportConfig.process]: the optional predicates of each kind. *)
Record ProcessConfig := {
  p_asset : option (AssetContract -> bool);
  p_language : option (LanguageContract -> bool);
  p_assetFolder : option (AssetFolderContract -> bool);
  p_contentType : option (ContentTypeContract -> bool);
  p_contentItem : option (ContentItemContract -> bool);
  p_contentTypeSnippet : option (ContentTypeSnippetContract -> bool);
  p_languageVariant : option (LanguageVariantContract -> bool);
  p_taxonomy : option (TaxonomyContract -> bool)
}.

(** [IImportConfig].  The two callbacks are observers: the model records
    whether they are set and logs their calls as events.  [enableLog] only
    switches [console.log] lines and is left out. *)
Record ImportConfig := {
  enablePublish : bool;
  workflowIdForImportedItems : option string;
  fixLanguages : bool;
  process : option ProcessConfig;
  onImport : bool;
  onUnsupportedBinaryFile : bool
}.

(** The helpers of [../core], which are not part of this file.  The
    service only calls them; they are parameters of the embedding, one
    field for each type they are called at.  They rewrite their first
    argument in place, which is returned here as the rewritten value. *)
Record CoreHelpers := {
  (* translationHelper.replaceIdReferencesWithExternalId(collection) *)
  externalIds_taxonomies : list TaxonomyContract -> list TaxonomyContract;
  externalIds_contentTypeSnippets :
    list ContentTypeSnippetContract -> list ContentTypeSnippetContract;
  externalIds_contentTypes : list ContentTypeContract -> list ContentTypeContract;
  (* translationHelper.replaceIdReferencesWithCodenames(collection, allData, {}) *)
  codenames_languages : list LanguageContract -> ImportData -> list LanguageContract;
  codenames_assets : list AssetContract -> ImportData -> list AssetContract;
  codenames_contentItems :
    list ContentItemContract -> ImportData -> list ContentItemContract;
  codenames_languageVariants :
    list LanguageVariantContract -> ImportData -> list LanguageVariantContract;
  codenames_workflowSteps :
    list WorkflowStepContract -> ImportData -> list WorkflowStepContract;
  (* idTranslateHelper.replaceIdReferencesWithNewId(data, items) *)
  newIds_languageVariant :
    LanguageVariantContract -> list ValidResult -> LanguageVariantContract;
  newIds_addAssetData : AddAssetData -> list ValidResult -> AddAssetData
}.

(* ================================================================= *)
(** ** Pure helpers of the service *)

Section FoldOutcome.
Variables (A S : Type) (f : A -> S -> Outcome S).

(** [for (const x of l) { ... }] over a body that updates [s] and may
    throw. *)
Fixpoint foldOutcome (l : list A) (s : S) : Outcome S :=
  match l with
  | [] => Ok s
  | x :: l' =>
      match f x s with
      | Ok s' => foldOutcome l' s'
      | Throw e => Throw e
      end
  end.
End FoldOutcome.

Definition defaultLanguageId : string := "00000000-0000-0000-0000-000000000000".
Definition publishedWorkflowStepName : string := "Published".

(** Maximum allowed size of an asset in bytes, [1e8]. *)
Definition maxAllowedAssetSizeInBytes : Z := 100000000.

(** [setExternalIdForFolders]: [folder.external_id = folder.id], in place
    and recursively. *)
Fixpoint setExternalIdForFolder (folder : AssetFolderContract) : AssetFolderContract :=
  match folder with
  | MkAssetFolderContract id name _ folders =>
      MkAssetFolderContract id name (Some id) (map setExternalIdForFolder folders)
  end.

Definition setExternalIdForFolders (folders : list AssetFolderContract)
  : list AssetFolderContract :=
  map setExternalIdForFolder folders.

(** [mapAssetFolder]. *)
Fixpoint mapAssetFolder (folder : AssetFolderContract) : AddAssetFolderData :=
  match folder with
  | MkAssetFolderContract _ name external_id folders =>
      MkAddAssetFolderData name external_id (map mapAssetFolder folders)
  end.

(** [flattenAssetFolderContracts]: the nodes in pre-order. *)
Fixpoint flattenAssetFolderContract (assetFolder : AssetFolderContract)
  : list AssetFolderContract :=
  match assetFolder with
  | MkAssetFolderContract _ _ _ folders =>
      assetFolder :: flat_map flattenAssetFolderContract folders
  end.

Definition flattenAssetFolderContracts (assetFolders : list AssetFolderContract)
  : list AssetFolderContract :=
  flat_map flattenAssetFolderContract assetFolders.

(** The body of the loop of [flattenAssetFolders] for one answered
    folder: find the original by external id, push the result, descend. *)
Fixpoint flattenAssetFolder (originalItems : list AssetFolderContract)
    (assetFolder : AssetFolderModel)
    (items : list (ImportItemResult AssetFolderContract AssetFolderModel))
  : Outcome (list (ImportItemResult AssetFolderContract AssetFolderModel)) :=
  match assetFolder with
  | MkAssetFolderModel id name externalId folders =>
      match find (fun m => opt_eqb (afc_external_id m) externalId) originalItems with
      | None => Throw (CouldNotFindOriginalFolder externalId name)
      | Some originalFolder =>
          foldOutcome (flattenAssetFolder originalItems) folders
            (items ++ [ {| imported := assetFolder;
                           original := originalFolder;
                           importId := id;
                           originalId := afc_id originalFolder |} ])
      end
  end.

Definition flattenAssetFolders (importedAssetFolders : list AssetFolderModel)
    (originalItems : list AssetFolderContract)
    (items : list (ImportItemResult AssetFolderContract AssetFolderModel))
  : Outcome (list (ImportItemResult AssetFolderContract AssetFolderModel)) :=
  foldOutcome (flattenAssetFolder originalItems) importedAssetFolders items.

(** [getPublishedWorkflowStep]. *)
Definition getPublishedWorkflowStep (workflowSteps : list WorkflowStepContract)
  : option WorkflowStepContract :=
  find (fun m => String.eqb (ws_name m) publishedWorkflowStepName) workflowSteps.

(** [tryGetLanguage]; [None] is the answer ['noImport']. *)
Definition tryGetLanguage (currentLanguages : list LanguageModel)
    (importLanguage : LanguageContract) : Outcome (option AddLanguageData) :=
  match find (fun m => String.eqb (lm_codename m) (lang_codename importLanguage))
             currentLanguages with
  | Some _ => Ok None
  | None =>
      let mismatch :=
        if String.eqb (lang_id importLanguage) defaultLanguageId then
          match find (fun m => String.eqb (lm_id m) defaultLanguageId)
                     currentLanguages with
          | Some defaultCurrentLanguage =>
              if negb (String.eqb (lm_codename defaultCurrentLanguage)
                                  (lang_codename importLanguage))
              then Some (lm_codename defaultCurrentLanguage)
              else None
          | None => None
          end
        else None in
      match mismatch with
      | Some target =>
          Throw (DefaultLanguageCodenameMismatch (lang_codename importLanguage) target)
      | None =>
          match lang_fallback_language importLanguage with
          | None => Throw TypeError
          | Some fallback =>
              match truthy (ref_codename fallback) with
              | Some fallbackLanguageCodename =>
                  Ok (Some
                    {| ald_codename := lang_codename importLanguage;
                       ald_name := lang_name importLanguage;
                       ald_external_id := lang_external_id importLanguage;
                       ald_fallback_language :=
                         if String.eqb (lang_codename importLanguage)
                                       fallbackLanguageCodename
                         then FallbackById defaultLanguageId
                         else FallbackByCodename fallbackLanguageCodename;
                       ald_is_active := lang_is_active importLanguage |})
              | None => Throw (LanguageHasUnsetCodename (lang_name importLanguage))
              end
          end
      end
  end.

(** One loop of [removeSkippedItemsFromImport]: the loop runs over the
    array as it was when the loop started, and every rejected item
    replaces the collection by a filtered copy. *)
Definition removeSkipped {A} (shouldImport : A -> bool) (keeps : A -> A -> bool)
    (collection : list A) : list A :=
  fold_left
    (fun current item =>
       if shouldImport item then current
       else filter (fun m => keeps item m) current)
    collection collection.

(** [(m) => m.id !== item.id]. *)
Definition otherId {A} (id : A -> string) (item m : A) : bool :=
  negb (String.eqb (id m) (id item)).

(** [(m) => m.item.id !== item.item.id && m.language.id !== item.language.id]. *)
Definition otherVariant (item m : LanguageVariantContract) : bool :=
  negb (String.eqb (ref_id (lv_item m)) (ref_id (lv_item item)))
  && negb (String.eqb (ref_id (lv_language m)) (ref_id (lv_language item))).

(** [if (this.config.process && this.config.process.kind) { loop }]. *)
Definition removeSkippedOf {A} (config : ImportConfig)
    (predicate : ProcessConfig -> option (A -> bool)) (keeps : A -> A -> bool)
    (collection : list A) : list A :=
  match process config with
  | Some p =>
      match predicate p with
      | Some shouldImport => removeSkipped shouldImport keeps collection
      | None => collection
      end
  | None => collection
  end.

(** [removeSkippedItemsFromImport]. *)
Definition removeSkippedItemsFromImport (config : ImportConfig)
    (source : ImportSource) : ImportSource :=
  let d := importData source in
  {| importData :=
       {| languages := removeSkippedOf config p_language (otherId lang_id) (languages d);
          taxonomies := removeSkippedOf config p_taxonomy (otherId tax_id) (taxonomies d);
          contentTypeSnippets :=
            removeSkippedOf config p_contentTypeSnippet (otherId cts_id)
              (contentTypeSnippets d);
          contentTypes :=
            removeSkippedOf config p_contentType (otherId ct_id) (contentTypes d);
          assets := removeSkippedOf config p_asset (otherId a_id) (assets d);
          contentItems :=
            removeSkippedOf config p_contentItem (otherId ci_id) (contentItems d);
          languageVariants :=
            removeSkippedOf config p_languageVariant otherVariant (languageVariants d);
          workflowSteps := workflowSteps d |};
     assetFolders :=
       removeSkippedOf config p_assetFolder (otherId afc_id) (assetFolders source);
     binaryFiles := binaryFiles source |}.

(** [translateIds]: the eight helper calls in their order; each call sees
    [source.importData] as the calls before it left it. *)
Definition translateIds (core : CoreHelpers) (source : ImportSource) : ImportSource :=
  let d := importData source in
  let d := {| languages := languages d;
              taxonomies := externalIds_taxonomies core (taxonomies d);
              contentTypeSnippets := contentTypeSnippets d;
              contentTypes := contentTypes d;
              assets := assets d;
              contentItems := contentItems d;
              languageVariants := languageVariants d;
              workflowSteps := workflowSteps d |} in
  let d := {| languages := languages d;
              taxonomies := taxonomies d;
              contentTypeSnippets :=
                externalIds_contentTypeSnippets core (contentTypeSnippets d);
              contentTypes := contentTypes d;
              assets := assets d;
              contentItems := contentItems d;
              languageVariants := languageVariants d;
              workflowSteps := workflowSteps d |} in
  let d := {| languages := languages d;
              taxonomies := taxonomies d;
              contentTypeSnippets := contentTypeSnippets d;
              contentTypes := externalIds_contentTypes core (contentTypes d);
              assets := assets d;
              contentItems := contentItems d;
              languageVariants := languageVariants d;
              workflowSteps := workflowSteps d |} in
  let d := {| languages := codenames_languages core (languages d) d;
              taxonomies := taxonomies d;
              contentTypeSnippets := contentTypeSnippets d;
              contentTypes := contentTypes d;
              assets := assets d;
              contentItems := contentItems d;
              languageVariants := languageVariants d;
              workflowSteps := workflowSteps d |} in
  let d := {| languages := languages d;
              taxonomies := taxonomies d;
              contentTypeSnippets := contentTypeSnippets d;
              contentTypes := contentTypes d;
              assets := codenames_assets core (assets d) d;
              contentItems := contentItems d;
              languageVariants := languageVariants d;
              workflowSteps := workflowSteps d |} in
  let d := {| languages := languages d;
              taxonomies := taxonomies d;
              contentTypeSnippets := contentTypeSnippets d;
              contentTypes := contentTypes d;
              assets := assets d;
              contentItems := codenames_contentItems core (contentItems d) d;
              languageVariants := languageVariants d;
              workflowSteps := workflowSteps d |} in
  let d := {| languages := languages d;
              taxonomies := taxonomies d;
              contentTypeSnippets := contentTypeSnippets d;
              contentTypes := contentTypes d;
              assets := assets d;
              contentItems := contentItems d;
              languageVariants := codenames_languageVariants core (languageVariants d) d;
              workflowSteps := workflowSteps d |} in
  let d := {| languages := languages d;
              taxonomies := taxonomies d;
              contentTypeSnippets := contentTypeSnippets d;
              contentTypes := contentTypes d;
              assets := assets d;
              contentItems := contentItems d;
              languageVariants := languageVariants d;
              workflowSteps := codenames_workflowSteps core (workflowSteps d) d |} in
  {| importData := d;
     assetFolders := assetFolders source;
     binaryFiles := binaryFiles source |}.

(* ================================================================= *)
(** ** The service *)

Section ImportService.
Variable core : CoreHelpers.
Variable client : ManagementClient.
Variable config : ImportConfig.

(** [processItem]: tell the [onImport] callback, when there is one. *)
Definition processItem (title : string) (type : ActionType) : M unit :=
  if onImport config then emit (OnImport title type) else ret tt.

(** The title [`${itemCodename} (${languageCodename})`]. *)
Definition variantTitle (itemCodename languageCodename : string) : string :=
  (itemCodename ++ " (" ++ languageCodename ++ ")")%string.

(** [fixLanguageAsync]. *)
Definition fixLanguageAsync (currentLanguages : list LanguageModel)
    (importLanguage : LanguageContract) : M unit :=
  (match find (fun m => String.eqb (lm_codename m) (lang_codename importLanguage))
              currentLanguages with
   | Some existingLanguage =>
       if negb (lm_isActive existingLanguage) then
         request (ModifyLanguage (lm_codename existingLanguage) [ReplaceIsActive true])
                 (modifyLanguage client (lm_codename existingLanguage)
                                 [ReplaceIsActive true])
       else ret tt
   | None => ret tt
   end) ;;;
  if lang_is_default importLanguage then
    match find (fun m => String.eqb (lm_id m) (lang_id importLanguage))
               currentLanguages with
    | None => throw (InvalidDefaultExistingLanguage (lang_id importLanguage))
    | Some defaultExistingLanguage =>
        if negb (String.eqb (lang_codename importLanguage)
                            (lm_codename defaultExistingLanguage)) then
          match find (fun m => String.eqb (lm_codename m)
                                          (lang_codename importLanguage))
                     currentLanguages with
          | None =>
              request (ModifyLanguage (lm_codename defaultExistingLanguage)
                                      [ReplaceCodename (lang_codename importLanguage)])
                      (modifyLanguage client (lm_codename defaultExistingLanguage)
                                      [ReplaceCodename (lang_codename importLanguage)])
          | Some _ => ret tt
          end
        else ret tt
    end
  else ret tt.

(** The loop of [importLanguagesAsync]; [currentLanguages] is the
    variable [currentLanguagesResponse.data.items]. *)
Fixpoint importLanguagesLoop (languages : list LanguageContract)
    (currentLanguages : list LanguageModel)
  : M (list (ImportItemResult LanguageContract LanguageModel)) :=
  match languages with
  | [] => ret []
  | language :: rest =>
      currentLanguages <-
        (if fixLanguages config then
           fixLanguageAsync currentLanguages language ;;;
           request ListLanguages (listLanguages client)
         else ret currentLanguages) ;;
      processedLanguageData <- lift (tryGetLanguage currentLanguages language) ;;
      match processedLanguageData with
      | None => importLanguagesLoop rest currentLanguages
      | Some data =>
          response <- request (AddLanguage data) (addLanguage client data) ;;
          processItem (lm_name response) AtLanguage ;;;
          importedItems <- importLanguagesLoop rest currentLanguages ;;
          ret ({| imported := response;
                  original := language;
                  importId := lm_id response;
                  originalId := lang_id language |} :: importedItems)
      end
  end.

Definition importLanguagesAsync (languages : list LanguageContract)
  : M (list (ImportItemResult LanguageContract LanguageModel)) :=
  currentLanguages <- request ListLanguages (listLanguages client) ;;
  importLanguagesLoop languages currentLanguages.

(** [for (const x of xs) { ...; importedItems.push(...) }; return
    importedItems]: the body answers what it pushed. *)
Fixpoint forEach {A R} (body : A -> M (list R)) (xs : list A) : M (list R) :=
  match xs with
  | [] => ret []
  | x :: rest =>
      pushed <- body x ;;
      importedItems <- forEach body rest ;;
      ret (pushed ++ importedItems)
  end.

(** [getAddAssetModel]. *)
Definition getAddAssetModel (assetContract : AssetContract) (binaryFileId : string)
    (currentItems : list ValidResult) : AddAssetData :=
  newIds_addAssetData core
    {| aad_descriptions := a_descriptions assetContract;
       aad_file_reference :=
         {| fr_id := binaryFileId;
            fr_type := fr_type (a_file_reference assetContract) |};
       aad_external_id := a_external_id assetContract;
       aad_folder := a_folder assetContract;
       aad_title := a_title assetContract |}
    currentItems.

(** The asset as the result entry sees it: the request model shares its
    [descriptions] array and its [folder] object with the contract, so
    the ids rewritten in the model are rewritten in the contract. *)
Definition assetAfterModel (asset : AssetContract) (model : AddAssetData)
  : AssetContract :=
  {| a_id := a_id asset;
     a_file_name := a_file_name asset;
     a_title := a_title asset;
     a_size := a_size asset;
     a_type := a_type asset;
     a_descriptions := aad_descriptions model;
     a_file_reference := a_file_reference asset;
     a_external_id := a_external_id asset;
     a_folder := aad_folder model |}.

(** The body of the loop of [importAssetsAsync].  The check
    [if (!uploadedBinaryFile)] cannot fire: a failed upload is rethrown by
    [handleImportError]. *)
Definition importAsset (binaryFiles : list BinaryFile)
    (currentItems : list ValidResult) (asset : AssetContract)
  : M (list (ImportItemResult AssetContract AssetModel)) :=
  match find (fun m => String.eqb (a_id (bf_asset m)) (a_id asset)) binaryFiles with
  | None => throw (CouldNotFindBinaryFile (a_id asset))
  | Some binaryFile =>
      binaryDataToUpload <-
        (if (maxAllowedAssetSizeInBytes <=? a_size (bf_asset binaryFile))%Z then
           (if onUnsupportedBinaryFile config
            then emit (OnUnsupportedBinaryFile binaryFile) else ret tt) ;;;
           ret []
         else ret (bf_binaryData binaryFile)) ;;
      let upload := {| ubf_binaryData := binaryDataToUpload;
                       ubf_contentType := a_type asset;
                       ubf_filename := a_file_name asset |} in
      uploadedBinaryFile <-
        request (UploadBinaryFile upload) (uploadBinaryFile client upload) ;;
      let assetData :=
        getAddAssetModel asset (fr_id uploadedBinaryFile) currentItems in
      response <- request (AddAsset assetData) (addAsset client assetData) ;;
      processItem (am_fileName response) AtAsset ;;;
      ret [ {| imported := response;
               original := assetAfterModel asset assetData;
               importId := am_id response;
               originalId := a_id asset |} ]
  end.

Definition importAssetsAsync (assets : list AssetContract)
    (binaryFiles : list BinaryFile) (currentItems : list ValidResult)
  : M (list (ImportItemResult AssetContract AssetModel)) :=
  forEach (importAsset binaryFiles currentItems) assets.

(** [importAssetFoldersAsync]: one request for the whole tree. *)
Definition importAssetFoldersAsync (assetFolders : list AssetFolderContract)
  : M (list (ImportItemResult AssetFolderContract AssetFolderModel)) :=
  let assetFolders := setExternalIdForFolders assetFolders in
  let assetFoldersToAdd := map mapAssetFolder assetFolders in
  response <- request (AddAssetFolders assetFoldersToAdd)
                      (addAssetFolders client assetFoldersToAdd) ;;
  importedFlattenedFolders <-
    lift (flattenAssetFolders response
            (flattenAssetFolderContracts assetFolders) []) ;;
  forEach
    (fun flattenedFolder =>
       processItem (af_name (imported flattenedFolder)) AtAssetFolder ;;;
       ret [flattenedFolder])
    importedFlattenedFolders.

(** [importContentTypesAsync]. *)
Definition importContentTypesAsync (contentTypes : list ContentTypeContract)
  : M (list (ImportItemResult ContentTypeContract ContentTypeModel)) :=
  forEach
    (fun contentType =>
       response <- request (AddContentType contentType)
                           (addContentType client contentType) ;;
       processItem (ctm_name response) AtContentType ;;;
       ret [ {| imported := response;
                original := contentType;
                importId := ctm_id response;
                originalId := ct_id contentType |} ])
    contentTypes.

(** [importContentItemAsync]. *)
Definition importContentItemAsync (contentItems : list ContentItemContract)
  : M (list (ImportItemResult ContentItemContract ContentItemModel)) :=
  forEach
    (fun contentItem =>
       match truthy (ref_codename (ci_type contentItem)) with
       | None => throw (UnsetTypeCodename (ci_codename contentItem))
       | Some typeCodename =>
           let data := {| acd_name := ci_name contentItem;
                          acd_type_codename := typeCodename;
                          acd_codename := ci_codename contentItem;
                          acd_external_id := ci_external_id contentItem |} in
           response <- request (AddContentItem data) (addContentItem client data) ;;
           processItem (cim_name response) AtContentItem ;;;
           ret [ {| imported := response;
                    original := contentItem;
                    importId := cim_id response;
                    originalId := ci_id contentItem |} ]
       end)
    contentItems.

(** The check of both codenames shared by the three language-variant
    passes. *)
Definition variantCodenames (item : LanguageVariantContract) : M (string * string) :=
  match truthy (ref_codename (lv_item item)) with
  | None => throw MissingItemCodename
  | Some itemCodename =>
      match truthy (ref_codename (lv_language item)) with
      | None => throw MissingLanguageCodename
      | Some languageCodename => ret (itemCodename, languageCodename)
      end
  end.

(** The loop of [publishLanguageVariantsAsync] and the pass itself. *)
Fixpoint publishLoop (itemsToPublish : list LanguageVariantContract) : M unit :=
  match itemsToPublish with
  | [] => ret tt
  | itemToPublish :: rest =>
      codenames <- variantCodenames itemToPublish ;;
      let '(itemCodename, languageCodename) := codenames in
      request (PublishLanguageVariant itemCodename languageCodename)
              (publishLanguageVariant client itemCodename languageCodename) ;;;
      processItem (variantTitle itemCodename languageCodename) AtPublish ;;;
      publishLoop rest
  end.

Definition publishLanguageVariantsAsync
    (languageVariants : list LanguageVariantContract)
    (workflowSteps : list WorkflowStepContract) : M unit :=
  match getPublishedWorkflowStep workflowSteps with
  | None => ret tt
  | Some publishedWorkflowStep =>
      publishLoop
        (filter (fun m => String.eqb (ref_id (lv_workflow_step m))
                                     (ws_id publishedWorkflowStep))
                languageVariants)
  end.

(** [moveLanguageVariantsToCustomWorkflowStepAsync]. *)
Fixpoint moveLanguageVariantsToCustomWorkflowStepAsync (workflowStepId : string)
    (languageVariants : list LanguageVariantContract) : M unit :=
  match languageVariants with
  | [] => ret tt
  | item :: rest =>
      codenames <- variantCodenames item ;;
      let '(itemCodename, languageCodename) := codenames in
      request (ChangeWorkflowStepOfLanguageVariant itemCodename languageCodename
                 workflowStepId)
              (changeWorkflowStepOfLanguageVariant client itemCodename
                 languageCodename workflowStepId) ;;;
      processItem (variantTitle itemCodename languageCodename)
                  AtChangeWorkflowStep ;;;
      moveLanguageVariantsToCustomWorkflowStepAsync workflowStepId rest
  end.

(** The body of the loop of [importLanguageVariantsAsync].  The helper
    rewrites the variant in place, so the result entry and the later
    passes see the rewritten variant, which is answered with the entry. *)
Definition importLanguageVariant (currentItems : list ValidResult)
    (languageVariant : LanguageVariantContract)
  : M (ImportItemResult LanguageVariantContract LanguageVariantModel
       * LanguageVariantContract) :=
  codenames <- variantCodenames languageVariant ;;
  let '(itemCodename, languageCodename) := codenames in
  let languageVariant := newIds_languageVariant core languageVariant currentItems in
  response <-
    request (UpsertLanguageVariant itemCodename languageCodename
               (lv_elements languageVariant))
            (upsertLanguageVariant client itemCodename languageCodename
               (lv_elements languageVariant)) ;;
  processItem (variantTitle itemCodename languageCodename) AtLanguageVariant ;;;
  ret ({| imported := response;
          original := languageVariant;
          importId := ref_id (lvm_item response);
          originalId := ref_id (lv_item languageVariant) |},
       languageVariant).

(** [importLanguageVariantsAsync]: the results, and the variants as the
    loop left them. *)
Fixpoint importLanguageVariantsAsync
    (languageVariants : list LanguageVariantContract)
    (currentItems : list ValidResult)
  : M (list (ImportItemResult LanguageVariantContract LanguageVariantModel)
       * list LanguageVariantContract) :=
  match languageVariants with
  | [] => ret ([], [])
  | languageVariant :: rest =>
      done <- importLanguageVariant currentItems languageVariant ;;
      more <- importLanguageVariantsAsync rest currentItems ;;
      ret (fst done :: fst more, snd done :: snd more)
  end.

(** [importContentTypeSnippetsAsync]. *)
Definition importContentTypeSnippetsAsync
    (contentTypeSnippets : list ContentTypeSnippetContract)
  : M (list (ImportItemResult ContentTypeSnippetContract ContentTypeModel)) :=
  forEach
    (fun contentTypeSnippet =>
       let data := {| asd_elements := cts_elements contentTypeSnippet;
                      asd_name := cts_name contentTypeSnippet;
                      asd_codename := cts_codename contentTypeSnippet;
                      asd_external_id := cts_external_id contentTypeSnippet |} in
       response <- request (AddContentTypeSnippet data)
                           (addContentTypeSnippet client data) ;;
       processItem (ctm_name response) AtContentTypeSnippet ;;;
       ret [ {| imported := response;
                original := contentTypeSnippet;
                importId := ctm_id response;
                originalId := cts_id contentTypeSnippet |} ])
    contentTypeSnippets.

(** [importTaxonomiesAsync]. *)
Definition importTaxonomiesAsync (taxonomies : list TaxonomyContract)
  : M (list (ImportItemResult TaxonomyContract TaxonomyModel)) :=
  forEach
    (fun taxonomy =>
       response <- request (AddTaxonomy taxonomy) (addTaxonomy client taxonomy) ;;
       processItem (tm_name response) AtTaxonomy ;;;
       ret [ {| imported := response;
                original := taxonomy;
                importId := tm_id response;
                originalId := tax_id taxonomy |} ])
    taxonomies.

(** The stages of [importAsync], from [// import order matters] on.  The
    test [if (sourceData.importData.languageVariants)] is on an array,
    which is truthy also when it is empty, so the last stage always runs. *)
Definition importStages (sourceData : ImportSource) : M (list ValidResult) :=
  let data := importData sourceData in
  let importedItems : list ValidResult := [] in
  (* ### Asset folders *)
  importedItems <-
    match assetFolders sourceData with
    | _ :: _ =>
        importedAssetFolders <- importAssetFoldersAsync (assetFolders sourceData) ;;
        ret (importedItems ++ map (widen CAssetFolder MAssetFolder) importedAssetFolders)
    | [] => ret importedItems
    end ;;
  (* ### Languages *)
  importedItems <-
    match languages data with
    | _ :: _ =>
        importedLanguages <- importLanguagesAsync (languages data) ;;
        ret (importedItems ++ map (widen CLanguage MLanguage) importedLanguages)
    | [] => ret importedItems
    end ;;
  (* ### Taxonomies *)
  importedItems <-
    match taxonomies data with
    | _ :: _ =>
        importedTaxonomies <- importTaxonomiesAsync (taxonomies data) ;;
        ret (importedItems ++ map (widen CTaxonomy MTaxonomy) importedTaxonomies)
    | [] => ret importedItems
    end ;;
  (* ### Content types & snippets *)
  match contentTypeSnippets data with
  | _ :: _ => importContentTypeSnippetsAsync (contentTypeSnippets data) ;;; ret tt
  | [] => ret tt
  end ;;;
  match contentTypes data with
  | _ :: _ => importContentTypesAsync (contentTypes data) ;;; ret tt
  | [] => ret tt
  end ;;;
  (* ### Assets *)
  importedItems <-
    match assets data with
    | _ :: _ =>
        importedAssets <-
          importAssetsAsync (assets data) (binaryFiles sourceData) importedItems ;;
        ret (importedItems ++ map (widen CAsset MAsset) importedAssets)
    | [] => ret importedItems
    end ;;
  (* ### Content items *)
  importedItems <-
    match contentItems data with
    | _ :: _ =>
        importedContentItems <- importContentItemAsync (contentItems data) ;;
        ret (importedItems ++ map (widen CContentItem MContentItem) importedContentItems)
    | [] => ret importedItems
    end ;;
  (* ### Language variants *)
  importedLanguageVariants <-
    importLanguageVariantsAsync (languageVariants data) importedItems ;;
  let importedItems :=
    importedItems
    ++ map (widen CLanguageVariant MLanguageVariant) (fst importedLanguageVariants) in
  let languageVariants := snd importedLanguageVariants in
  (if enablePublish config
   then publishLanguageVariantsAsync languageVariants (workflowSteps data)
   else ret tt) ;;;
  match truthy (workflowIdForImportedItems config) with
  | Some workflowStepId =>
      moveLanguageVariantsToCustomWorkflowStepAsync workflowStepId languageVariants
  | None => ret tt
  end ;;;
  ret importedItems.

(** [importAsync]: translate the ids, remove the skipped items, import. *)
Definition importAsync (sourceData : ImportSource) : M (list ValidResult) :=
  let sourceData := translateIds core sourceData in
  let sourceData := removeSkippedItemsFromImport config sourceData in
  importStages sourceData.

(** [importFromSourceAsync]. *)
Definition importFromSourceAsync (sourceData : ImportSource) : M (list ValidResult) :=
  importAsync sourceData.
End ImportService.

(* ================================================================= *)
(** ** The helpers of [../core], after the specification *)

Module SpecCore.

(** Modelled from the spec: the entity kinds a reference can name, by
    which the ledger of section 4.2 is keyed.  An entry of the service
    shows its kind by the contract it holds.  First the kind of the asset
    folders. *)
Definition isAssetFolder (c : ValidImportContract) : bool :=
  match c with CAssetFolder _ => true | _ => false end.

(** Modelled from the spec: the kind of the languages. *)
Definition isLanguage (c : ValidImportContract) : bool :=
  match c with CLanguage _ => true | _ => false end.

(** Modelled from the spec: the kind of the content items. *)
Definition isContentItem (c : ValidImportContract) : bool :=
  match c with CContentItem _ => true | _ => false end.

(** Modelled from the spec: the kinds an element payload refers to,
    "already-imported items/assets" in section 4.3. *)
Definition isItemOrAsset (c : ValidImportContract) : bool :=
  match c with CContentItem _ | CAsset _ => true | _ => false end.

(** Modelled from the spec: the kind of what is never in the ledger, a
    workflow step or an uploaded file. *)
Definition isNoEntity (c : ValidImportContract) : bool := false.

(** Modelled from the spec: the ledger lookup [lookup(kind, originalId)]
    of section 4.2 behind [idTranslateHelper.replaceIdReferencesWithNewId]
    (the helper is in [../core], not in this file): the entry of the
    kind with the original id answers, the first one if there are
    several. *)
Definition tryFindNewId (kind : ValidImportContract -> bool) (id : string)
    (items : list ValidResult) : option string :=
  option_map (fun r => importId r)
             (find (fun r => kind (original r) && String.eqb (originalId r) id)
                   items).

(** Modelled from the spec: the replacement of one original id by the
    same helper.  Section 4.1 calls an id that the ledger does not hold a
    fatal error; the helpers of [CoreHelpers] are total, and here such an
    id stays as it is: [getAddAssetModel] sends the id of the file it has
    just uploaded, which is no entity of the ledger, through this helper. *)
Definition newIdOf (kind : ValidImportContract -> bool) (items : list ValidResult)
    (id : string) : string :=
  match tryFindNewId kind id items with
  | Some newId => newId
  | None => id
  end.

(** Modelled from the spec: [resolveToTargetId(value, ledger)] of section
    4.1, the walk of [idTranslateHelper.replaceIdReferencesWithNewId]
    (in [../core], not in this file): every original-id reference, an
    [id] field holding a string, at any depth of arrays and nested
    objects, is replaced by the [importedId] of the content item or asset
    of the ledger that has it.  A reference written inside a string (the
    spec names asset references within rich text and leaves their syntax
    open) is beyond this model: a string that is no [id] field stays as
    it is. *)
Fixpoint resolveToTargetId (items : list ValidResult) (value : json) : json :=
  match value with
  | JArr elements => JArr (map (resolveToTargetId items) elements)
  | JObj fields =>
      JObj (map (fun kv =>
                   let '(key, val) := kv in
                   (key,
                    match val with
                    | JStr s => if String.eqb key "id"
                                then JStr (newIdOf isItemOrAsset items s)
                                else JStr s
                    | _ => resolveToTargetId items val
                    end))
                fields)
  | _ => value
  end.

(** Modelled from the spec: the same helper on a typed reference
    [{ id, codename? }] to an entity of the given kind. *)
Definition resolveReference (kind : ValidImportContract -> bool)
    (items : list ValidResult) (r : Reference) : Reference :=
  {| ref_id := newIdOf kind items (ref_id r); ref_codename := ref_codename r |}.

(** Modelled from the spec: the same helper called on a language variant,
    as [importLanguageVariantsAsync] does; the walk reaches the three
    references of the variant and its element payload.  Workflow steps are
    never imported, so the ledger has no entry for one. *)
Definition replaceIdReferencesWithNewId_languageVariant
    (languageVariant : LanguageVariantContract) (items : list ValidResult)
  : LanguageVariantContract :=
  {| lv_item := resolveReference isContentItem items (lv_item languageVariant);
     lv_language := resolveReference isLanguage items (lv_language languageVariant);
     lv_workflow_step :=
       resolveReference isNoEntity items (lv_workflow_step languageVariant);
     lv_elements := resolveToTargetId items (lv_elements languageVariant) |}.

(** Modelled from the spec: the same helper called on the request model of
    an asset, as [getAddAssetModel] does.  The file reference names the
    uploaded file, which is no entity of the ledger. *)
Definition replaceIdReferencesWithNewId_addAssetData
    (model : AddAssetData) (items : list ValidResult) : AddAssetData :=
  {| aad_descriptions :=
       map (fun d => {| ad_language :=
                          resolveReference isLanguage items (ad_language d);
                        ad_description := ad_description d |})
           (aad_descriptions model);
     aad_file_reference :=
       {| fr_id := newIdOf isNoEntity items (fr_id (aad_file_reference model));
          fr_type := fr_type (aad_file_reference model) |};
     aad_external_id := aad_external_id model;
     aad_folder := option_map (resolveReference isAssetFolder items)
                              (aad_folder model);
     aad_title := aad_title model |}.

(** Modelled from the spec: the assignment [obj.key = val] with which the
    translators of [../core] attach a codename or an external id. *)
Fixpoint setField (key : string) (val : json) (fields : list (string * json))
  : list (string * json) :=
  match fields with
  | [] => [(key, val)]
  | (k, v) :: rest =>
      if String.eqb k key then (k, val) :: rest
      else (k, v) :: setField key val rest
  end.

(** Modelled from the spec: the read [obj.key] of the same translators. *)
Fixpoint getField (key : string) (fields : list (string * json)) : option json :=
  match fields with
  | [] => None
  | (k, v) :: rest => if String.eqb k key then Some v else getField key rest
  end.

(** Modelled from the spec: the removal [delete obj.key] of the same
    translators. *)
Definition removeField (key : string) (fields : list (string * json))
  : list (string * json) :=
  filter (fun kv => negb (String.eqb (fst kv) key)) fields.

(** Modelled from the spec: the walk of both translators of section 4.1
    ([translationHelper], in [../core], not in this file): in every
    object, at any depth, that holds an [id], the raw id is replaced by
    what [symbol] finds for it: the [id] field goes and the field [key]
    holds the symbol.  The object stays as it is when nothing is found. *)
Fixpoint normalizeToSymbolic (key : string) (symbol : string -> option string)
    (value : json) : json :=
  match value with
  | JArr elements => JArr (map (normalizeToSymbolic key symbol) elements)
  | JObj fields =>
      let fields :=
        map (fun kv => let '(k, v) := kv in (k, normalizeToSymbolic key symbol v))
            fields in
      match getField "id" fields with
      | Some (JStr id) =>
          match symbol id with
          | Some s => JObj (setField key (JStr s) (removeField "id" fields))
          | None => JObj fields
          end
      | _ => JObj fields
      end
  | _ => value
  end.

(** Modelled from the spec: [normalizeToSymbolic] of section 4.1 for the
    kinds without codename references,
    [translationHelper.replaceIdReferencesWithExternalId] (in [../core],
    not in this file): the id references inside the entity become
    external-id references. *)
Definition replaceIdReferencesWithExternalId (value : json) : json :=
  normalizeToSymbolic "external_id" (fun id => Some id) value.

(** Modelled from the spec: the lookup of "the referenced entity's
    codename" of section 4.1 in the snapshot, over the kinds that carry a
    codename. *)
Definition tryFindCodenameForId (id : string) (allData : ImportData) : option string :=
  match find (fun m => String.eqb (lang_id m) id) (languages allData) with
  | Some m => Some (lang_codename m)
  | None =>
  match find (fun m => String.eqb (tax_id m) id) (taxonomies allData) with
  | Some m => Some (tax_codename m)
  | None =>
  match find (fun m => String.eqb (cts_id m) id) (contentTypeSnippets allData) with
  | Some m => Some (cts_codename m)
  | None =>
  match find (fun m => String.eqb (ct_id m) id) (contentTypes allData) with
  | Some m => Some (ct_codename m)
  | None =>
  match find (fun m => String.eqb (ci_id m) id) (contentItems allData) with
  | Some m => Some (ci_codename m)
  | None =>
  match find (fun m => String.eqb (ws_id m) id) (workflowSteps allData) with
  | Some m => ws_codename m
  | None => None
  end end end end end end.

(** Modelled from the spec: [normalizeToSymbolic(collection, allEntities,
    overrides)] of section 4.1,
    [translationHelper.replaceIdReferencesWithCodenames] (in [../core],
    not in this file), on a typed reference: a raw-id reference is
    replaced by the codename of the entity it names, so the reference
    gives up its id (the field, which a [Reference] always has, is left
    empty) and carries the codename; a reference that names no entity of
    the snapshot is left unresolved. *)
Definition withCodename (allData : ImportData) (r : Reference) : Reference :=
  match tryFindCodenameForId (ref_id r) allData with
  | Some codename => {| ref_id := EmptyString; ref_codename := Some codename |}
  | None => r
  end.

(** Modelled from the spec: the helpers of [../core] at the types the
    service calls them at. *)
Definition core : CoreHelpers :=
  {| externalIds_taxonomies :=
       map (fun t => {| tax_id := tax_id t; tax_name := tax_name t;
                        tax_codename := tax_codename t;
                        tax_external_id := tax_external_id t;
                        tax_terms := replaceIdReferencesWithExternalId (tax_terms t) |});
     externalIds_contentTypeSnippets :=
       map (fun t => {| cts_id := cts_id t; cts_name := cts_name t;
                        cts_codename := cts_codename t;
                        cts_external_id := cts_external_id t;
                        cts_elements :=
                          replaceIdReferencesWithExternalId (cts_elements t) |});
     externalIds_contentTypes :=
       map (fun t => {| ct_id := ct_id t; ct_name := ct_name t;
                        ct_codename := ct_codename t;
                        ct_external_id := ct_external_id t;
                        ct_elements :=
                          replaceIdReferencesWithExternalId (ct_elements t) |});
     codenames_languages := fun collection allData =>
       map (fun l => {| lang_id := lang_id l; lang_name := lang_name l;
                        lang_codename := lang_codename l;
                        lang_external_id := lang_external_id l;
                        lang_is_active := lang_is_active l;
                        lang_is_default := lang_is_default l;
                        lang_fallback_language :=
                          option_map (withCodename allData)
                                     (lang_fallback_language l) |})
           collection;
     codenames_assets := fun collection allData =>
       map (fun a => {| a_id := a_id a; a_file_name := a_file_name a;
                        a_title := a_title a; a_size := a_size a;
                        a_type := a_type a;
                        a_descriptions :=
                          map (fun d =>
                                 {| ad_language := withCodename allData (ad_language d);
                                    ad_description := ad_description d |})
                              (a_descriptions a);
                        a_file_reference := a_file_reference a;
                        a_external_id := a_external_id a;
                        a_folder := option_map (withCodename allData) (a_folder a) |})
           collection;
     codenames_contentItems := fun collection allData =>
       map (fun i => {| ci_id := ci_id i; ci_name := ci_name i;
                        ci_codename := ci_codename i;
                        ci_external_id := ci_external_id i;
                        ci_type := withCodename allData (ci_type i) |})
           collection;
     codenames_languageVariants := fun collection allData =>
       map (fun v => {| lv_item := withCodename allData (lv_item v);
                        lv_language := withCodename allData (lv_language v);
                        lv_workflow_step := withCodename allData (lv_workflow_step v);
                        lv_elements :=
                          normalizeToSymbolic "codename"
                            (fun id => tryFindCodenameForId id allData)
                            (lv_elements v) |})
           collection;
     codenames_workflowSteps := fun collection allData =>
       map (fun w => {| ws_id := ws_id w; ws_name := ws_name w;
                        ws_codename := ws_codename w;
                        ws_transitions_to :=
                          map (withCodename allData) (ws_transitions_to w) |})
           collection;
     newIds_languageVariant := replaceIdReferencesWithNewId_languageVariant;
     newIds_addAssetData := replaceIdReferencesWithNewId_addAssetData |}.

End SpecCore.

(* ================================================================= *)
(** ** A sample project and a target that accepts every request *)

Module Sample.

Fixpoint echoFolder (f : AddAssetFolderData) : AssetFolderModel :=
  match f with
  | MkAddAssetFolderData name external_id folders =>
      MkAssetFolderModel
        ("new-" ++ match external_id with Some e => e | None => name end)%string
        name external_id (map echoFolder folders)
  end.

(** A target project with the given languages that creates whatever it
    is asked to and names the new entities after the old ones. *)
Definition acceptingClient (target : list LanguageModel) : ManagementClient :=
  {| listLanguages := fun _ => Some target;
     modifyLanguage := fun _ _ _ => Some tt;
     addLanguage := fun d _ =>
       Some {| lm_id := ("new-" ++ ald_codename d)%string; lm_name := ald_name d;
               lm_codename := ald_codename d; lm_isActive := ald_is_active d |};
     addTaxonomy := fun d _ =>
       Some {| tm_id := ("new-" ++ tax_id d)%string; tm_name := tax_name d |};
     addContentTypeSnippet := fun d _ =>
       Some {| ctm_id := ("new-" ++ asd_codename d)%string; ctm_name := asd_name d |};
     addContentType := fun d _ =>
       Some {| ctm_id := ("new-" ++ ct_id d)%string; ctm_name := ct_name d |};
     uploadBinaryFile := fun d _ =>
       Some {| fr_id := ("file-" ++ ubf_filename d)%string; fr_type := "internal" |};
     addAsset := fun d _ =>
       Some {| am_id := ("new-" ++ fr_id (aad_file_reference d))%string;
               am_fileName := fr_id (aad_file_reference d) |};
     addAssetFolders := fun fs _ => Some (map echoFolder fs);
     addContentItem := fun d _ =>
       Some {| cim_id := ("new-" ++ acd_codename d)%string; cim_name := acd_name d |};
     upsertLanguageVariant := fun ic lc _ _ =>
       Some {| lvm_item := {| ref_id := ("new-" ++ ic)%string; ref_codename := Some ic |};
               lvm_language := {| ref_id := lc; ref_codename := Some lc |} |};
     publishLanguageVariant := fun _ _ _ => Some tt;
     changeWorkflowStepOfLanguageVariant := fun _ _ _ _ => Some tt |}.

Definition ref (id : string) : Reference := {| ref_id := id; ref_codename := None |}.

Definition english : LanguageContract :=
  {| lang_id := defaultLanguageId; lang_name := "English";
     lang_codename := "en-US"; lang_external_id := None;
     lang_is_active := true; lang_is_default := true;
     lang_fallback_language := Some (ref defaultLanguageId) |}.

Definition german : LanguageContract :=
  {| lang_id := "l-de"; lang_name := "German";
     lang_codename := "de-DE"; lang_external_id := None;
     lang_is_active := true; lang_is_default := false;
     lang_fallback_language := Some (ref defaultLanguageId) |}.

Definition tags : TaxonomyContract :=
  {| tax_id := "x-tags"; tax_name := "Tags"; tax_codename := "tags";
     tax_external_id := None; tax_terms := JArr [] |}.

Definition seo : ContentTypeSnippetContract :=
  {| cts_id := "s-seo"; cts_name := "SEO"; cts_codename := "seo";
     cts_external_id := None; cts_elements := JArr [] |}.

Definition article : ContentTypeContract :=
  {| ct_id := "t-article"; ct_name := "Article"; ct_codename := "article";
     ct_external_id := None; ct_elements := JArr [] |}.

Definition photos : AssetFolderContract :=
  MkAssetFolderContract "f-photos" "Photos" None
    [ MkAssetFolderContract "f-2020" "2020" None [];
      MkAssetFolderContract "f-2021" "2021" None
        [ MkAssetFolderContract "f-may" "May" None [] ] ].

Definition logo : AssetContract :=
  {| a_id := "a-logo"; a_file_name := "logo.png"; a_title := Some "Logo";
     a_size := 2048; a_type := "image/png"; a_descriptions := [];
     a_file_reference := {| fr_id := "r-logo"; fr_type := "internal" |};
     a_external_id := None; a_folder := Some (ref "f-2020") |}.

Definition film : AssetContract :=
  {| a_id := "a-film"; a_file_name := "film.mp4"; a_title := None;
     a_size := 100000000; a_type := "video/mp4"; a_descriptions := [];
     a_file_reference := {| fr_id := "r-film"; fr_type := "internal" |};
     a_external_id := None; a_folder := None |}.

Definition logoFile : BinaryFile :=
  {| bf_asset := logo; bf_binaryData := [x89; x50; x4e; x47] |}.
Definition filmFile : BinaryFile :=
  {| bf_asset := film; bf_binaryData := [x00; x00; x00; x18] |}.

Definition home : ContentItemContract :=
  {| ci_id := "i-home"; ci_name := "Home"; ci_codename := "home";
     ci_external_id := None; ci_type := ref "t-article" |}.

Definition about : ContentItemContract :=
  {| ci_id := "i-about"; ci_name := "About"; ci_codename := "about";
     ci_external_id := None; ci_type := ref "t-article" |}.

Definition draft : WorkflowStepContract :=
  {| ws_id := "w-draft"; ws_name := "Draft"; ws_codename := None;
     ws_transitions_to := [ref "w-published"] |}.
Definition published : WorkflowStepContract :=
  {| ws_id := "w-published"; ws_name := "Published"; ws_codename := None;
     ws_transitions_to := [] |}.

(** Elements of a variant: a linked item and, inside a list nested in a
    component, an asset. *)
Definition homeElements : json :=
  JArr [ JObj [ ("element", JObj [("id", JStr "e-related")]);
                ("value", JArr [ JObj [("id", JStr "i-about")] ]) ];
         JObj [ ("element", JObj [("id", JStr "e-body")]);
                ("components",
                 JArr [ JObj [ ("elements",
                                JArr [ JObj [("value",
                                              JArr [ JObj [("id", JStr "a-logo")] ])] ]) ] ]) ] ].

Definition variant (item language step : string) (elements : json)
  : LanguageVariantContract :=
  {| lv_item := ref item; lv_language := ref language;
     lv_workflow_step := ref step; lv_elements := elements |}.

Definition source : ImportSource :=
  {| importData :=
       {| languages := [english; german];
          taxonomies := [tags];
          contentTypeSnippets := [seo];
          contentTypes := [article];
          assets := [logo; film];
          contentItems := [home; about];
          languageVariants :=
            [ variant "i-home" defaultLanguageId "w-published" homeElements;
              variant "i-home" "l-de" "w-draft" (JArr []);
              variant "i-about" defaultLanguageId "w-published" (JArr []) ];
          workflowSteps := [draft; published] |};
     assetFolders := [photos];
     binaryFiles := [logoFile; filmFile] |}.

Definition config : ImportConfig :=
  {| enablePublish := true;
     workflowIdForImportedItems := None;
     fixLanguages := false;
     process := None;
     onImport := false;
     onUnsupportedBinaryFile := true |}.

(** The target project starts with its default language only. *)
Definition target : list LanguageModel :=
  [ {| lm_id := defaultLanguageId; lm_name := "Default";
       lm_codename := "en-US"; lm_isActive := true |} ].

End Sample.

(* ================================================================= *)
(** ** Vocabulary of the properties *)

(** The stages of [importAsync], in the order of the code. *)
Inductive Stage : Type :=
| SAssetFolders | SLanguages | STaxonomies | SContentTypeSnippets | SContentTypes
| SAssets | SContentItems | SLanguageVariants | SPublish | SChangeWorkflowStep.


(** The stage a request belongs to. *)
Definition stageOfRequest (r : Request) : Stage :=
  match r with
  | ListLanguages | ModifyLanguage _ _ | AddLanguage _ => SLanguages
  | AddTaxonomy _ => STaxonomies
  | AddContentTypeSnippet _ => SContentTypeSnippets
  | AddContentType _ => SContentTypes
  | UploadBinaryFile _ | AddAsset _ => SAssets
  | AddAssetFolders _ => SAssetFolders
  | AddContentItem _ => SContentItems
  | UpsertLanguageVariant _ _ _ => SLanguageVariants
  | PublishLanguageVariant _ _ => SPublish
  | ChangeWorkflowStepOfLanguageVariant _ _ _ => SChangeWorkflowStep
  end.

Definition stageOfAction (t : ActionType) : Stage :=
  match t with
  | AtLanguage => SLanguages
  | AtAsset => SAssets
  | AtAssetFolder => SAssetFolders
  | AtContentType => SContentTypes
  | AtContentTypeSnippet => SContentTypeSnippets
  | AtContentItem => SContentItems
  | AtLanguageVariant => SLanguageVariants
  | AtTaxonomy => STaxonomies
  | AtPublish => SPublish
  | AtChangeWorkflowStep => SChangeWorkflowStep
  end.

Definition stageOf (e : Event) : Stage :=
  match e with
  | Call r => stageOfRequest r
  | OnImport _ t => stageOfAction t
  | OnUnsupportedBinaryFile _ => SAssets
  end.

(** The kind of an entry of the answered list. *)
Definition kindOf (r : ValidResult) : Stage :=
  match original r with
  | CAssetFolder _ => SAssetFolders
  | CLanguage _ => SLanguages
  | CTaxonomy _ => STaxonomies
  | CContentTypeSnippet _ => SContentTypeSnippets
  | CContentType _ => SContentTypes
  | CAsset _ => SAssets
  | CContentItem _ => SContentItems
  | CLanguageVariant _ => SLanguageVariants
  end.







(** The answered folders in pre-order, as [flattenAssetFolders] visits
    them. *)
Fixpoint flattenAssetFolderModel (assetFolder : AssetFolderModel)
  : list AssetFolderModel :=
  match assetFolder with
  | MkAssetFolderModel _ _ _ folders =>
      assetFolder :: flat_map flattenAssetFolderModel folders
  end.

Definition flattenAssetFolderModels (assetFolders : list AssetFolderModel)
  : list AssetFolderModel :=
  flat_map flattenAssetFolderModel assetFolders.

Fixpoint flattenAddAssetFolderData (folder : AddAssetFolderData)
  : list AddAssetFolderData :=
  match folder with
  | MkAddAssetFolderData _ _ folders =>
      folder :: flat_map flattenAddAssetFolderData folders
  end.

(** Every event a computation adds satisfies [P], whatever the log
    before it. *)
Definition emits {A} (P : Event -> Prop) (m : M A) : Prop :=
  forall h, Forall P (snd (m h)).

Definition inStage (s : Stage) (e : Event) : Prop := stageOf e = s.


(** The requests of a log, in order. *)
Definition requestOf (e : Event) : list Request :=
  match e with Call r => [r] | _ => [] end.

Definition calls (events : list Event) : list Request := flat_map requestOf events.

Section RunVocabulary.
Variable core : CoreHelpers.
Variable client : ManagementClient.
Variable config : ImportConfig.
Variable sourceData : ImportSource.


(** What a stage behind [if (collection.length)] answered and logged. *)
Definition guardedRun {A R} (collection : list A) (stage : M (list R))
    (h : list Event) (r : list R) (e : list Event) : Prop :=
  match collection with
  | [] => r = [] /\ e = []
  | _ :: _ => stage h = (Ok r, e)
  end.

(** The pieces of a run that ran to its end. *)
Record StageRuns : Type := {
  r_folders : list (ImportItemResult AssetFolderContract AssetFolderModel);
  e_folders : list Event;
  r_languages : list (ImportItemResult LanguageContract LanguageModel);
  e_languages : list Event;
  r_taxonomies : list (ImportItemResult TaxonomyContract TaxonomyModel);
  e_taxonomies : list Event;
  r_snippets : list (ImportItemResult ContentTypeSnippetContract ContentTypeModel);
  e_snippets : list Event;
  r_types : list (ImportItemResult ContentTypeContract ContentTypeModel);
  e_types : list Event;
  r_assets : list (ImportItemResult AssetContract AssetModel);
  e_assets : list Event;
  r_items : list (ImportItemResult ContentItemContract ContentItemModel);
  e_items : list Event;
  r_variants : list (ImportItemResult LanguageVariantContract LanguageVariantModel);
  variants_after : list LanguageVariantContract;
  e_variants : list Event;
  e_publish : list Event;
  e_workflow : list Event
}.

(** The entries the assets stage and the language-variants stage
    receive as [currentItems]. *)
Definition itemsBeforeAssets (s : StageRuns) : list ValidResult :=
  map (widen CAssetFolder MAssetFolder) (r_folders s)
  ++ map (widen CLanguage MLanguage) (r_languages s)
  ++ map (widen CTaxonomy MTaxonomy) (r_taxonomies s).

Definition itemsBeforeVariants (s : StageRuns) : list ValidResult :=
  itemsBeforeAssets s
  ++ map (widen CAsset MAsset) (r_assets s)
  ++ map (widen CContentItem MContentItem) (r_items s).

Definition stagesRan (h : list Event) (s : StageRuns) : Prop :=
  let data := importData sourceData in
  guardedRun (assetFolders sourceData)
    (importAssetFoldersAsync client config (assetFolders sourceData))
    h (r_folders s) (e_folders s) /\
  (exists h', guardedRun (languages data)
    (importLanguagesAsync client config (languages data))
    h' (r_languages s) (e_languages s)) /\
  (exists h', guardedRun (taxonomies data)
    (importTaxonomiesAsync client config (taxonomies data))
    h' (r_taxonomies s) (e_taxonomies s)) /\
  (exists h', guardedRun (contentTypeSnippets data)
    (importContentTypeSnippetsAsync client config (contentTypeSnippets data))
    h' (r_snippets s) (e_snippets s)) /\
  (exists h', guardedRun (contentTypes data)
    (importContentTypesAsync client config (contentTypes data))
    h' (r_types s) (e_types s)) /\
  (exists h', guardedRun (assets data)
    (importAssetsAsync core client config (assets data) (binaryFiles sourceData)
       (itemsBeforeAssets s))
    h' (r_assets s) (e_assets s)) /\
  (exists h', guardedRun (contentItems data)
    (importContentItemAsync client config (contentItems data))
    h' (r_items s) (e_items s)) /\
  (exists h',
    importLanguageVariantsAsync core client config (languageVariants data)
      (itemsBeforeVariants s) h'
    = (Ok (r_variants s, variants_after s), e_variants s)) /\
  (exists h',
    (if enablePublish config
     then publishLanguageVariantsAsync client config (variants_after s)
            (workflowSteps data)
     else ret tt) h' = (Ok tt, e_publish s)) /\
  (exists h',
    match truthy (workflowIdForImportedItems config) with
    | Some workflowStepId =>
        moveLanguageVariantsToCustomWorkflowStepAsync client config
          workflowStepId (variants_after s)
    | None => ret tt
    end h' = (Ok tt, e_workflow s)).

Definition resultsOf (s : StageRuns) : list ValidResult :=
  itemsBeforeVariants s
  ++ map (widen CLanguageVariant MLanguageVariant) (r_variants s).

Definition eventsOf (s : StageRuns) : list Event :=
  e_folders s ++ e_languages s ++ e_taxonomies s ++ e_snippets s ++ e_types s
  ++ e_assets s ++ e_items s ++ e_variants s ++ e_publish s ++ e_workflow s.

End RunVocabulary.

(** The request for one content item, when its type has a codename. *)
Definition contentItemRequest (contentItem : ContentItemContract) : list Request :=
  match truthy (ref_codename (ci_type contentItem)) with
  | Some typeCodename =>
      [AddContentItem {| acd_name := ci_name contentItem;
                         acd_type_codename := typeCodename;
                         acd_codename := ci_codename contentItem;
                         acd_external_id := ci_external_id contentItem |}]
  | None => []
  end.


Module PreparationOrder.

(** A content type that the configuration skips and an item of that
    type. *)
Definition source : ImportSource :=
  {| importData :=
       {| languages := []; taxonomies := []; contentTypeSnippets := [];
          contentTypes := [Sample.article];
          assets := [];
          contentItems := [Sample.home];
          languageVariants := []; workflowSteps := [] |};
     assetFolders := [];
     binaryFiles := [] |}.

Definition skipContentTypes : ProcessConfig :=
  {| p_asset := None; p_language := None; p_assetFolder := None;
     p_contentType := Some (fun _ => false);
     p_contentItem := None; p_contentTypeSnippet := None;
     p_languageVariant := None; p_taxonomy := None |}.

Definition config : ImportConfig :=
  {| enablePublish := false;
     workflowIdForImportedItems := None;
     fixLanguages := false;
     process := Some skipContentTypes;
     onImport := false;
     onUnsupportedBinaryFile := false |}.

(** The preparation the claim describes: remove the skipped items, then
    translate the ids. *)
Definition filterThenTranslate (core : CoreHelpers) (config : ImportConfig)
    (sourceData : ImportSource) : ImportSource :=
  translateIds core (removeSkippedItemsFromImport config sourceData).

End PreparationOrder.

Module SkipVariant.

(** Two items, each with an English and a German variant; the
    configuration skips the English variant of the home page only. *)
Definition homeEn : LanguageVariantContract :=
  Sample.variant "i-home" defaultLanguageId "w-draft" (JArr []).
Definition homeDe : LanguageVariantContract :=
  Sample.variant "i-home" "l-de" "w-draft" (JArr []).
Definition aboutEn : LanguageVariantContract :=
  Sample.variant "i-about" defaultLanguageId "w-draft" (JArr []).
Definition aboutDe : LanguageVariantContract :=
  Sample.variant "i-about" "l-de" "w-draft" (JArr []).

Definition shouldImport (v : LanguageVariantContract) : bool :=
  negb (String.eqb (ref_id (lv_item v)) "i-home"
        && String.eqb (ref_id (lv_language v)) defaultLanguageId).

Definition source : ImportSource :=
  {| importData :=
       {| languages := [Sample.english; Sample.german];
          taxonomies := []; contentTypeSnippets := [];
          contentTypes := [Sample.article];
          assets := [];
          contentItems := [Sample.home; Sample.about];
          languageVariants := [homeEn; homeDe; aboutEn; aboutDe];
          workflowSteps := [Sample.draft; Sample.published] |};
     assetFolders := [];
     binaryFiles := [] |}.

Definition config : ImportConfig :=
  {| enablePublish := false;
     workflowIdForImportedItems := None;
     fixLanguages := false;
     process :=
       Some {| p_asset := None; p_language := None; p_assetFolder := None;
               p_contentType := None; p_contentItem := None;
               p_contentTypeSnippet := None;
               p_languageVariant := Some shouldImport;
               p_taxonomy := None |};
     onImport := false;
     onUnsupportedBinaryFile := false |}.

(** The same choice for variants that are referred to by codename, as the
    codename translation leaves them. *)
Definition shouldImportByCodename (v : LanguageVariantContract) : bool :=
  match ref_codename (lv_item v), ref_codename (lv_language v) with
  | Some itemCodename, Some languageCodename =>
      negb (String.eqb itemCodename "home" && String.eqb languageCodename "en-US")
  | _, _ => true
  end.

Definition configByCodename : ImportConfig :=
  {| enablePublish := false;
     workflowIdForImportedItems := None;
     fixLanguages := false;
     process :=
       Some {| p_asset := None; p_language := None; p_assetFolder := None;
               p_contentType := None; p_contentItem := None;
               p_contentTypeSnippet := None;
               p_languageVariant := Some shouldImportByCodename;
               p_taxonomy := None |};
     onImport := false;
     onUnsupportedBinaryFile := false |}.

End SkipVariant.

(** The target project has a default language, and none of its languages
    has the given codename. *)
Definition defaultNamedOtherwise (codename : string)
    (currentLanguages : list LanguageModel) : Prop :=
  (exists d, In d currentLanguages /\ lm_id d = defaultLanguageId) /\
  (forall m, In m currentLanguages -> lm_codename m <> codename).

Module MismatchedDefault.

(** The target project names its default language [en-GB]. *)
Definition target : list LanguageModel :=
  [ {| lm_id := defaultLanguageId; lm_name := "Default";
       lm_codename := "en-GB"; lm_isActive := true |} ].

End MismatchedDefault.

(** Induction over folder trees, with the property known of every child. *)
Fixpoint AssetFolderContract_tree_ind (P : AssetFolderContract -> Prop)
    (step : forall id name external_id folders,
        Forall P folders -> P (MkAssetFolderContract id name external_id folders))
    (f : AssetFolderContract) : P f :=
  match f with
  | MkAssetFolderContract id name external_id folders =>
      step id name external_id folders
        ((fix children (l : list AssetFolderContract) : Forall P l :=
            match l with
            | [] => Forall_nil P
            | x :: l' =>
                Forall_cons x (AssetFolderContract_tree_ind step x) (children l')
            end) folders)
  end.

Fixpoint AssetFolderModel_tree_ind (P : AssetFolderModel -> Prop)
    (step : forall id name externalId folders,
        Forall P folders -> P (MkAssetFolderModel id name externalId folders))
    (f : AssetFolderModel) : P f :=
  match f with
  | MkAssetFolderModel id name externalId folders =>
      step id name externalId folders
        ((fix children (l : list AssetFolderModel) : Forall P l :=
            match l with
            | [] => Forall_nil P
            | x :: l' =>
                Forall_cons x (AssetFolderModel_tree_ind step x) (children l')
            end) folders)
  end.

(** The body of the loop of [flattenAssetFolders] without the descent. *)
Definition pushFolder (originalItems : list AssetFolderContract)
    (assetFolder : AssetFolderModel)
    (items : list (ImportItemResult AssetFolderContract AssetFolderModel))
  : Outcome (list (ImportItemResult AssetFolderContract AssetFolderModel)) :=
  match find (fun m => opt_eqb (afc_external_id m) (af_externalId assetFolder))
             originalItems with
  | None =>
      Throw (CouldNotFindOriginalFolder (af_externalId assetFolder)
                                        (af_name assetFolder))
  | Some originalFolder =>
      Ok (items ++ [ {| imported := assetFolder;
                        original := originalFolder;
                        importId := af_id assetFolder;
                        originalId := afc_id originalFolder |} ])
  end.

(** An entry pairs an answered folder with the original folder that
    carries its external id. *)
Definition pairsFolder (originalItems : list AssetFolderContract)
    (r : ImportItemResult AssetFolderContract AssetFolderModel) : Prop :=
  find (fun m => opt_eqb (afc_external_id m) (af_externalId (imported r)))
       originalItems = Some (original r) /\
  importId r = af_id (imported r) /\
  originalId r = afc_id (original r).

Module StrangerFolder.

(** A target that answers a folder nobody asked for. *)
Definition stranger : AssetFolderModel :=
  MkAssetFolderModel "new-other" "Other" (Some "f-other") [].

Definition client : ManagementClient :=
  {| listLanguages := listLanguages (Sample.acceptingClient Sample.target);
     modifyLanguage := modifyLanguage (Sample.acceptingClient Sample.target);
     addLanguage := addLanguage (Sample.acceptingClient Sample.target);
     addTaxonomy := addTaxonomy (Sample.acceptingClient Sample.target);
     addContentTypeSnippet :=
       addContentTypeSnippet (Sample.acceptingClient Sample.target);
     addContentType := addContentType (Sample.acceptingClient Sample.target);
     uploadBinaryFile := uploadBinaryFile (Sample.acceptingClient Sample.target);
     addAsset := addAsset (Sample.acceptingClient Sample.target);
     addAssetFolders := fun fs _ => Some (map Sample.echoFolder fs ++ [stranger]);
     addContentItem := addContentItem (Sample.acceptingClient Sample.target);
     upsertLanguageVariant :=
       upsertLanguageVariant (Sample.acceptingClient Sample.target);
     publishLanguageVariant :=
       publishLanguageVariant (Sample.acceptingClient Sample.target);
     changeWorkflowStepOfLanguageVariant :=
       changeWorkflowStepOfLanguageVariant (Sample.acceptingClient Sample.target) |}.

End StrangerFolder.

(** The binary file of an asset: the first one of the collection whose
    asset has the id of the asset. *)
Definition binaryFileOf (binaryFiles : list BinaryFile) (asset : AssetContract)
  : option BinaryFile :=
  find (fun m => String.eqb (a_id (bf_asset m)) (a_id asset)) binaryFiles.

(** The file is at or above the ceiling. *)
Definition oversized (binaryFile : BinaryFile) : bool :=
  (maxAllowedAssetSizeInBytes <=? a_size (bf_asset binaryFile))%Z.

(** What is to be uploaded for an asset, and what is to be reported. *)
Definition uploadedData (binaryFiles : list BinaryFile) (asset : AssetContract)
  : list (list byte) :=
  match binaryFileOf binaryFiles asset with
  | Some binaryFile =>
      [if oversized binaryFile then [] else bf_binaryData binaryFile]
  | None => []
  end.

Definition unsupportedOf (binaryFiles : list BinaryFile) (asset : AssetContract)
  : list BinaryFile :=
  match binaryFileOf binaryFiles asset with
  | Some binaryFile => if oversized binaryFile then [binaryFile] else []
  | None => []
  end.

(** The payloads uploaded and the files reported, read off a log. *)
Definition uploadsOf (e : Event) : list (list byte) :=
  match e with
  | Call (UploadBinaryFile data) => [ubf_binaryData data]
  | _ => []
  end.

Definition unsupportedCalls (e : Event) : list BinaryFile :=
  match e with
  | OnUnsupportedBinaryFile file => [file]
  | _ => []
  end.






(** The publish request for a variant, when both its codenames are set. *)
Definition publishRequest (v : LanguageVariantContract) : list Request :=
  match truthy (ref_codename (lv_item v)), truthy (ref_codename (lv_language v)) with
  | Some itemCodename, Some languageCodename =>
      [PublishLanguageVariant itemCodename languageCodename]
  | _, _ => []
  end.

Definition hasCodenames (v : LanguageVariantContract) : Prop :=
  truthy (ref_codename (lv_item v)) <> None /\
  truthy (ref_codename (lv_language v)) <> None.

(** The upsert request for a variant, when both its codenames are set. *)
Definition upsertRequest (core : CoreHelpers) (currentItems : list ValidResult)
    (v : LanguageVariantContract) : list Request :=
  match truthy (ref_codename (lv_item v)), truthy (ref_codename (lv_language v)) with
  | Some itemCodename, Some languageCodename =>
      [UpsertLanguageVariant itemCodename languageCodename
         (lv_elements (newIds_languageVariant core v currentItems))]
  | _, _ => []
  end.

(* ================================================================= *)
(** ** Vocabulary of the further properties *)

(** *** Languages *)

(** The request that activates the target language with the codename of
    the imported language. *)
Definition activation (importLanguage : LanguageContract) : Request :=
  ModifyLanguage (lang_codename importLanguage) [ReplaceIsActive true].

(** The request that gives a target language the codename of the imported
    language. *)
Definition renaming (targetLanguage : LanguageModel)
    (importLanguage : LanguageContract) : Request :=
  ModifyLanguage (lm_codename targetLanguage)
                 [ReplaceCodename (lang_codename importLanguage)].

(** The target project has a language with the codename of the imported
    language. *)
Definition knownCodename (currentLanguages : list LanguageModel)
    (importLanguage : LanguageContract) : bool :=
  existsb (fun m => String.eqb (lm_codename m) (lang_codename importLanguage))
          currentLanguages.

(** The request [tryGetLanguage] prepares for a language, if any. *)
Definition addLanguageRequest (currentLanguages : list LanguageModel)
    (importLanguage : LanguageContract) : list Request :=
  match tryGetLanguage currentLanguages importLanguage with
  | Ok (Some data) => [AddLanguage data]
  | _ => []
  end.

(** The request lists the languages of the target. *)
Definition isListLanguages (rq : Request) : bool :=
  match rq with ListLanguages => true | _ => false end.

(** The event is not a request for the languages of the target. *)
Definition notListing (e : Event) : Prop :=
  match e with Call ListLanguages => False | _ => True end.

(** *** The removal of the skipped items *)

(** An optional predicate of the configuration accepts the entity; without
    a predicate everything is accepted. *)
Definition accepted {A} (predicate : option (A -> bool)) (x : A) : bool :=
  match predicate with
  | Some shouldImport => shouldImport x
  | None => true
  end.

(** The data sent for a content-type snippet. *)
Definition snippetData (contentTypeSnippet : ContentTypeSnippetContract)
  : AddSnippetData :=
  {| asd_elements := cts_elements contentTypeSnippet;
     asd_name := cts_name contentTypeSnippet;
     asd_codename := cts_codename contentTypeSnippet;
     asd_external_id := cts_external_id contentTypeSnippet |}.

(** The request creates, uploads or upserts an entity of the source that
    satisfies [ok]; the requests that name no entity of the source satisfy
    it as they are. *)
Definition sentFor (sourceData : ImportSource)
    (ok : ValidImportContract -> Prop) (e : Event) : Prop :=
  let data := importData sourceData in
  match e with
  | Call (AddAssetFolders folders) =>
      folders = map mapAssetFolder (setExternalIdForFolders (assetFolders sourceData))
      /\ forall f, In f (assetFolders sourceData) -> ok (CAssetFolder f)
  | Call (AddLanguage d) =>
      exists l, In l (languages data) /\ ok (CLanguage l) /\
                ald_codename d = lang_codename l
  | Call (AddTaxonomy t) => In t (taxonomies data) /\ ok (CTaxonomy t)
  | Call (AddContentTypeSnippet d) =>
      exists s, In s (contentTypeSnippets data) /\ ok (CContentTypeSnippet s) /\
                d = snippetData s
  | Call (AddContentType t) => In t (contentTypes data) /\ ok (CContentType t)
  | Call (UploadBinaryFile d) =>
      exists a, In a (assets data) /\ ok (CAsset a) /\
                ubf_filename d = a_file_name a /\ ubf_contentType d = a_type a
  | Call (AddContentItem d) =>
      exists i, In i (contentItems data) /\ ok (CContentItem i) /\
                contentItemRequest i = [AddContentItem d]
  | Call (UpsertLanguageVariant itemCodename languageCodename _) =>
      exists v, In v (languageVariants data) /\ ok (CLanguageVariant v) /\
                ref_codename (lv_item v) = Some itemCodename /\
                ref_codename (lv_language v) = Some languageCodename
  | _ => True
  end.

(** The predicate of the configuration for the kind of the entity accepts
    it. *)
Definition acceptedBy (config : ImportConfig) (c : ValidImportContract) : Prop :=
  match process config with
  | None => True
  | Some p =>
      match c with
      | CAssetFolder f => accepted (p_assetFolder p) f = true
      | CLanguage l => accepted (p_language p) l = true
      | CTaxonomy t => accepted (p_taxonomy p) t = true
      | CContentTypeSnippet s => accepted (p_contentTypeSnippet p) s = true
      | CContentType t => accepted (p_contentType p) t = true
      | CAsset a => accepted (p_asset p) a = true
      | CContentItem i => accepted (p_contentItem p) i = true
      | CLanguageVariant v => accepted (p_languageVariant p) v = true
      end
  end.

(** *** Loops *)

(** The error of the codename check of a variant that fails it. *)
Definition missingCodename (v : LanguageVariantContract) : Error :=
  match truthy (ref_codename (lv_item v)) with
  | None => MissingItemCodename
  | Some _ => MissingLanguageCodename
  end.

(** The request that moves a variant to a workflow step, when both its
    codenames are set. *)
Definition moveRequest (workflowStepId : string) (v : LanguageVariantContract)
  : list Request :=
  match truthy (ref_codename (lv_item v)), truthy (ref_codename (lv_language v)) with
  | Some itemCodename, Some languageCodename =>
      [ChangeWorkflowStepOfLanguageVariant itemCodename languageCodename
         workflowStepId]
  | _, _ => []
  end.

(** The request moves a variant to a workflow step. *)
Definition isMove (rq : Request) : bool :=
  match rq with
  | ChangeWorkflowStepOfLanguageVariant _ _ _ => true
  | _ => false
  end.

(** The request upserts a variant. *)
Definition isUpsert (rq : Request) : bool :=
  match rq with
  | UpsertLanguageVariant _ _ _ => true
  | _ => false
  end.

(** A loop that sends one request for each element, in order, and stops at
    the first one the target rejects. *)
Definition sentInOrder {A R} (rq : A -> Request) (xs : list A)
    (run : Outcome (list R) * list Event) : Prop :=
  match fst run with
  | Ok rs => calls (snd run) = map rq xs /\ length rs = length xs
  | Throw e =>
      exists before x after,
        xs = before ++ x :: after /\ e = RequestFailed (rq x) /\
        calls (snd run) = map rq (before ++ [x])
  end.

(** *** Events, rejections and callbacks *)

(** What the configuration allows in a log: a request that modifies a
    language of the target only in fix mode, and the calls of the two
    callbacks only when they are configured, the second one for a file at
    or above the ceiling. *)
Definition allowedBy (config : ImportConfig) (e : Event) : Prop :=
  match e with
  | Call (ModifyLanguage _ _) => fixLanguages config = true
  | Call _ => True
  | OnImport _ _ => onImport config = true
  | OnUnsupportedBinaryFile file =>
      onUnsupportedBinaryFile config = true /\ oversized file = true
  end.

(** The promise of a request was fulfilled. *)
Definition isSome {A} (o : option A) : bool :=
  match o with Some _ => true | None => false end.

(** Whether the target accepts a request sent after the log [h]. *)
Definition accepts (client : ManagementClient) (rq : Request) (h : list Event)
  : bool :=
  match rq with
  | ListLanguages => isSome (listLanguages client h)
  | ModifyLanguage codename ops => isSome (modifyLanguage client codename ops h)
  | AddLanguage data => isSome (addLanguage client data h)
  | AddTaxonomy data => isSome (addTaxonomy client data h)
  | AddContentTypeSnippet data => isSome (addContentTypeSnippet client data h)
  | AddContentType data => isSome (addContentType client data h)
  | UploadBinaryFile data => isSome (uploadBinaryFile client data h)
  | AddAsset data => isSome (addAsset client data h)
  | AddAssetFolders folders => isSome (addAssetFolders client folders h)
  | AddContentItem data => isSome (addContentItem client data h)
  | UpsertLanguageVariant itemCodename languageCodename elements =>
      isSome (upsertLanguageVariant client itemCodename languageCodename
                elements h)
  | PublishLanguageVariant itemCodename languageCodename =>
      isSome (publishLanguageVariant client itemCodename languageCodename h)
  | ChangeWorkflowStepOfLanguageVariant itemCodename languageCodename id =>
      isSome (changeWorkflowStepOfLanguageVariant client itemCodename
                languageCodename id h)
  end.

(** A computation that throws a rejected request has sent it last, and the
    target did reject it then. *)
Definition stopsAtRejection (client : ManagementClient) {A} (m : M A) : Prop :=
  forall h rq events,
    m h = (Throw (RequestFailed rq), events) ->
    exists before,
      events = before ++ [Call rq] /\ accepts client rq (h ++ before) = false.

(** The action the [onImport] callback is told after the request has been
    accepted, for the requests that are followed by [processItem]. *)
Definition notifies (rq : Request) : option ActionType :=
  match rq with
  | AddLanguage _ => Some AtLanguage
  | AddTaxonomy _ => Some AtTaxonomy
  | AddContentTypeSnippet _ => Some AtContentTypeSnippet
  | AddContentType _ => Some AtContentType
  | AddAsset _ => Some AtAsset
  | AddContentItem _ => Some AtContentItem
  | UpsertLanguageVariant _ _ _ => Some AtLanguageVariant
  | PublishLanguageVariant _ _ => Some AtPublish
  | ChangeWorkflowStepOfLanguageVariant _ _ _ => Some AtChangeWorkflowStep
  | ListLanguages | ModifyLanguage _ _ | UploadBinaryFile _
  | AddAssetFolders _ => None
  end.

(** The actions the callback was told, those of the asset folders apart:
    the folders come with one request for all of them. *)
Definition noticeOf (e : Event) : list ActionType :=
  match e with
  | OnImport _ AtAssetFolder => []
  | OnImport _ type => [type]
  | _ => []
  end.

(** The actions the requests of a log call for. *)
Definition dueOf (e : Event) : list ActionType :=
  match e with
  | Call rq => match notifies rq with Some type => [type] | None => [] end
  | _ => []
  end.

(** The calls of the callback for asset folders. *)
Definition folderNoticeOf (e : Event) : list string :=
  match e with
  | OnImport title AtAssetFolder => [title]
  | _ => []
  end.

(** A computation that runs to its end has told the callback every action
    its requests call for, in their order. *)
Definition balanced {A} (m : M A) : Prop :=
  forall h a e, m h = (Ok a, e) -> flat_map noticeOf e = flat_map dueOf e.

(** The names of the answered folders among the entries of a list. *)
Definition folderNames (rs : list ValidResult) : list string :=
  flat_map (fun r => match imported r with
                     | MAssetFolder m => [af_name m]
                     | _ => []
                     end) rs.

(** *** Entries and errors *)

(** An entry of the answered list links an entity of the source to the
    model the target answered for it: both are of the same kind, the
    original id is the id of the entity and the import id is the id of the
    model.  The entity is one of the source for the kinds the run leaves as
    they are; for a folder it is a node of the tree with the external ids
    set, and it has the external id the answered folder carries. *)
Definition linked (sourceData : ImportSource) (r : ValidResult) : Prop :=
  let data := importData sourceData in
  match original r, imported r with
  | CAssetFolder c, MAssetFolder m =>
      In c (flattenAssetFolderContracts
              (setExternalIdForFolders (assetFolders sourceData))) /\
      afc_external_id c = af_externalId m /\
      originalId r = afc_id c /\ importId r = af_id m
  | CLanguage c, MLanguage m =>
      In c (languages data) /\ originalId r = lang_id c /\ importId r = lm_id m
  | CTaxonomy c, MTaxonomy m =>
      In c (taxonomies data) /\ originalId r = tax_id c /\ importId r = tm_id m
  | CAsset c, MAsset m =>
      (exists a, In a (assets data) /\ a_id a = a_id c) /\
      originalId r = a_id c /\ importId r = am_id m
  | CContentItem c, MContentItem m =>
      In c (contentItems data) /\ originalId r = ci_id c /\ importId r = cim_id m
  | CLanguageVariant c, MLanguageVariant m =>
      originalId r = ref_id (lv_item c) /\ importId r = ref_id (lvm_item m)
  | _, _ => False
  end.

(** What an error of the run goes back to: a request the target rejects,
    or an entity of the source that lacks what the stage needs.  [rewritten]
    gives the forms under which the later passes see a language variant. *)
Definition causeOf (client : ManagementClient) (config : ImportConfig)
    (sourceData : ImportSource)
    (rewritten : LanguageVariantContract -> LanguageVariantContract -> Prop)
    (e : Error) : Prop :=
  let data := importData sourceData in
  match e with
  | RequestFailed rq => exists h, accepts client rq h = false
  | InvalidDefaultExistingLanguage id =>
      fixLanguages config = true /\
      exists l, In l (languages data) /\ lang_is_default l = true /\
                lang_id l = id
  | DefaultLanguageCodenameMismatch source target =>
      target <> source /\
      exists l, In l (languages data) /\ lang_id l = defaultLanguageId /\
                lang_codename l = source
  | LanguageHasUnsetCodename name =>
      exists l fallback,
        In l (languages data) /\ lang_name l = name /\
        lang_fallback_language l = Some fallback /\
        truthy (ref_codename fallback) = None
  | TypeError =>
      exists l, In l (languages data) /\ lang_fallback_language l = None
  | CouldNotFindBinaryFile assetId =>
      exists a, In a (assets data) /\ a_id a = assetId /\
                binaryFileOf (binaryFiles sourceData) a = None
  | UnsetTypeCodename itemCodename =>
      exists i, In i (contentItems data) /\ ci_codename i = itemCodename /\
                truthy (ref_codename (ci_type i)) = None
  | MissingItemCodename =>
      exists v w, In v (languageVariants data) /\ rewritten v w /\
                  truthy (ref_codename (lv_item w)) = None
  | MissingLanguageCodename =>
      exists v w, In v (languageVariants data) /\ rewritten v w /\
                  truthy (ref_codename (lv_language w)) = None
  | CouldNotFindOriginalFolder externalId name =>
      assetFolders sourceData <> [] /\
      forall o, In o (flattenAssetFolderContracts
                        (setExternalIdForFolders (assetFolders sourceData))) ->
                afc_external_id o <> externalId
  end.

(** The variant as the source holds it, or as the id helper left it. *)
Definition seenAs (core : CoreHelpers) (v w : LanguageVariantContract) : Prop :=
  w = v \/ exists currentItems, w = newIds_languageVariant core v currentItems.

(** Every error a computation throws satisfies [Q]. *)
Definition throwsOnly (Q : Error -> Prop) {A} (m : M A) : Prop :=
  forall h e events, m h = (Throw e, events) -> Q e.

(** *** Sample data of the further properties *)

Module FixLanguages.

(** A target whose default language is named [en-GB] and whose German is
    inactive. *)
Definition target : list LanguageModel :=
  [ {| lm_id := defaultLanguageId; lm_name := "Default";
       lm_codename := "en-GB"; lm_isActive := true |};
    {| lm_id := "t-de"; lm_name := "German";
       lm_codename := "de-DE"; lm_isActive := false |} ].

(** A language flagged as default whose id the target does not know. *)
Definition stray : LanguageContract :=
  {| lang_id := "l-xx"; lang_name := "Stray"; lang_codename := "xx";
     lang_external_id := None; lang_is_active := true; lang_is_default := true;
     lang_fallback_language := Some (Sample.ref defaultLanguageId) |}.

(** The fix mode and both callbacks. *)
Definition config : ImportConfig :=
  {| enablePublish := false;
     workflowIdForImportedItems := None;
     fixLanguages := true;
     process := None;
     onImport := true;
     onUnsupportedBinaryFile := true |}.

End FixLanguages.

Module UnsetFallback.

(** French, whose fallback language has no codename: the source before the
    codename translation. *)
Definition french : LanguageContract :=
  {| lang_id := "l-fr"; lang_name := "French"; lang_codename := "fr-FR";
     lang_external_id := None; lang_is_active := true; lang_is_default := false;
     lang_fallback_language := Some (Sample.ref defaultLanguageId) |}.

(** German, whose fallback language carries its codename. *)
Definition germanWithFallback : LanguageContract :=
  {| lang_id := "l-de"; lang_name := "German"; lang_codename := "de-DE";
     lang_external_id := None; lang_is_active := true; lang_is_default := false;
     lang_fallback_language :=
       Some {| ref_id := defaultLanguageId; ref_codename := Some "en-US" |} |}.

End UnsetFallback.

Module DuplicateIds.

(** Two content items that share an id; the predicate rejects the one
    named [Copy]. *)
Definition master : ContentItemContract :=
  {| ci_id := "i-1"; ci_name := "Original"; ci_codename := "original";
     ci_external_id := None; ci_type := Sample.ref "t-article" |}.
Definition duplicate : ContentItemContract :=
  {| ci_id := "i-1"; ci_name := "Copy"; ci_codename := "copy";
     ci_external_id := None; ci_type := Sample.ref "t-article" |}.

(** The predicate of the configuration. *)
Definition shouldImport (item : ContentItemContract) : bool :=
  negb (String.eqb (ci_name item) "Copy").

Definition skipCopies : ProcessConfig :=
  {| p_asset := None; p_language := None; p_assetFolder := None;
     p_contentType := None; p_contentItem := Some shouldImport;
     p_contentTypeSnippet := None; p_languageVariant := None;
     p_taxonomy := None |}.

Definition config : ImportConfig :=
  {| enablePublish := false;
     workflowIdForImportedItems := None;
     fixLanguages := false;
     process := Some skipCopies;
     onImport := false;
     onUnsupportedBinaryFile := false |}.

End DuplicateIds.

Module RejectedTaxonomy.

Definition topics : TaxonomyContract :=
  {| tax_id := "x-topics"; tax_name := "Topics"; tax_codename := "topics";
     tax_external_id := None; tax_terms := JArr [] |}.

Definition places : TaxonomyContract :=
  {| tax_id := "x-places"; tax_name := "Places"; tax_codename := "places";
     tax_external_id := None; tax_terms := JArr [] |}.

(** A target that rejects the taxonomy [topics]. *)
Definition client : ManagementClient :=
  {| listLanguages := listLanguages (Sample.acceptingClient Sample.target);
     modifyLanguage := modifyLanguage (Sample.acceptingClient Sample.target);
     addLanguage := addLanguage (Sample.acceptingClient Sample.target);
     addTaxonomy := fun d h =>
       if String.eqb (tax_codename d) "topics" then None
       else addTaxonomy (Sample.acceptingClient Sample.target) d h;
     addContentTypeSnippet :=
       addContentTypeSnippet (Sample.acceptingClient Sample.target);
     addContentType := addContentType (Sample.acceptingClient Sample.target);
     uploadBinaryFile := uploadBinaryFile (Sample.acceptingClient Sample.target);
     addAsset := addAsset (Sample.acceptingClient Sample.target);
     addAssetFolders := addAssetFolders (Sample.acceptingClient Sample.target);
     addContentItem := addContentItem (Sample.acceptingClient Sample.target);
     upsertLanguageVariant :=
       upsertLanguageVariant (Sample.acceptingClient Sample.target);
     publishLanguageVariant :=
       publishLanguageVariant (Sample.acceptingClient Sample.target);
     changeWorkflowStepOfLanguageVariant :=
       changeWorkflowStepOfLanguageVariant (Sample.acceptingClient Sample.target) |}.

End RejectedTaxonomy.

Module RejectedItem.

(** A target that rejects the content item [about]. *)
Definition client : ManagementClient :=
  {| listLanguages := listLanguages (Sample.acceptingClient Sample.target);
     modifyLanguage := modifyLanguage (Sample.acceptingClient Sample.target);
     addLanguage := addLanguage (Sample.acceptingClient Sample.target);
     addTaxonomy := addTaxonomy (Sample.acceptingClient Sample.target);
     addContentTypeSnippet :=
       addContentTypeSnippet (Sample.acceptingClient Sample.target);
     addContentType := addContentType (Sample.acceptingClient Sample.target);
     uploadBinaryFile := uploadBinaryFile (Sample.acceptingClient Sample.target);
     addAsset := addAsset (Sample.acceptingClient Sample.target);
     addAssetFolders := addAssetFolders (Sample.acceptingClient Sample.target);
     addContentItem := fun d h =>
       if String.eqb (acd_codename d) "about" then None
       else addContentItem (Sample.acceptingClient Sample.target) d h;
     upsertLanguageVariant :=
       upsertLanguageVariant (Sample.acceptingClient Sample.target);
     publishLanguageVariant :=
       publishLanguageVariant (Sample.acceptingClient Sample.target);
     changeWorkflowStepOfLanguageVariant :=
       changeWorkflowStepOfLanguageVariant (Sample.acceptingClient Sample.target) |}.

Definition aboutData : AddContentItemData :=
  {| acd_name := "About"; acd_type_codename := "article";
     acd_codename := "about"; acd_external_id := None |}.

End RejectedItem.

Module Notified.

Definition config : ImportConfig :=
  {| enablePublish := true;
     workflowIdForImportedItems := Some "w-review";
     fixLanguages := false;
     process := None;
     onImport := true;
     onUnsupportedBinaryFile := false |}.

End Notified.

(* ================================================================= *)
(** ** Laws of the computations *)

Lemma bind_run : forall A B (m : M A) (f : A -> M B) h,
  bind m f h =
  match m h with
  | (Ok a, e1) => (fst (f a (h ++ e1)), e1 ++ snd (f a (h ++ e1)))
  | (Throw e, e1) => (Throw e, e1)
  end.
Proof.
  intros. unfold bind. destruct (m h) as [[a|e] e1]; [|reflexivity].
  destruct (f a (h ++ e1)); reflexivity.
Qed.

Lemma bind_Ok_inv : forall A B (m : M A) (f : A -> M B) h b events,
  bind m f h = (Ok b, events) ->
  exists a e1 e2,
    m h = (Ok a, e1) /\ f a (h ++ e1) = (Ok b, e2) /\ events = e1 ++ e2.
Proof.
  intros A B m f h b events H. rewrite bind_run in H.
  destruct (m h) as [[a|e] e1]; [|discriminate].
  exists a, e1, (snd (f a (h ++ e1))).
  destruct (f a (h ++ e1)) as [o e2]; simpl in *.
  inversion H; subst. auto.
Qed.

Lemma bind_Ok : forall A B (m : M A) (f : A -> M B) h a e1 o e2,
  m h = (Ok a, e1) -> f a (h ++ e1) = (o, e2) -> bind m f h = (o, e1 ++ e2).
Proof. intros. unfold bind. rewrite H, H0. reflexivity. Qed.

Lemma bind_Throw : forall A B (m : M A) (f : A -> M B) h e e1,
  m h = (Throw e, e1) -> bind m f h = (Throw e, e1).
Proof. intros. unfold bind. rewrite H. reflexivity. Qed.

Lemma bind_ret : forall A B (a : A) (f : A -> M B) h, bind (ret a) f h = f a h.
Proof.
  intros. unfold bind, ret. rewrite app_nil_r. destruct (f a h); reflexivity.
Qed.

Lemma emits_ret : forall A P (a : A), emits P (ret a).
Proof. intros A P a h. constructor. Qed.

Lemma emits_throw : forall A P e, emits P (@throw A e).
Proof. intros A P e h. constructor. Qed.

Lemma emits_lift : forall A P (o : Outcome A), emits P (lift o).
Proof. intros A P o h. constructor. Qed.

Lemma emits_emit : forall (P : Event -> Prop) ev, P ev -> emits P (emit ev).
Proof. intros P ev H h. simpl. auto. Qed.

Lemma emits_request : forall R (P : Event -> Prop) rq (answer : list Event -> option R),
  P (Call rq) -> emits P (request rq answer).
Proof.
  intros R P rq answer H h. unfold request. destruct (answer h); simpl; auto.
Qed.

Lemma emits_bind : forall A B P (m : M A) (f : A -> M B),
  emits P m -> (forall a, emits P (f a)) -> emits P (bind m f).
Proof.
  intros A B P m f Hm Hf h. rewrite bind_run. specialize (Hm h).
  destruct (m h) as [[a|e] e1]; simpl in *; [|assumption].
  apply Forall_app. split; [assumption | apply Hf].
Qed.


(** The routine steps of a proof that a computation only adds events
    with a given property: follow the binds, the loops and the branches. *)
Ltac emits_step :=
  first
    [ apply emits_ret | apply emits_throw | apply emits_lift
    | apply emits_emit; reflexivity
    | apply emits_request; reflexivity
    | apply emits_bind; [|intros ?]
    | match goal with
      | |- emits _ (if ?b then _ else _) => destruct b
      | |- emits _ (match ?x with Some _ => _ | None => _ end) => destruct x
      | |- emits _ (let '(_, _) := ?x in _) => destruct x
      end ].

Lemma emits_forEach : forall A R P (body : A -> M (list R)) xs,
  (forall x, emits P (body x)) -> emits P (forEach body xs).
Proof.
  intros A R P body xs Hbody. induction xs as [|x rest IH]; simpl.
  - apply emits_ret.
  - apply emits_bind; [apply Hbody|]. intros pushed.
    apply emits_bind; [apply IH|]. intros. apply emits_ret.
Qed.

Lemma emits_processItem : forall config (P : Event -> Prop) title type,
  P (OnImport title type) -> emits P (processItem config title type).
Proof.
  intros. unfold processItem. destruct (onImport config).
  - apply emits_emit; assumption.
  - apply emits_ret.
Qed.

Ltac emits_auto :=
  repeat first
    [ emits_step
    | apply emits_processItem; reflexivity
    | apply emits_forEach; intros ? ].

(** *** Each stage only adds events of its own stage *)

Section StageEvents.
Variable core : CoreHelpers.
Variable client : ManagementClient.
Variable config : ImportConfig.

Lemma importAssetFoldersAsync_stage : forall fs,
  emits (inStage SAssetFolders) (importAssetFoldersAsync client config fs).
Proof. intros. unfold importAssetFoldersAsync. emits_auto. Qed.

Lemma fixLanguageAsync_stage : forall current language,
  emits (inStage SLanguages) (fixLanguageAsync client current language).
Proof. intros. unfold fixLanguageAsync. emits_auto. Qed.

Lemma importLanguagesLoop_stage : forall ls current,
  emits (inStage SLanguages) (importLanguagesLoop client config ls current).
Proof.
  induction ls as [|l rest IH]; intros current; simpl;
    emits_auto; try apply fixLanguageAsync_stage; apply IH.
Qed.

Lemma importLanguagesAsync_stage : forall ls,
  emits (inStage SLanguages) (importLanguagesAsync client config ls).
Proof.
  intros. unfold importLanguagesAsync. emits_auto. apply importLanguagesLoop_stage.
Qed.

Lemma importTaxonomiesAsync_stage : forall ts,
  emits (inStage STaxonomies) (importTaxonomiesAsync client config ts).
Proof. intros. unfold importTaxonomiesAsync. emits_auto. Qed.

Lemma importContentTypeSnippetsAsync_stage : forall ts,
  emits (inStage SContentTypeSnippets)
        (importContentTypeSnippetsAsync client config ts).
Proof. intros. unfold importContentTypeSnippetsAsync. emits_auto. Qed.

Lemma importContentTypesAsync_stage : forall ts,
  emits (inStage SContentTypes) (importContentTypesAsync client config ts).
Proof. intros. unfold importContentTypesAsync. emits_auto. Qed.

Lemma importAsset_stage : forall files current asset,
  emits (inStage SAssets) (importAsset core client config files current asset).
Proof. intros. unfold importAsset. emits_auto. Qed.

Lemma importAssetsAsync_stage : forall xs files current,
  emits (inStage SAssets) (importAssetsAsync core client config xs files current).
Proof. intros. apply emits_forEach. intros. apply importAsset_stage. Qed.

Lemma importContentItemAsync_stage : forall xs,
  emits (inStage SContentItems) (importContentItemAsync client config xs).
Proof. intros. unfold importContentItemAsync. emits_auto. Qed.

Lemma variantCodenames_emits : forall P v, emits P (variantCodenames v).
Proof. intros. unfold variantCodenames. emits_auto. Qed.

Lemma importLanguageVariant_stage : forall current v,
  emits (inStage SLanguageVariants)
        (importLanguageVariant core client config current v).
Proof.
  intros. unfold importLanguageVariant.
  apply emits_bind; [apply variantCodenames_emits|]. intros [ic lc]. emits_auto.
Qed.

Lemma importLanguageVariantsAsync_stage : forall vs current,
  emits (inStage SLanguageVariants)
        (importLanguageVariantsAsync core client config vs current).
Proof.
  induction vs as [|v rest IH]; intros current; simpl; [apply emits_ret|].
  apply emits_bind; [apply importLanguageVariant_stage|]. intros.
  apply emits_bind; [apply IH|]. intros. apply emits_ret.
Qed.

Lemma publishLoop_stage : forall vs,
  emits (inStage SPublish) (publishLoop client config vs).
Proof.
  induction vs as [|v rest IH]; simpl; [apply emits_ret|].
  apply emits_bind; [apply variantCodenames_emits|]. intros [ic lc].
  emits_auto. apply IH.
Qed.

Lemma publishLanguageVariantsAsync_stage : forall vs steps,
  emits (inStage SPublish) (publishLanguageVariantsAsync client config vs steps).
Proof.
  intros. unfold publishLanguageVariantsAsync.
  destruct (getPublishedWorkflowStep steps); [apply publishLoop_stage|apply emits_ret].
Qed.

Lemma moveLanguageVariants_stage : forall id vs,
  emits (inStage SChangeWorkflowStep)
        (moveLanguageVariantsToCustomWorkflowStepAsync client config id vs).
Proof.
  induction vs as [|v rest IH]; simpl; [apply emits_ret|].
  apply emits_bind; [apply variantCodenames_emits|]. intros [ic lc].
  emits_auto. apply IH.
Qed.
End StageEvents.

(** *** Stage order of a log *)











(** *** Loops *)

Lemma calls_app : forall e1 e2, calls (e1 ++ e2) = calls e1 ++ calls e2.
Proof. intros. apply flat_map_app. Qed.

Lemma in_calls : forall r events, In r (calls events) <-> In (Call r) events.
Proof.
  intros r events. unfold calls. rewrite in_flat_map. split.
  - intros [e [He Hr]]. destruct e; simpl in Hr; try contradiction.
    destruct Hr as [->|[]]. assumption.
  - intros H. exists (Call r). simpl. auto.
Qed.

Lemma forEach_app : forall A R (body : A -> M (list R)) xs ys h,
  forEach body (xs ++ ys) h =
  match forEach body xs h with
  | (Ok r1, e1) =>
      match forEach body ys (h ++ e1) with
      | (Ok r2, e2) => (Ok (r1 ++ r2), e1 ++ e2)
      | (Throw e, e2) => (Throw e, e1 ++ e2)
      end
  | (Throw e, e1) => (Throw e, e1)
  end.
Proof.
  intros A R body xs ys. induction xs as [|x rest IH]; intros h; simpl.
  - rewrite app_nil_r.
    destruct (forEach body ys h) as [[r2|e] e2]; reflexivity.
  - rewrite !bind_run. destruct (body x h) as [[r|e] e1]; [|reflexivity].
    rewrite !bind_run. rewrite IH.
    destruct (forEach body rest (h ++ e1)) as [[r1|e] e2]; simpl; [|reflexivity].
    rewrite ?app_nil_r, <- ?app_assoc.
    destruct (forEach body ys (h ++ e1 ++ e2)) as [[r2|e] e3]; simpl;
      rewrite ?app_nil_r, <- ?app_assoc; reflexivity.
Qed.

Lemma forEach_cons_Ok_inv : forall A R (body : A -> M (list R)) x rest h rs events,
  forEach body (x :: rest) h = (Ok rs, events) ->
  exists r1 e1 r2 e2,
    body x h = (Ok r1, e1) /\ forEach body rest (h ++ e1) = (Ok r2, e2) /\
    rs = r1 ++ r2 /\ events = e1 ++ e2.
Proof.
  intros A R body x rest h rs events H. simpl in H.
  apply bind_Ok_inv in H. destruct H as (r1 & e1 & e' & H1 & H & ->).
  apply bind_Ok_inv in H. destruct H as (r2 & e2 & e3 & H2 & H & ->).
  unfold ret in H. inversion H; subst.
  exists r1, e1, r2, e2. rewrite app_nil_r. auto.
Qed.

(** What a loop that ran to its end answers and logs, from what each
    round answers and logs. *)
Lemma forEach_Ok_inv : forall A R B C (body : A -> M (list R))
    (key : A -> C) (orig : R -> C) (g : Event -> list B) (pe : A -> list B),
  (forall x h r e, body x h = (Ok r, e) ->
     map orig r = [key x] /\ flat_map g e = pe x) ->
  forall xs h rs events, forEach body xs h = (Ok rs, events) ->
    map orig rs = map key xs /\ flat_map g events = flat_map pe xs.
Proof.
  intros A R B C body key orig g pe Hbody.
  induction xs as [|x rest IH]; intros h rs events H.
  - simpl in H. unfold ret in H. inversion H; subst. auto.
  - apply forEach_cons_Ok_inv in H.
    destruct H as (r1 & e1 & r2 & e2 & H1 & H2 & -> & ->).
    apply Hbody in H1. destruct H1 as [Hr He].
    apply IH in H2. destruct H2 as [Hr2 He2].
    rewrite map_app, flat_map_app, Hr, He, Hr2, He2. auto.
Qed.

(** A loop whose rounds all run to their end runs to its end. *)
Lemma forEach_Ok_intro : forall A R (body : A -> M (list R)) xs,
  (forall x h, In x xs -> isThrow (fst (body x h)) = false) ->
  forall h, isThrow (fst (forEach body xs h)) = false.
Proof.
  intros A R body. induction xs as [|x rest IH]; intros Hbody h; simpl.
  - reflexivity.
  - rewrite bind_run. specialize (Hbody x h (or_introl eq_refl)) as Hx.
    destruct (body x h) as [[r|e] e1]; simpl in *; [|discriminate].
    rewrite bind_run.
    assert (Hrest : isThrow (fst (forEach body rest (h ++ e1))) = false).
    { apply IH. intros y h' Hy. apply Hbody. right. assumption. }
    destruct (forEach body rest (h ++ e1)) as [[r2|e] e2]; simpl in *;
      [reflexivity|discriminate].
Qed.

Lemma emits_bind_post : forall A B P (m : M A) (f : A -> M B),
  emits P m ->
  (forall h a e1, m h = (Ok a, e1) -> emits P (f a)) ->
  emits P (bind m f).
Proof.
  intros A B P m f Hm Hf h. rewrite bind_run. specialize (Hm h).
  destruct (m h) as [[a|e] e1] eqn:E; simpl in *; [|assumption].
  apply Forall_app. split; [assumption|]. eapply Hf. eassumption.
Qed.

(** The language-variant loop answers one entry for each variant, and the
    variants as the id helper rewrote them. *)
Lemma importLanguageVariantsAsync_Ok : forall core client config vs current h done events,
  importLanguageVariantsAsync core client config vs current h = (Ok done, events) ->
  map (fun r => original r) (fst done) = snd done /\
  snd done = map (fun v => newIds_languageVariant core v current) vs.
Proof.
  intros core client config. induction vs as [|v rest IH];
    intros current h done events H; simpl in H.
  - unfold ret in H. inversion H; subst. auto.
  - apply bind_Ok_inv in H. destruct H as ([r v'] & e1 & e' & H1 & H & ->).
    apply bind_Ok_inv in H. destruct H as (more & e2 & e3 & H2 & H & ->).
    unfold ret in H. inversion H; subst. simpl.
    apply IH in H2. destruct H2 as [Ho Hs].
    unfold importLanguageVariant in H1.
    apply bind_Ok_inv in H1. destruct H1 as ([ic lc] & ? & ? & _ & H1 & _).
    apply bind_Ok_inv in H1. destruct H1 as (resp & ? & ? & _ & H1 & _).
    apply bind_Ok_inv in H1. destruct H1 as (? & ? & ? & _ & H1 & _).
    unfold ret in H1. inversion H1; subst. simpl.
    rewrite Ho, Hs. auto.
Qed.

(** *** The run, stage by stage *)

Section Run.
Variable core : CoreHelpers.
Variable client : ManagementClient.
Variable config : ImportConfig.
Variable sourceData : ImportSource.




Lemma guarded_Ok_inv : forall A R T (collection : list A) (stage : M (list R))
    (k : list R -> list T) (acc : list T) h items e,
  (match collection with
   | _ :: _ => bind stage (fun r => ret (acc ++ k r))
   | [] => ret acc
   end) h = (Ok items, e) ->
  k [] = [] ->
  exists r, guardedRun collection stage h r e /\ items = acc ++ k r.
Proof.
  intros A R T collection stage k acc h items e H Hk.
  destruct collection as [|x rest].
  - unfold ret in H. inversion H; subst. exists []. simpl.
    rewrite Hk, app_nil_r. auto.
  - apply bind_Ok_inv in H. destruct H as (r & e1 & e2 & H1 & H2 & ->).
    unfold ret in H2. inversion H2; subst. exists r. simpl.
    rewrite app_nil_r. auto.
Qed.

Lemma importStages_Ok_inv : forall h rs events,
  importStages core client config sourceData h = (Ok rs, events) ->
  exists s, stagesRan core client config sourceData h s
              /\ rs = resultsOf s /\ events = eventsOf s.
Proof.
  intros h rs events H. unfold importStages in H.
  apply bind_Ok_inv in H. destruct H as (i0 & ef & q1 & H0 & H & ->).
  apply (@guarded_Ok_inv _ _ _ _ _ (map (widen CAssetFolder MAssetFolder)) [])
    in H0; [|reflexivity].
  destruct H0 as (rf & Hf & ->).
  apply bind_Ok_inv in H. destruct H as (i1 & el & q2 & H1 & H & ->).
  apply (@guarded_Ok_inv _ _ _ _ _ (map (widen CLanguage MLanguage))) in H1;
    [|reflexivity].
  destruct H1 as (rl & Hl & ->).
  apply bind_Ok_inv in H. destruct H as (i2 & et & q3 & H2 & H & ->).
  apply (@guarded_Ok_inv _ _ _ _ _ (map (widen CTaxonomy MTaxonomy))) in H2;
    [|reflexivity].
  destruct H2 as (rt & Ht & ->).
  apply bind_Ok_inv in H. destruct H as ([] & en & q4 & H3 & H & ->).
  assert (exists rn h', guardedRun (contentTypeSnippets (importData sourceData))
            (importContentTypeSnippetsAsync client config
               (contentTypeSnippets (importData sourceData)))
            h' rn en) as (rn & hn & Hn).
  { destruct (contentTypeSnippets (importData sourceData)).
    - unfold ret in H3. inversion H3; subst. exists [], []. simpl. auto.
    - apply bind_Ok_inv in H3. destruct H3 as (rn & e1 & e2 & H3 & H3' & ->).
      unfold ret in H3'. inversion H3'; subst. rewrite app_nil_r.
      eexists _, _. simpl. eassumption. }
  apply bind_Ok_inv in H. destruct H as ([] & ec & q5 & H4 & H & ->).
  assert (exists rc h', guardedRun (contentTypes (importData sourceData))
            (importContentTypesAsync client config
               (contentTypes (importData sourceData)))
            h' rc ec) as (rc & hc & Hc).
  { destruct (contentTypes (importData sourceData)).
    - unfold ret in H4. inversion H4; subst. exists [], []. simpl. auto.
    - apply bind_Ok_inv in H4. destruct H4 as (rc & e1 & e2 & H4 & H4' & ->).
      unfold ret in H4'. inversion H4'; subst. rewrite app_nil_r.
      eexists _, _. simpl. eassumption. }
  apply bind_Ok_inv in H. destruct H as (i3 & ea & q6 & H5 & H & ->).
  apply (@guarded_Ok_inv _ _ _ _ _ (map (widen CAsset MAsset))) in H5;
    [|reflexivity].
  destruct H5 as (ra & Ha & ->).
  apply bind_Ok_inv in H. destruct H as (i4 & ei & q7 & H6 & H & ->).
  apply (@guarded_Ok_inv _ _ _ _ _ (map (widen CContentItem MContentItem)))
    in H6; [|reflexivity].
  destruct H6 as (ri & Hi & ->).
  apply bind_Ok_inv in H. destruct H as ([rv va] & ev & q8 & H7 & H & ->).
  apply bind_Ok_inv in H. destruct H as ([] & ep & q9 & H8 & H & ->).
  apply bind_Ok_inv in H. destruct H as ([] & ew & q10 & H9 & H & ->).
  unfold ret in H. inversion H; subst. simpl in *.
  exists {| r_folders := rf; e_folders := ef;
            r_languages := rl; e_languages := el;
            r_taxonomies := rt; e_taxonomies := et;
            r_snippets := rn; e_snippets := en;
            r_types := rc; e_types := ec;
            r_assets := ra; e_assets := ea;
            r_items := ri; e_items := ei;
            r_variants := rv; variants_after := va; e_variants := ev;
            e_publish := ep; e_workflow := ew |}.
  unfold stagesRan, resultsOf, eventsOf, itemsBeforeVariants, itemsBeforeAssets.
  simpl. rewrite <- !app_assoc in *. rewrite ?app_nil_r.
  repeat split; eauto.
Qed.
End Run.

(** *** What each stage answers and asks when it runs to its end *)

Lemma request_Ok_inv : forall R rq (answer : list Event -> option R) h r e,
  request rq answer h = (Ok r, e) -> answer h = Some r /\ e = [Call rq].
Proof.
  intros R rq answer h r e H. unfold request in H.
  destruct (answer h); inversion H; subst; auto.
Qed.

Lemma processItem_run : forall config title type h,
  processItem config title type h
  = (Ok tt, if onImport config then [OnImport title type] else []).
Proof. intros. unfold processItem. destruct (onImport config); reflexivity. Qed.

Lemma processItem_Ok_inv : forall config title type h u e,
  processItem config title type h = (Ok u, e) -> calls e = [].
Proof.
  intros config title type h u e H. rewrite processItem_run in H.
  inversion H; subst. destruct (onImport config); reflexivity.
Qed.


Section StageAnswers.
Variable core : CoreHelpers.
Variable client : ManagementClient.
Variable config : ImportConfig.

(** A round made of one request, the callback and the push. *)
Lemma simple_round : forall Resp T rq (answer : list Event -> option Resp)
    (title : Resp -> string) type (entry : Resp -> T) h (r : list T) e,
  (response <- request rq answer ;;
   processItem config (title response) type ;;;
   ret [entry response]) h = (Ok r, e) ->
  exists response, answer h = Some response /\ r = [entry response]
                   /\ calls e = [rq].
Proof.
  intros Resp T rq answer title type entry h r e H.
  apply bind_Ok_inv in H. destruct H as (resp & e1 & e2 & H1 & H & ->).
  apply request_Ok_inv in H1. destruct H1 as [Ha ->].
  apply bind_Ok_inv in H. destruct H as (u & e3 & e4 & H2 & H & ->).
  apply processItem_Ok_inv in H2.
  unfold ret in H. inversion H; subst.
  exists resp. rewrite !calls_app, H2. auto.
Qed.




End StageAnswers.

(** *** A stage that has input and runs to its end sends a request *)

Section StageRan.
Variable core : CoreHelpers.
Variable client : ManagementClient.
Variable config : ImportConfig.









Lemma variantCodenames_Ok_inv : forall v h ic lc e,
  variantCodenames v h = (Ok (ic, lc), e) ->
  truthy (ref_codename (lv_item v)) = Some ic /\
  truthy (ref_codename (lv_language v)) = Some lc /\ e = [].
Proof.
  intros v h ic lc e H. unfold variantCodenames in H.
  destruct (truthy (ref_codename (lv_item v))); [|discriminate].
  destruct (truthy (ref_codename (lv_language v))); [|discriminate].
  unfold ret in H. inversion H; subst. auto.
Qed.

End StageRan.


(* ================================================================= *)
(** ** C1: the stages run in the fixed order, and an empty stage is skipped *)



(* ================================================================= *)
(** ** Removing the skipped items *)

(** What the loop keeps: an item stays when no rejected item of the
    collection throws it out. *)
Lemma removeSkipped_filter : forall A (shouldImport : A -> bool)
    (keeps : A -> A -> bool) items current,
  fold_left
    (fun current item =>
       if shouldImport item then current
       else filter (fun m => keeps item m) current)
    items current
  = filter (fun m => forallb (fun item => shouldImport item || keeps item m) items)
           current.
Proof.
  intros A shouldImport keeps. induction items as [|item rest IH]; intros current.
  - simpl. induction current as [|m l IHl]; simpl; congruence.
  - simpl. rewrite IH. destruct (shouldImport item) eqn:E; simpl.
    + reflexivity.
    + clear. induction current as [|m l IHl]; simpl; [reflexivity|].
      destruct (keeps item m); simpl; rewrite IHl; reflexivity.
Qed.

Lemma removeSkipped_incl : forall A (shouldImport : A -> bool)
    (keeps : A -> A -> bool) collection,
  incl (removeSkipped shouldImport keeps collection) collection.
Proof.
  intros. unfold removeSkipped. rewrite removeSkipped_filter.
  intros x Hx. apply filter_In in Hx. tauto.
Qed.

(** With pairwise distinct ids the loop over a collection filtered by id is
    the plain filter by the predicate. *)
Lemma removeSkipped_by_id : forall A (id : A -> string) (shouldImport : A -> bool)
    collection,
  NoDup (map id collection) ->
  removeSkipped shouldImport (otherId id) collection = filter shouldImport collection.
Proof.
  intros A id shouldImport collection Hnd. unfold removeSkipped.
  rewrite removeSkipped_filter. apply filter_ext_in. intros m Hm.
  destruct (shouldImport m) eqn:Em.
  - apply forallb_forall. intros item Hitem.
    destruct (shouldImport item) eqn:Ei; [reflexivity|]. simpl.
    unfold otherId. destruct (String.eqb (id m) (id item)) eqn:Eid; [|reflexivity].
    apply String.eqb_eq in Eid.
    assert (m = item).
    { clear - Hnd Hm Hitem Eid. induction collection as [|x l IH]; [destruct Hm|].
      simpl in Hnd. inversion Hnd as [|? ? Hx Hl]; subst.
      destruct Hm as [->|Hm], Hitem as [->|Hitem]; auto.
      - exfalso. apply Hx. rewrite Eid. apply in_map. assumption.
      - exfalso. apply Hx. rewrite <- Eid. apply in_map. assumption. }
    subst. congruence.
  - apply not_true_is_false. intros Hall.
    rewrite forallb_forall in Hall. specialize (Hall m Hm).
    rewrite Em in Hall. simpl in Hall. unfold otherId in Hall.
    rewrite String.eqb_refl in Hall. discriminate.
Qed.

(* ================================================================= *)
(** ** C3: the ids are translated before the skipped items are removed *)

(** C3, as stated, fails: with the helpers of the specification, a skipped
    content type still gives its codename to the item that refers to it,
    and the item is created; had the skipped items been removed first, the
    item would have no type codename and the run would throw. *)
Lemma importAsync_not_filter_then_translate :
  let client := Sample.acceptingClient Sample.target in
  let source := PreparationOrder.source in
  let config := PreparationOrder.config in
  removeSkippedItemsFromImport config (translateIds SpecCore.core source)
  <> PreparationOrder.filterThenTranslate SpecCore.core config source /\
  importAsync SpecCore.core client config source []
  <> importStages SpecCore.core client config
       (PreparationOrder.filterThenTranslate SpecCore.core config source) [] /\
  calls (snd (importAsync SpecCore.core client config source []))
  = [AddContentItem {| acd_name := "Home"; acd_type_codename := "article";
                       acd_codename := "home"; acd_external_id := None |}] /\
  importStages SpecCore.core client config
    (PreparationOrder.filterThenTranslate SpecCore.core config source) []
  = (Throw (UnsetTypeCodename "home"), []).
Proof.
  cbv zeta. repeat split.
  - intros H. apply (f_equal (fun s => contentItems (importData s))) in H.
    vm_compute in H. discriminate H.
  - intros H. apply (f_equal (fun r => isThrow (fst r))) in H.
    vm_compute in H. discriminate H.
Qed.

(** C3, amended.  [importAsync] prepares the source by translating the ids
    first and removing the skipped items second: the run is the run of the
    stages on [removeSkippedItemsFromImport (translateIds source)].  So the
    predicates of the configuration see translated entities, and each
    prepared collection is a part of the translated collection. *)
Theorem importAsync_translates_then_filters :
  forall core client config sourceData h,
    let translated := translateIds core sourceData in
    let prepared := removeSkippedItemsFromImport config translated in
    importAsync core client config sourceData h
    = importStages core client config prepared h /\
    incl (languages (importData prepared)) (languages (importData translated)) /\
    incl (taxonomies (importData prepared)) (taxonomies (importData translated)) /\
    incl (contentTypeSnippets (importData prepared))
         (contentTypeSnippets (importData translated)) /\
    incl (contentTypes (importData prepared)) (contentTypes (importData translated)) /\
    incl (assets (importData prepared)) (assets (importData translated)) /\
    incl (contentItems (importData prepared)) (contentItems (importData translated)) /\
    incl (languageVariants (importData prepared))
         (languageVariants (importData translated)) /\
    incl (assetFolders prepared) (assetFolders translated).
Proof.
  intros core client config sourceData h translated prepared.
  split; [reflexivity|].
  assert (Hincl : forall A (pr : ProcessConfig -> option (A -> bool)) keeps l,
             incl (removeSkippedOf config pr keeps l) l).
  { intros A pr keeps l. unfold removeSkippedOf.
    destruct (process config) as [p|]; [|apply incl_refl].
    destruct (pr p); [apply removeSkipped_incl|apply incl_refl]. }
  subst prepared. simpl. repeat split; apply Hincl.
Qed.

(* ================================================================= *)
(** ** C4: what the filter of each kind keeps *)

(** For the kinds filtered by id, and pairwise distinct ids, the prepared
    collection holds exactly the entities the predicate accepts. *)
Lemma removeSkippedOf_by_id : forall A config
    (predicate : ProcessConfig -> option (A -> bool)) (id : A -> string) collection,
  NoDup (map id collection) ->
  removeSkippedOf config predicate (otherId id) collection
  = match process config with
    | Some p =>
        match predicate p with
        | Some shouldImport => filter shouldImport collection
        | None => collection
        end
    | None => collection
    end.
Proof.
  intros A config predicate id collection Hnd. unfold removeSkippedOf.
  destruct (process config) as [p|]; [|reflexivity].
  destruct (predicate p); [|reflexivity].
  apply removeSkipped_by_id. assumption.
Qed.

(** The example of the claim: only [process.contentItem] is set, and it
    rejects the item with id [abc] only.  The content items are then the
    original ones without that item, and no other collection changes. *)
Lemma removeSkipped_contentItem_abc : forall source shouldImport,
  NoDup (map ci_id (contentItems (importData source))) ->
  (forall item, shouldImport item = negb (String.eqb (ci_id item) "abc")) ->
  let config :=
    {| enablePublish := false; workflowIdForImportedItems := None;
       fixLanguages := false;
       process := Some {| p_asset := None; p_language := None;
                          p_assetFolder := None; p_contentType := None;
                          p_contentItem := Some shouldImport;
                          p_contentTypeSnippet := None;
                          p_languageVariant := None; p_taxonomy := None |};
       onImport := false; onUnsupportedBinaryFile := false |} in
  let d := importData source in
  removeSkippedItemsFromImport config source
  = {| importData :=
         {| languages := languages d; taxonomies := taxonomies d;
            contentTypeSnippets := contentTypeSnippets d;
            contentTypes := contentTypes d; assets := assets d;
            contentItems :=
              filter (fun item => negb (String.eqb (ci_id item) "abc"))
                     (contentItems d);
            languageVariants := languageVariants d;
            workflowSteps := workflowSteps d |};
       assetFolders := assetFolders source;
       binaryFiles := binaryFiles source |}.
Proof.
  intros source shouldImport Hnd Hp config d.
  unfold removeSkippedItemsFromImport. fold d.
  unfold removeSkippedOf at 1 2 3 4 5 7 8. simpl.
  rewrite removeSkippedOf_by_id by assumption. simpl.
  do 2 f_equal. apply filter_ext. assumption.
Qed.

(* ================================================================= *)
(** ** C5: the codename of the default language does not match *)

Lemma bind_throws : forall A B (m : M A) (f : A -> M B) h,
  isThrow (fst (m h)) = true ->
  isThrow (fst (bind m f h)) = true /\ snd (bind m f h) = snd (m h).
Proof.
  intros A B m f h H. rewrite bind_run.
  destruct (m h) as [[a|e] e1]; simpl in *; [discriminate|auto].
Qed.

Lemma bind_throws_later : forall A B (m : M A) (f : A -> M B) h,
  (forall a h', isThrow (fst (f a h')) = true) ->
  isThrow (fst (bind m f h)) = true.
Proof.
  intros A B m f h H. rewrite bind_run.
  destruct (m h) as [[a|e] e1]; simpl; [apply H|reflexivity].
Qed.

Lemma tryGetLanguage_mismatch : forall currentLanguages importLanguage,
  lang_id importLanguage = defaultLanguageId ->
  defaultNamedOtherwise (lang_codename importLanguage) currentLanguages ->
  exists target,
    tryGetLanguage currentLanguages importLanguage
    = Throw (DefaultLanguageCodenameMismatch (lang_codename importLanguage) target)
    /\ target <> lang_codename importLanguage.
Proof.
  intros tl l Hid [[d [Hd Hdid]] Hnone]. unfold tryGetLanguage.
  destruct (find (fun m => String.eqb (lm_codename m) (lang_codename l)) tl)
    as [m|] eqn:Ec.
  { apply find_some in Ec. destruct Ec as [Hm Hc].
    apply String.eqb_eq in Hc. exfalso. eapply Hnone; eassumption. }
  rewrite Hid, String.eqb_refl.
  destruct (find (fun m => String.eqb (lm_id m) defaultLanguageId) tl)
    as [d'|] eqn:Ed.
  - apply find_some in Ed. destruct Ed as [Hd' _].
    specialize (Hnone d' Hd').
    destruct (String.eqb (lm_codename d') (lang_codename l)) eqn:E.
    + apply String.eqb_eq in E. contradiction.
    + simpl. exists (lm_codename d'). auto.
  - exfalso. eapply find_none in Ed; [|exact Hd].
    simpl in Ed. rewrite Hdid, String.eqb_refl in Ed. discriminate.
Qed.

Section DefaultLanguageMismatch.
Variable core : CoreHelpers.
Variable client : ManagementClient.
Variable config : ImportConfig.
Hypothesis noFix : fixLanguages config = false.

Lemma importLanguagesLoop_throws : forall ls current l,
  In l ls ->
  isThrow (match tryGetLanguage current l with Ok _ => Ok tt | Throw e => Throw e end)
  = true ->
  forall h, isThrow (fst (importLanguagesLoop client config ls current h)) = true.
Proof.
  induction ls as [|x rest IH]; intros current l Hin Hl h; [destruct Hin|].
  simpl. rewrite noFix. rewrite bind_ret.
  destruct Hin as [->|Hin].
  - destruct (tryGetLanguage current l) as [d|e]; [discriminate|].
    apply bind_throws. reflexivity.
  - rewrite bind_run. unfold lift.
    destruct (tryGetLanguage current x) as [[data|]|e]; simpl; [| |reflexivity].
    + apply bind_throws_later. intros response h1.
      apply bind_throws_later. intros u h2.
      apply bind_throws. eapply IH; eassumption.
    + eapply IH; eassumption.
Qed.

Lemma importLanguagesAsync_throws : forall ls l,
  In l ls -> lang_id l = defaultLanguageId ->
  (forall h current, listLanguages client h = Some current ->
     defaultNamedOtherwise (lang_codename l) current) ->
  forall h, isThrow (fst (importLanguagesAsync client config ls h)) = true.
Proof.
  intros ls l Hin Hid Htarget h. unfold importLanguagesAsync.
  rewrite bind_run. unfold request at 1.
  destruct (listLanguages client h) as [current|] eqn:E; simpl; [|reflexivity].
  eapply importLanguagesLoop_throws; [exact Hin|].
  destruct (@tryGetLanguage_mismatch current l Hid (Htarget _ _ E)) as [t [-> _]].
  reflexivity.
Qed.
End DefaultLanguageMismatch.

Lemma emits_stage_guarded : forall A R T s (collection : list A) (stage : M (list R))
    (k : list R -> list T) (acc : list T),
  emits (inStage s) stage ->
  emits (inStage s)
    (match collection with
     | _ :: _ => bind stage (fun r => ret (k r))
     | [] => ret acc
     end).
Proof.
  intros. destruct collection; [apply emits_ret|].
  apply emits_bind; [assumption|intros; apply emits_ret].
Qed.

(** C5, as stated, fails: the source names its default language [en-US], the
    target [en-GB], no target language is named [en-US] and the fix mode is
    off; the run throws the mismatch error, but the asset folders, whose
    stage comes first, have been sent to the target before. *)
Lemma importAsync_mismatch_after_asset_folders :
  let client := Sample.acceptingClient MismatchedDefault.target in
  let run := importAsync SpecCore.core client Sample.config Sample.source [] in
  fixLanguages Sample.config = false /\
  In Sample.english (languages (importData Sample.source)) /\
  lang_id Sample.english = defaultLanguageId /\
  lang_codename Sample.english = "en-US" /\
  defaultNamedOtherwise "en-US" MismatchedDefault.target /\
  fst run = Throw (DefaultLanguageCodenameMismatch "en-US" "en-GB") /\
  exists folders,
    In (Call (AddAssetFolders folders)) (snd run) /\
    stageOfRequest (AddAssetFolders folders) <> SLanguages.
Proof.
  cbv zeta. split; [reflexivity|]. split; [left; reflexivity|].
  split; [reflexivity|]. split; [reflexivity|]. split.
  { split.
    - eexists. split; [left; reflexivity|reflexivity].
    - intros m [<-|[]]. simpl. discriminate. }
  split; [vm_compute; reflexivity|].
  eexists. split; [vm_compute; left; reflexivity|discriminate].
Qed.

(** C5, amended.  If the prepared source holds a language with the sentinel
    id of the default language, every answer of the target to
    [listLanguages] has a default language and no language with the codename
    of that source language, and the fix mode is off, then the run throws
    and no stage after the languages stage has run: every event of the run
    belongs to the asset-folder stage, which comes first, or to the
    languages stage; without asset folders, to the languages stage only. *)
Theorem importAsync_default_language_mismatch :
  forall core client config sourceData h l,
    let prepared :=
      removeSkippedItemsFromImport config (translateIds core sourceData) in
    let run := importAsync core client config sourceData h in
    fixLanguages config = false ->
    In l (languages (importData prepared)) ->
    lang_id l = defaultLanguageId ->
    (forall h' current, listLanguages client h' = Some current ->
       defaultNamedOtherwise (lang_codename l) current) ->
    isThrow (fst run) = true /\
    Forall (fun e => stageOf e = SAssetFolders \/ stageOf e = SLanguages) (snd run) /\
    (assetFolders prepared = [] ->
     Forall (fun e => stageOf e = SLanguages) (snd run)).
Proof.
  intros core client config sourceData h l prepared run Hfix Hin Hid Htarget.
  subst run. unfold importAsync. fold prepared. clearbody prepared.
  unfold importStages. rewrite bind_run.
  pose proof (@emits_stage_guarded _ _ _ SAssetFolders (assetFolders prepared)
                (importAssetFoldersAsync client config (assetFolders prepared))
                (fun r => [] ++ map (widen CAssetFolder MAssetFolder) r) []
                (importAssetFoldersAsync_stage client config _) h) as Hfolders.
  cbv beta in Hfolders.
  pose proof (@emits_stage_guarded _ _ ValidResult SLanguages
                (languages (importData prepared))
                (importLanguagesAsync client config (languages (importData prepared))))
    as Hlanguages.
  destruct (match assetFolders prepared with
            | [] => ret []
            | _ :: _ => _
            end h) as [[items0|e] ef] eqn:Ef; simpl in *.
  - match goal with
    | |- context [bind ?m ?k (h ++ ef)] =>
        destruct (@bind_throws _ _ m k (h ++ ef)) as [Ht Hs]
    end.
    { destruct (languages (importData prepared)) as [|x rest] eqn:El;
        [destruct Hin|].
      apply bind_throws. rewrite <- El in *.
      eapply importLanguagesAsync_throws; eassumption. }
    rewrite Ht, Hs. split; [reflexivity|].
    specialize (Hlanguages (fun r => items0 ++ map (widen CLanguage MLanguage) r)
                           items0 (importLanguagesAsync_stage client config _)
                           (h ++ ef)).
    split.
    + apply Forall_app. split.
      * eapply Forall_impl; [|exact Hfolders]. intros a Ha. left. exact Ha.
      * eapply Forall_impl; [|exact Hlanguages]. intros a Ha. right. exact Ha.
    + intros Hnone. rewrite Hnone in Ef. unfold ret in Ef. inversion Ef; subst.
      simpl. exact Hlanguages.
  - split; [reflexivity|]. split.
    + eapply Forall_impl; [|exact Hfolders]. intros a Ha. left. exact Ha.
    + intros Hnone. rewrite Hnone in Ef. discriminate Ef.
Qed.

(** C5 on the sample project without asset folders, against the target
    whose default language is [en-GB]. *)
Lemma importAsync_default_language_mismatch_witness :
  let source :=
    {| importData := importData Sample.source;
       assetFolders := [];
       binaryFiles := binaryFiles Sample.source |} in
  let run :=
    importAsync SpecCore.core (Sample.acceptingClient MismatchedDefault.target)
      Sample.config source [] in
  isThrow (fst run) = true /\
  Forall (fun e => stageOf e = SLanguages) (snd run).
Proof.
  cbv zeta.
  destruct (@importAsync_default_language_mismatch SpecCore.core
              (Sample.acceptingClient MismatchedDefault.target) Sample.config
              {| importData := importData Sample.source;
                 assetFolders := [];
                 binaryFiles := binaryFiles Sample.source |}
              []
              {| lang_id := defaultLanguageId; lang_name := "English";
                 lang_codename := "en-US"; lang_external_id := None;
                 lang_is_active := true; lang_is_default := true;
                 lang_fallback_language :=
                   Some {| ref_id := EmptyString;
                           ref_codename := Some "en-US" |} |})
    as (Hthrow & _ & Honly).
  - reflexivity.
  - vm_compute. left. reflexivity.
  - reflexivity.
  - intros h' current Hcurrent. simpl in Hcurrent. inversion Hcurrent; subst.
    split.
    + eexists. split; [left; reflexivity|reflexivity].
    + intros m [<-|[]]. simpl. discriminate.
  - split; [exact Hthrow|]. apply Honly. reflexivity.
Defined.

(* ================================================================= *)
(** ** C6: asset folders *)

(** Two flattenings that agree on every child agree on the children. *)
Lemma flat_map_map_children : forall A B C (t : A -> B) (flatA : A -> list A)
    (flatB : B -> list B) (p : B -> C) (q : A -> C) l,
  Forall (fun x => map p (flatB (t x)) = map q (flatA x)) l ->
  map p (flat_map flatB (map t l)) = map q (flat_map flatA l).
Proof.
  intros A B C t flatA flatB p q l H. induction H as [|x l Hx Hl IH]; simpl.
  - reflexivity.
  - rewrite !map_app, Hx, IH. reflexivity.
Qed.

(** Before the request every node carries its own id as external id, in
    the source and in the request. *)
Lemma setExternalIdForFolder_ids : forall f,
  map afc_id (flattenAssetFolderContract (setExternalIdForFolder f))
  = map afc_id (flattenAssetFolderContract f) /\
  map afc_external_id (flattenAssetFolderContract (setExternalIdForFolder f))
  = map (fun m => Some (afc_id m)) (flattenAssetFolderContract f) /\
  map afd_external_id
      (flattenAddAssetFolderData (mapAssetFolder (setExternalIdForFolder f)))
  = map (fun m => Some (afc_id m)) (flattenAssetFolderContract f).
Proof.
  induction f as [id name external_id folders IH] using AssetFolderContract_tree_ind.
  simpl. repeat split; f_equal.
  - apply flat_map_map_children.
    eapply Forall_impl; [|exact IH]. intros a Ha. apply Ha.
  - apply flat_map_map_children.
    eapply Forall_impl; [|exact IH]. intros a Ha. apply Ha.
  - rewrite map_map. apply flat_map_map_children.
    eapply Forall_impl; [|exact IH]. intros a Ha. apply Ha.
Qed.

Lemma setExternalIdForFolders_ids : forall fs,
  map afc_id (flattenAssetFolderContracts (setExternalIdForFolders fs))
  = map afc_id (flattenAssetFolderContracts fs) /\
  map afc_external_id (flattenAssetFolderContracts (setExternalIdForFolders fs))
  = map (fun m => Some (afc_id m)) (flattenAssetFolderContracts fs) /\
  map afd_external_id
      (flat_map flattenAddAssetFolderData
         (map mapAssetFolder (setExternalIdForFolders fs)))
  = map (fun m => Some (afc_id m)) (flattenAssetFolderContracts fs).
Proof.
  intros fs. unfold flattenAssetFolderContracts, setExternalIdForFolders.
  induction fs as [|f rest IH]; simpl; [auto|].
  destruct IH as (I1 & I2 & I3).
  destruct (setExternalIdForFolder_ids f) as (F1 & F2 & F3).
  rewrite !map_app, F1, F2, F3, I1, I2, I3. auto.
Qed.

(** *** Matching the answered folders against the original ones *)

Lemma foldOutcome_app : forall A S (f : A -> S -> Outcome S) l1 l2 s,
  foldOutcome f (l1 ++ l2) s
  = match foldOutcome f l1 s with
    | Ok s' => foldOutcome f l2 s'
    | Throw e => Throw e
    end.
Proof.
  intros A S f. induction l1 as [|x l IH]; intros l2 s; simpl; [reflexivity|].
  destruct (f x s); [apply IH|reflexivity].
Qed.

(** The recursive walk over the answered tree is the loop over its nodes
    in pre-order. *)
Lemma flattenAssetFolder_preorder : forall originalItems f items,
  flattenAssetFolder originalItems f items
  = foldOutcome (pushFolder originalItems) (flattenAssetFolderModel f) items.
Proof.
  intros originalItems.
  induction f as [id name externalId folders IH] using AssetFolderModel_tree_ind.
  intros items. simpl. unfold pushFolder at 1. simpl.
  destruct (find _ originalItems) as [o|]; [|reflexivity].
  generalize (items ++
    [{| imported := MkAssetFolderModel id name externalId folders;
        original := o; importId := id; originalId := afc_id o |}]).
  induction IH as [|x l Hx Hl IHl]; intros s; simpl; [reflexivity|].
  rewrite foldOutcome_app, Hx.
  destruct (foldOutcome (pushFolder originalItems) (flattenAssetFolderModel x) s);
    [apply IHl|reflexivity].
Qed.

Lemma flattenAssetFolders_preorder : forall originalItems fs items,
  flattenAssetFolders fs originalItems items
  = foldOutcome (pushFolder originalItems) (flattenAssetFolderModels fs) items.
Proof.
  intros originalItems. unfold flattenAssetFolders, flattenAssetFolderModels.
  induction fs as [|f rest IH]; intros items; simpl; [reflexivity|].
  rewrite foldOutcome_app, flattenAssetFolder_preorder.
  destruct (foldOutcome _ (flattenAssetFolderModel f) items);
    [apply IH|reflexivity].
Qed.

Lemma opt_eqb_eq : forall a b, opt_eqb a b = true <-> a = b.
Proof.
  intros [a|] [b|]; simpl; split; intros H; try discriminate; try reflexivity.
  - apply String.eqb_eq in H. congruence.
  - inversion H. apply String.eqb_refl.
Qed.

Lemma pushFolders_Ok : forall originalItems flat items rs,
  foldOutcome (pushFolder originalItems) flat items = Ok rs ->
  exists rs', rs = items ++ rs' /\
              map (fun r => imported r) rs' = flat /\
              Forall (pairsFolder originalItems) rs'.
Proof.
  intros originalItems. induction flat as [|f rest IH]; intros items rs H; simpl in H.
  - inversion H; subst. exists []. rewrite app_nil_r. auto.
  - destruct (pushFolder originalItems f items) as [s'|e] eqn:Ep; [|discriminate].
    unfold pushFolder in Ep.
    destruct (find _ originalItems) as [o|] eqn:Ef; [|discriminate].
    inversion Ep; subst s'; clear Ep.
    apply IH in H. destruct H as (rs' & -> & Hm & Hp).
    eexists (_ :: rs'). rewrite <- app_assoc. simpl.
    split; [reflexivity|]. split; [rewrite Hm; reflexivity|].
    constructor; [|assumption]. unfold pairsFolder. simpl. auto.
Qed.

Lemma pushFolders_total : forall originalItems flat items,
  (forall f, In f flat ->
     exists o, In o originalItems /\ afc_external_id o = af_externalId f) ->
  exists rs, foldOutcome (pushFolder originalItems) flat items = Ok rs.
Proof.
  intros originalItems. induction flat as [|f rest IH]; intros items H; simpl.
  - eauto.
  - destruct (pushFolder originalItems f items) as [s'|e] eqn:Ep.
    + apply IH. intros g Hg. apply H. right. assumption.
    + exfalso. unfold pushFolder in Ep.
      destruct (find _ originalItems) as [o|] eqn:Ef; [discriminate|]. destruct (H f (or_introl eq_refl)) as (o & Ho & He).
      eapply find_none in Ef; [|exact Ho]. simpl in Ef.
      rewrite He in Ef. destruct (af_externalId f); simpl in Ef;
        [rewrite String.eqb_refl in Ef|]; discriminate.
Qed.

Lemma pushFolders_Throw : forall originalItems flat items f,
  In f flat ->
  (forall o, In o originalItems -> afc_external_id o <> af_externalId f) ->
  exists f', In f' flat /\
    (forall o, In o originalItems -> afc_external_id o <> af_externalId f') /\
    foldOutcome (pushFolder originalItems) flat items
    = Throw (CouldNotFindOriginalFolder (af_externalId f') (af_name f')).
Proof.
  intros originalItems. induction flat as [|g rest IH]; intros items f Hin Hf;
    [destruct Hin|]. simpl.
  destruct (pushFolder originalItems g items) as [s'|e] eqn:Ep;
    unfold pushFolder in Ep;
    destruct (find _ originalItems) as [o|] eqn:Ef; try discriminate.
  - destruct Hin as [->|Hin].
    + apply find_some in Ef. destruct Ef as [Ho He].
      apply opt_eqb_eq in He. exfalso. eapply Hf; eassumption.
    + destruct (IH s' f Hin Hf) as (f' & Hf' & Hno & Ht).
      exists f'. split; [right; assumption|]. split; assumption.
  - inversion Ep; subst e.
    exists g. split; [left; reflexivity|]. split; [|reflexivity].
    intros o Ho He. eapply find_none in Ef; [|exact Ho]. simpl in Ef.
    apply not_true_iff_false in Ef. apply Ef. apply opt_eqb_eq. assumption.
Qed.

Lemma find_unique : forall A B (key : A -> B) (eqb : A -> bool) l x,
  NoDup (map key l) -> In x l -> eqb x = true ->
  (forall y, In y l -> eqb y = true -> key y = key x) ->
  find eqb l = Some x.
Proof.
  intros A B key eqb. induction l as [|a l IH]; intros x Hnd Hin Hx Hkey;
    [destruct Hin|].
  simpl in *. inversion Hnd as [|? ? Ha Hl]; subst.
  destruct (eqb a) eqn:Ea.
  - destruct Hin as [->|Hin]; [reflexivity|].
    exfalso. apply Ha. rewrite (Hkey a (or_introl eq_refl) Ea).
    apply in_map. assumption.
  - destruct Hin as [->|Hin]; [congruence|].
    apply IH; auto.
Qed.

Lemma map_Some_inj : forall A (l1 l2 : list A),
  map (@Some A) l1 = map (@Some A) l2 -> l1 = l2.
Proof.
  intros A. induction l1 as [|x l1 IH]; intros [|y l2] H; simpl in H;
    try discriminate; [reflexivity|].
  inversion H. f_equal. apply IH. assumption.
Qed.

(** The callback loop at the end of [importAssetFoldersAsync] answers the
    flattened folders as they are and sends no request. *)
Lemma forEach_processItem : forall config R (title : R -> string) type (l : list R) h,
  exists events,
    forEach (fun x => processItem config (title x) type ;;; ret [x]) l h
    = (Ok l, events) /\ calls events = [].
Proof.
  intros config R title type. induction l as [|x rest IH]; intros h.
  - exists []. auto.
  - set (ev := if onImport config then [OnImport (title x) type] else []).
    assert (Hb : (processItem config (title x) type ;;; ret [x]) h = (Ok [x], ev)).
    { rewrite bind_run, processItem_run. simpl. rewrite app_nil_r. reflexivity. }
    destruct (IH (h ++ ev)) as (events & E & Hc).
    exists (ev ++ events ++ []). split.
    + simpl forEach. eapply bind_Ok; [exact Hb|].
      eapply bind_Ok; [exact E|reflexivity].
    + rewrite !calls_app, Hc. subst ev. destruct (onImport config); reflexivity.
Qed.

Lemma NoDup_map_Some : forall A (l : list A),
  NoDup l -> NoDup (map (@Some A) l).
Proof.
  intros A l H. induction H as [|x l Hx Hl IH]; simpl; constructor; [|assumption].
  intros Hin. apply in_map_iff in Hin. destruct Hin as (y & Hy & Hin).
  inversion Hy; subst. contradiction.
Qed.

(** The three ways [importAssetFoldersAsync] can end. *)
Lemma importAssetFoldersAsync_run : forall client config assetFolders h,
  let prepared := setExternalIdForFolders assetFolders in
  let submitted := map mapAssetFolder prepared in
  let originals := flattenAssetFolderContracts prepared in
  let run := importAssetFoldersAsync client config assetFolders h in
  match addAssetFolders client submitted h with
  | None =>
      run = (Throw (RequestFailed (AddAssetFolders submitted)),
             [Call (AddAssetFolders submitted)])
  | Some response =>
      match flattenAssetFolders response originals [] with
      | Throw e => run = (Throw e, [Call (AddAssetFolders submitted)])
      | Ok flat =>
          exists events,
            run = (Ok flat, Call (AddAssetFolders submitted) :: events) /\
            calls events = []
      end
  end.
Proof.
  intros client config assetFolders h prepared submitted originals run.
  subst run. unfold importAssetFoldersAsync. fold prepared submitted originals.
  rewrite bind_run. unfold request.
  destruct (addAssetFolders client submitted h) as [response|]; [|reflexivity].
  rewrite bind_run. unfold lift.
  destruct (flattenAssetFolders response originals []) as [flat|e]; [|reflexivity].
  destruct (@forEach_processItem config _ (fun x => af_name (imported x))
              AtAssetFolder flat ((h ++ [Call (AddAssetFolders submitted)]) ++ []))
    as (events & E & Hc).
  exists events. rewrite E. simpl. auto.
Qed.

(** C6.  Before the request every folder node, at any depth, carries its
    original id as external id, in the source and in the one request the
    stage sends.  If the answered tree carries, over all its nodes, the
    external ids of the original nodes (in any order) and the original ids
    are pairwise distinct, the stage answers exactly one entry for each
    original node, which pairs the original id with the id the target gave
    to the folder with that external id.  An answered folder whose external
    id is the external id of no original folder makes the stage throw. *)
Theorem importAssetFoldersAsync_round_trip :
  forall client config assetFolders h,
    let prepared := setExternalIdForFolders assetFolders in
    let submitted := map mapAssetFolder prepared in
    let originals := flattenAssetFolderContracts prepared in
    let run := importAssetFoldersAsync client config assetFolders h in
    (map afc_id originals = map afc_id (flattenAssetFolderContracts assetFolders) /\
     map afc_external_id originals
     = map (fun f => Some (afc_id f)) (flattenAssetFolderContracts assetFolders) /\
     map afd_external_id (flat_map flattenAddAssetFolderData submitted)
     = map (fun f => Some (afc_id f)) (flattenAssetFolderContracts assetFolders) /\
     calls (snd run) = [AddAssetFolders submitted]) /\
    (forall response,
       addAssetFolders client submitted h = Some response ->
       NoDup (map afc_id (flattenAssetFolderContracts assetFolders)) ->
       Permutation (map af_externalId (flattenAssetFolderModels response))
                   (map (fun f => Some (afc_id f))
                        (flattenAssetFolderContracts assetFolders)) ->
       exists rs,
         fst run = Ok rs /\
         Permutation (map (fun r => original r) rs) originals /\
         map (fun r => imported r) rs = flattenAssetFolderModels response /\
         Forall (fun r => originalId r = afc_id (original r) /\
                          importId r = af_id (imported r) /\
                          af_externalId (imported r) = Some (originalId r)) rs) /\
    (forall response f,
       addAssetFolders client submitted h = Some response ->
       In f (flattenAssetFolderModels response) ->
       (forall o, In o originals -> afc_external_id o <> af_externalId f) ->
       exists f',
         In f' (flattenAssetFolderModels response) /\
         (forall o, In o originals -> afc_external_id o <> af_externalId f') /\
         fst run
         = Throw (CouldNotFindOriginalFolder (af_externalId f') (af_name f'))).
Proof.
  intros client config assetFolders h prepared submitted originals run.
  pose proof (importAssetFoldersAsync_run client config assetFolders h) as Hrun.
  cbv zeta in Hrun. fold prepared submitted originals run in Hrun.
  destruct (setExternalIdForFolders_ids assetFolders) as (Hid & Hext & Hsub).
  fold prepared originals in Hid, Hext. fold prepared submitted in Hsub.
  split; [|split].
  - repeat split; try assumption.
    destruct (addAssetFolders client submitted h) as [response|].
    + destruct (flattenAssetFolders response originals []) as [flat|e].
      * destruct Hrun as (events & -> & Hc). simpl. rewrite Hc. reflexivity.
      * rewrite Hrun. reflexivity.
    + rewrite Hrun. reflexivity.
  - intros response Hresponse Hnd Hperm. rewrite Hresponse in Hrun.
    rewrite flattenAssetFolders_preorder in Hrun.
    assert (Hnd' : NoDup (map afc_external_id originals)).
    { rewrite Hext, <- (map_map afc_id (@Some string)).
      apply NoDup_map_Some. assumption. }
    destruct (@pushFolders_total originals (flattenAssetFolderModels response) [])
      as [rs Hrs].
    { intros f Hf.
      assert (Hin : In (af_externalId f) (map afc_external_id originals)).
      { rewrite Hext. eapply Permutation_in; [exact Hperm|].
        apply in_map. assumption. }
      apply in_map_iff in Hin. destruct Hin as (o & Ho & Hino). eauto. }
    rewrite Hrs in Hrun. destruct Hrun as (events & -> & _).
    apply pushFolders_Ok in Hrs. destruct Hrs as (rs' & -> & Hm & Hp).
    simpl. exists rs'. split; [reflexivity|]. split; [|split].
    + set (g := fun k => find (fun m => opt_eqb (afc_external_id m) k) originals).
      assert (Hg : map (@Some _) (map (fun r => original r) rs')
                   = map g (map af_externalId (flattenAssetFolderModels response))).
      { rewrite <- Hm. rewrite !map_map. apply map_ext_in. intros r Hr.
        rewrite Forall_forall in Hp. destruct (Hp r Hr) as [Hfind _].
        unfold g. rewrite Hfind. reflexivity. }
      assert (Ho : map g (map afc_external_id originals)
                   = map (@Some _) originals).
      { rewrite map_map. apply map_ext_in. intros o Hino. unfold g.
        apply (@find_unique _ _ afc_external_id); auto.
        - apply opt_eqb_eq. reflexivity.
        - intros y _ Hy. apply opt_eqb_eq in Hy. assumption. }
      assert (Hps : Permutation (map (@Some _) (map (fun r => original r) rs'))
                                (map (@Some _) originals)).
      { rewrite Hg, <- Ho, Hext. apply Permutation_map. assumption. }
      apply Permutation_sym, Permutation_map_inv in Hps.
      destruct Hps as (l3 & Heq & Hp3). apply map_Some_inj in Heq. subst l3.
      assumption.
    + assumption.
    + eapply Forall_impl; [|exact Hp]. intros r (Hfind & Hi & Ho).
      split; [assumption|]. split; [assumption|].
      apply find_some in Hfind. destruct Hfind as [Hin He].
      apply opt_eqb_eq in He. rewrite <- He, Ho.
      assert (Hin' : In (afc_external_id (original r), afc_id (original r))
                        (combine (map afc_external_id originals)
                                 (map afc_id originals))).
      { clear - Hin. induction originals as [|x l IH]; [destruct Hin|].
        simpl. destruct Hin as [->|Hin]; auto. }
      rewrite Hext, Hid in Hin'. clear - Hin'.
      induction (flattenAssetFolderContracts assetFolders) as [|x l IH];
        [destruct Hin'|].
      simpl in Hin'. destruct Hin' as [Hx|Hin']; [|auto].
      inversion Hx. reflexivity.
  - intros response f Hresponse Hf Hno. rewrite Hresponse in Hrun.
    rewrite flattenAssetFolders_preorder in Hrun.
    destruct (@pushFolders_Throw originals _ [] f Hf Hno) as (f' & Hf' & Hno' & Ht).
    rewrite Ht in Hrun. exists f'. rewrite Hrun. auto.
Qed.

(** C6 on the sample tree of four folders in three levels: the accepting
    target gives one entry for each folder, and the answer with a folder
    nobody asked for makes the stage throw. *)
Lemma importAssetFoldersAsync_round_trip_witness :
  (exists rs,
     fst (importAssetFoldersAsync (Sample.acceptingClient Sample.target)
            Sample.config [Sample.photos] []) = Ok rs /\
     Permutation (map (fun r => original r) rs)
       (flattenAssetFolderContracts (setExternalIdForFolders [Sample.photos])) /\
     length rs = 4) /\
  (exists f,
     fst (importAssetFoldersAsync StrangerFolder.client Sample.config
            [Sample.photos] [])
     = Throw (CouldNotFindOriginalFolder (af_externalId f) (af_name f))).
Proof.
  split.
  - destruct (importAssetFoldersAsync_round_trip
                (Sample.acceptingClient Sample.target) Sample.config
                [Sample.photos] []) as (_ & Hmatch & _).
    destruct (Hmatch _ eq_refl) as (rs & Hrs & Hperm & Himported & _).
    + vm_compute. repeat constructor; simpl; intuition discriminate.
    + vm_compute. apply Permutation_refl.
    + exists rs. split; [exact Hrs|]. split; [exact Hperm|].
      apply (f_equal (@length _)) in Himported.
      rewrite length_map in Himported. exact Himported.
  - destruct (importAssetFoldersAsync_round_trip
                StrangerFolder.client Sample.config [Sample.photos] [])
      as (_ & _ & Hthrow).
    destruct (Hthrow _ StrangerFolder.stranger eq_refl) as (f & _ & _ & Hf).
    + vm_compute. tauto.
    + vm_compute. intros o [<-|[<-|[<-|[<-|[]]]]]; discriminate.
    + exists f. exact Hf.
Defined.

(* ================================================================= *)
(** ** C7 and C8: assets and their binary files *)

Lemma forEach_Ok_Forall : forall A R (P : R -> Prop) (body : A -> M (list R)),
  (forall x h r e, body x h = (Ok r, e) -> Forall P r) ->
  forall xs h rs events, forEach body xs h = (Ok rs, events) -> Forall P rs.
Proof.
  intros A R P body Hbody. induction xs as [|x rest IH]; intros h rs events H.
  - simpl in H. unfold ret in H. inversion H; subst. constructor.
  - apply forEach_cons_Ok_inv in H.
    destruct H as (r1 & e1 & r2 & e2 & H1 & H2 & -> & ->).
    apply Forall_app. split; [eapply Hbody; eassumption|eapply IH; eassumption].
Qed.

Lemma flat_map_nil : forall A B (l : list A), flat_map (fun _ => @nil B) l = [].
Proof. intros. induction l; simpl; auto. Qed.

Section Assets.
Variable core : CoreHelpers.
Variable client : ManagementClient.
Variable config : ImportConfig.

(** One round of the loop of [importAssetsAsync] for an asset that has a
    binary file, written out. *)
Lemma importAsset_run : forall binaryFiles currentItems asset h binaryFile,
  binaryFileOf binaryFiles asset = Some binaryFile ->
  let upload :=
    {| ubf_binaryData :=
         if oversized binaryFile then [] else bf_binaryData binaryFile;
       ubf_contentType := a_type asset;
       ubf_filename := a_file_name asset |} in
  let reported :=
    if oversized binaryFile && onUnsupportedBinaryFile config
    then [OnUnsupportedBinaryFile binaryFile] else [] in
  importAsset core client config binaryFiles currentItems asset h
  = match uploadBinaryFile client upload (h ++ reported) with
    | None =>
        (Throw (RequestFailed (UploadBinaryFile upload)),
         reported ++ [Call (UploadBinaryFile upload)])
    | Some uploaded =>
        let assetData := getAddAssetModel core asset (fr_id uploaded) currentItems in
        match addAsset client assetData
                (h ++ reported ++ [Call (UploadBinaryFile upload)]) with
        | None =>
            (Throw (RequestFailed (AddAsset assetData)),
             reported ++ [Call (UploadBinaryFile upload); Call (AddAsset assetData)])
        | Some response =>
            (Ok [ {| imported := response;
                     original := assetAfterModel asset assetData;
                     importId := am_id response;
                     originalId := a_id asset |} ],
             reported ++ [Call (UploadBinaryFile upload); Call (AddAsset assetData)]
             ++ (if onImport config
                 then [OnImport (am_fileName response) AtAsset] else []))
        end
    end.
Proof.
  intros binaryFiles currentItems asset h binaryFile Hfile upload reported.
  unfold importAsset. unfold binaryFileOf in Hfile. rewrite Hfile.
  subst upload reported. unfold oversized.
  destruct (maxAllowedAssetSizeInBytes <=? a_size (bf_asset binaryFile))%Z;
    destruct (onUnsupportedBinaryFile config); simpl;
    unfold bind, ret, emit, request; simpl; rewrite ?app_nil_r;
    match goal with
    | |- context [uploadBinaryFile client ?u ?hh] =>
        destruct (uploadBinaryFile client u hh) as [uploaded|]; simpl;
          [|reflexivity]
    end;
    rewrite <- ?app_assoc; simpl;
    match goal with
    | |- context [addAsset client ?d ?hh] =>
        destruct (addAsset client d hh) as [response|]; simpl; [|reflexivity]
    end;
    rewrite processItem_run; simpl; rewrite ?app_nil_r; reflexivity.
Qed.

(** What a round that ran to its end answered and logged. *)
Lemma importAsset_Ok_inv : forall binaryFiles currentItems asset h r e,
  importAsset core client config binaryFiles currentItems asset h = (Ok r, e) ->
  map (fun x => originalId x) r = [a_id asset] /\
  Forall (fun x => importId x = am_id (imported x) /\
                   exists data h', addAsset client data h' = Some (imported x)) r /\
  flat_map uploadsOf e = uploadedData binaryFiles asset /\
  flat_map unsupportedCalls e
  = (if onUnsupportedBinaryFile config
     then unsupportedOf binaryFiles asset else []).
Proof.
  intros binaryFiles currentItems asset h r e H.
  destruct (binaryFileOf binaryFiles asset) as [binaryFile|] eqn:Hfile.
  - rewrite (@importAsset_run _ currentItems _ h _ Hfile) in H. cbv zeta in H.
    unfold uploadedData, unsupportedOf. rewrite Hfile.
    destruct (uploadBinaryFile client _ _) as [uploaded|]; [|discriminate].
    destruct (addAsset client _ _) as [response|] eqn:Eadd; [|discriminate].
    inversion H; subst; clear H. simpl.
    split; [reflexivity|]. split.
    { constructor; [|constructor]. simpl. eauto. }
    rewrite !flat_map_app. simpl.
    destruct (oversized binaryFile); destruct (onUnsupportedBinaryFile config);
      destruct (onImport config); simpl; auto.
  - unfold importAsset in H. unfold binaryFileOf in Hfile. rewrite Hfile in H.
    discriminate.
Qed.
End Assets.

(** C7.  When every asset of the stage has a binary file and the target
    accepts the uploads and the assets, the stage runs to its end and: every
    asset has its entry, whose import id is the id of the asset the target
    answered; what is uploaded for an asset whose file has a size of at
    least 100,000,000 bytes is empty, and the full payload otherwise; and
    the unsupported-file callback, when there is one, is called once for
    each asset whose file is that large and for no other. *)
Theorem importAssetsAsync_oversized :
  forall core client config assets binaryFiles currentItems h,
    (forall asset, In asset assets -> binaryFileOf binaryFiles asset <> None) ->
    (forall data h', uploadBinaryFile client data h' <> None) ->
    (forall data h', addAsset client data h' <> None) ->
    exists rs events,
      importAssetsAsync core client config assets binaryFiles currentItems h
      = (Ok rs, events) /\
      map (fun r => originalId r) rs = map a_id assets /\
      Forall (fun r => importId r = am_id (imported r) /\
                       exists data h', addAsset client data h' = Some (imported r))
             rs /\
      flat_map uploadsOf events = flat_map (uploadedData binaryFiles) assets /\
      flat_map unsupportedCalls events
      = (if onUnsupportedBinaryFile config
         then flat_map (unsupportedOf binaryFiles) assets else []).
Proof.
  intros core client config assets binaryFiles currentItems h Hfiles Hupload Hadd.
  assert (Hok : isThrow (fst (importAssetsAsync core client config assets
                                binaryFiles currentItems h)) = false).
  { apply forEach_Ok_intro. intros asset h' Hin.
    destruct (binaryFileOf binaryFiles asset) as [binaryFile|] eqn:Hfile;
      [|exfalso; eapply Hfiles; eassumption].
    rewrite (@importAsset_run core client config _ currentItems _ h' _ Hfile).
    cbv zeta.
    destruct (uploadBinaryFile client _ _) as [uploaded|] eqn:Eu;
      [|exfalso; eapply Hupload; eassumption].
    destruct (addAsset client _ _) as [response|] eqn:Ea;
      [reflexivity|exfalso; eapply Hadd; eassumption]. }
  destruct (importAssetsAsync core client config assets binaryFiles currentItems h)
    as [[rs|e] events] eqn:E; [|discriminate].
  exists rs, events. split; [reflexivity|].
  unfold importAssetsAsync in E.
  assert (Huploads :
            map (fun r => originalId r) rs = map a_id assets /\
            flat_map uploadsOf events = flat_map (uploadedData binaryFiles) assets).
  { eapply (@forEach_Ok_inv _ _ _ _ _ a_id (fun r => originalId r)
              uploadsOf (uploadedData binaryFiles)); [|exact E].
    intros x h' r e Hr. apply importAsset_Ok_inv in Hr. split; apply Hr. }
  destruct Huploads as [Hids Huploads].
  split; [exact Hids|]. split; [|split; [exact Huploads|]].
  - eapply forEach_Ok_Forall; [|exact E].
    intros x h' r e Hr. apply importAsset_Ok_inv in Hr. apply Hr.
  - destruct (onUnsupportedBinaryFile config) eqn:Eon.
    + eapply (@forEach_Ok_inv _ _ _ _ _ a_id (fun r => originalId r)
                unsupportedCalls (unsupportedOf binaryFiles)); [|exact E].
      intros x h' r e Hr. apply importAsset_Ok_inv in Hr.
      rewrite Eon in Hr. split; apply Hr.
    + rewrite <- (@flat_map_nil _ BinaryFile assets).
      eapply (@forEach_Ok_inv _ _ _ _ _ a_id (fun r => originalId r)
                unsupportedCalls (fun _ => [])); [|exact E].
      intros x h' r e Hr. apply importAsset_Ok_inv in Hr.
      rewrite Eon in Hr. split; apply Hr.
Qed.

(** C7 on the two assets of the sample project: the logo is uploaded in
    full, the film of 100,000,000 bytes is uploaded empty and reported
    once, and both assets have their entry. *)
Lemma importAssetsAsync_oversized_witness :
  exists rs events,
    importAssetsAsync SpecCore.core (Sample.acceptingClient Sample.target)
      Sample.config [Sample.logo; Sample.film] [Sample.logoFile; Sample.filmFile]
      [] []
    = (Ok rs, events) /\
    map (fun r => originalId r) rs = ["a-logo"; "a-film"] /\
    flat_map uploadsOf events = [[x89; x50; x4e; x47]; []] /\
    flat_map unsupportedCalls events = [Sample.filmFile].
Proof.
  destruct (@importAssetsAsync_oversized SpecCore.core
              (Sample.acceptingClient Sample.target) Sample.config
              [Sample.logo; Sample.film] [Sample.logoFile; Sample.filmFile] [] [])
    as (rs & events & Hrun & Hids & _ & Huploads & Hreported).
  - intros asset [<-|[<-|[]]]; vm_compute; discriminate.
  - intros data h'. simpl. discriminate.
  - intros data h'. simpl. discriminate.
  - exists rs, events. split; [exact Hrun|]. split; [exact Hids|].
    split; [exact Huploads|exact Hreported].
Defined.

(** C8.  An asset without a binary file makes the run throw at the asset,
    before any request for it: the assets stage on a collection that holds
    the asset does what it does on the assets before it and then throws,
    with nothing more in the log, so no upload, no creation and no entry
    exist for that asset or a later one; and [importAsync] throws as soon
    as the prepared source holds such an asset. *)
Theorem importAssetsAsync_missing_binary_file :
  forall core client config,
    (forall before asset after binaryFiles currentItems h,
       binaryFileOf binaryFiles asset = None ->
       importAssetsAsync core client config (before ++ asset :: after)
         binaryFiles currentItems h
       = match importAssetsAsync core client config before binaryFiles
                 currentItems h with
         | (Ok _, events) => (Throw (CouldNotFindBinaryFile (a_id asset)), events)
         | (Throw e, events) => (Throw e, events)
         end) /\
    (forall sourceData h asset,
       let prepared :=
         removeSkippedItemsFromImport config (translateIds core sourceData) in
       In asset (assets (importData prepared)) ->
       binaryFileOf (binaryFiles prepared) asset = None ->
       isThrow (fst (importAsync core client config sourceData h)) = true).
Proof.
  intros core client config.
  assert (Hstage : forall before asset after binaryFiles currentItems h,
             binaryFileOf binaryFiles asset = None ->
             importAssetsAsync core client config (before ++ asset :: after)
               binaryFiles currentItems h
             = match importAssetsAsync core client config before binaryFiles
                       currentItems h with
               | (Ok _, events) =>
                   (Throw (CouldNotFindBinaryFile (a_id asset)), events)
               | (Throw e, events) => (Throw e, events)
               end).
  { intros before asset after binaryFiles currentItems h Hnone.
    unfold importAssetsAsync. rewrite forEach_app.
    destruct (forEach _ before h) as [[r1|e] e1]; [|reflexivity].
    simpl forEach. rewrite bind_run. unfold importAsset at 1.
    unfold binaryFileOf in Hnone. rewrite Hnone. simpl.
    rewrite app_nil_r. reflexivity. }
  split; [exact Hstage|].
  intros sourceData h asset prepared Hin Hnone.
  unfold importAsync. fold prepared. clearbody prepared.
  destruct (importStages core client config prepared h) as [[rs|e] events] eqn:E;
    [|reflexivity].
  exfalso. apply importStages_Ok_inv in E. destruct E as (s & Hran & _ & _).
  destruct Hran as (_ & _ & _ & _ & _ & (ha & Ha) & _).
  apply in_split in Hin. destruct Hin as (before & after & Hsplit).
  rewrite Hsplit in Ha. simpl in Ha.
  assert (Ha' : importAssetsAsync core client config (before ++ asset :: after)
                  (binaryFiles prepared) (itemsBeforeAssets s) ha
                = (Ok (r_assets s), e_assets s)).
  { destruct before; exact Ha. }
  rewrite (Hstage _ _ _ _ _ _ Hnone) in Ha'.
  destruct (importAssetsAsync core client config before (binaryFiles prepared)
              (itemsBeforeAssets s) ha) as [[r|e] ev]; discriminate.
Qed.

(** C8 on the sample project when the file of the film is missing: the
    logo is imported, then the stage throws without a request for the
    film. *)
Lemma importAssetsAsync_missing_binary_file_witness :
  importAssetsAsync SpecCore.core (Sample.acceptingClient Sample.target)
    Sample.config ([Sample.logo] ++ Sample.film :: []) [Sample.logoFile] [] []
  = (Throw (CouldNotFindBinaryFile "a-film"),
     [ Call (UploadBinaryFile {| ubf_binaryData := [x89; x50; x4e; x47];
                                 ubf_contentType := "image/png";
                                 ubf_filename := "logo.png" |});
       Call (AddAsset {| aad_descriptions := [];
                         aad_file_reference :=
                           {| fr_id := "file-logo.png"; fr_type := "internal" |};
                         aad_external_id := None;
                         aad_folder := Some (Sample.ref "f-2020");
                         aad_title := Some "Logo" |}) ]).
Proof.
  destruct (importAssetsAsync_missing_binary_file SpecCore.core
              (Sample.acceptingClient Sample.target) Sample.config)
    as [Hstage _].
  rewrite (Hstage [Sample.logo] Sample.film [] [Sample.logoFile] [] []).
  - reflexivity.
  - reflexivity.
Defined.

(* ================================================================= *)
(** ** C9: the answered list *)










Section CreatedByStage.
Variable core : CoreHelpers.
Variable client : ManagementClient.
Variable config : ImportConfig.









End CreatedByStage.




Lemma guardedRun_stage : forall A R s (collection : list A) (stage : M (list R))
    h r e,
  emits (inStage s) stage -> guardedRun collection stage h r e ->
  Forall (inStage s) e.
Proof.
  intros A R s collection stage h r e Hs H. destruct collection; simpl in H.
  - destruct H as [_ ->]. constructor.
  - replace e with (snd (stage h)) by (rewrite H; reflexivity). apply Hs.
Qed.

Lemma run_stage : forall A s (m : M A) h o e,
  emits (inStage s) m -> m h = (o, e) -> Forall (inStage s) e.
Proof.
  intros A s m h o e Hs H.
  replace e with (snd (m h)) by (rewrite H; reflexivity). apply Hs.
Qed.




(* ================================================================= *)
(** ** C10: the publish pass *)

Section Publish.
Variable client : ManagementClient.
Variable config : ImportConfig.

(** One round of the loop of [publishLanguageVariantsAsync], written out. *)
Lemma publishLoop_cons : forall v rest h,
  publishLoop client config (v :: rest) h
  = match truthy (ref_codename (lv_item v)) with
    | None => (Throw MissingItemCodename, [])
    | Some itemCodename =>
        match truthy (ref_codename (lv_language v)) with
        | None => (Throw MissingLanguageCodename, [])
        | Some languageCodename =>
            let rq := PublishLanguageVariant itemCodename languageCodename in
            match publishLanguageVariant client itemCodename languageCodename h with
            | None => (Throw (RequestFailed rq), [Call rq])
            | Some _ =>
                let events :=
                  Call rq
                  :: (if onImport config
                      then [OnImport (variantTitle itemCodename languageCodename)
                                     AtPublish]
                      else []) in
                (fst (publishLoop client config rest (h ++ events)),
                 events ++ snd (publishLoop client config rest (h ++ events)))
            end
        end
    end.
Proof.
  intros v rest h. simpl publishLoop. unfold variantCodenames.
  destruct (truthy (ref_codename (lv_item v))) as [ic|]; [|reflexivity].
  destruct (truthy (ref_codename (lv_language v))) as [lc|]; [|reflexivity].
  rewrite bind_ret. rewrite bind_run. unfold request.
  destruct (publishLanguageVariant client ic lc h) as [u|]; [|reflexivity].
  rewrite bind_run, processItem_run. cbv zeta.
  rewrite <- app_assoc. simpl.
  destruct (publishLoop client config rest _); reflexivity.
Qed.

Lemma publishLoop_calls : forall vs h,
  let run := publishLoop client config vs h in
  (exists n, calls (snd run) = firstn n (flat_map publishRequest vs)) /\
  (fst run = Ok tt ->
   calls (snd run) = flat_map publishRequest vs /\
   length (calls (snd run)) = length vs).
Proof.
  induction vs as [|v rest IH]; intros h.
  - simpl. split; [exists 0; reflexivity|auto].
  - cbv zeta. rewrite publishLoop_cons. simpl flat_map. unfold publishRequest at 1 3.
    destruct (truthy (ref_codename (lv_item v))) as [ic|];
      [|split; [exists 0; reflexivity|discriminate]].
    destruct (truthy (ref_codename (lv_language v))) as [lc|];
      [|split; [exists 0; reflexivity|discriminate]].
    cbv zeta.
    destruct (publishLanguageVariant client ic lc h) as [u|];
      [|split; [exists 1; reflexivity|discriminate]].
    match goal with
    | |- context [publishLoop client config rest ?hh] =>
        pose proof (IH hh) as IHh
    end.
    cbv zeta in IHh. destruct IHh as [[n Hn] Hok]. simpl fst. simpl snd.
    assert (Hc : forall l, calls (Call (PublishLanguageVariant ic lc)
                      :: (if onImport config
                          then [OnImport (variantTitle ic lc) AtPublish] else [])
                         ++ l)
                 = PublishLanguageVariant ic lc :: calls l).
    { intros l. destruct (onImport config); reflexivity. }
    rewrite Hc. split.
    + exists (S n). simpl. rewrite Hn. reflexivity.
    + intros Hfst. destruct (Hok Hfst) as [H1 H2]. simpl.
      rewrite H2. rewrite H1 at 1. auto.
Qed.

Lemma publishLoop_missing_codename : forall vs h v,
  In v vs -> ~ hasCodenames v ->
  isThrow (fst (publishLoop client config vs h)) = true.
Proof.
  induction vs as [|x rest IH]; intros h v Hin Hv; [destruct Hin|].
  rewrite publishLoop_cons.
  destruct (truthy (ref_codename (lv_item x))) as [ic|] eqn:Ei; [|reflexivity].
  destruct (truthy (ref_codename (lv_language x))) as [lc|] eqn:El; [|reflexivity].
  cbv zeta. destruct (publishLanguageVariant client ic lc h); [|reflexivity].
  simpl. destruct Hin as [->|Hin].
  - exfalso. apply Hv. unfold hasCodenames. rewrite Ei, El. split; discriminate.
  - eapply IH; eassumption.
Qed.

Lemma publishLoop_accepted : forall vs h,
  (forall v, In v vs -> hasCodenames v) ->
  (forall ic lc h', publishLanguageVariant client ic lc h' <> None) ->
  fst (publishLoop client config vs h) = Ok tt.
Proof.
  induction vs as [|x rest IH]; intros h Hall Hclient; [reflexivity|].
  rewrite publishLoop_cons.
  destruct (Hall x (or_introl eq_refl)) as [Hi Hl].
  destruct (truthy (ref_codename (lv_item x))) as [ic|]; [|contradiction].
  destruct (truthy (ref_codename (lv_language x))) as [lc|]; [|contradiction].
  cbv zeta. destruct (publishLanguageVariant client ic lc h) eqn:E;
    [|exfalso; eapply Hclient; eassumption].
  simpl. apply IH; [|assumption]. intros v Hv. apply Hall. right. assumption.
Qed.
End Publish.

(** C10.  Without a workflow step named [Published] the publish pass ends
    at once, with no request and no error.  Otherwise, with the first such
    step, the requests of the pass are publish requests for the variants
    whose workflow step has the id of that step, in their order: for a
    first part of them always, for each of them exactly once when the pass
    runs to its end, which it does when they all have both codenames and
    the target accepts the requests; and the pass throws when one of them
    lacks a codename. *)
Theorem publishLanguageVariantsAsync_published :
  forall client config languageVariants workflowSteps h,
    let run :=
      publishLanguageVariantsAsync client config languageVariants workflowSteps h in
    ((forall step, In step workflowSteps ->
        ws_name step <> publishedWorkflowStepName) ->
     run = (Ok tt, [])) /\
    (forall step,
       getPublishedWorkflowStep workflowSteps = Some step ->
       let toPublish :=
         filter (fun m => String.eqb (ref_id (lv_workflow_step m)) (ws_id step))
                languageVariants in
       (exists n, calls (snd run) = firstn n (flat_map publishRequest toPublish)) /\
       (fst run = Ok tt ->
        calls (snd run) = flat_map publishRequest toPublish /\
        length (calls (snd run)) = length toPublish) /\
       ((exists v, In v toPublish /\ ~ hasCodenames v) ->
        isThrow (fst run) = true) /\
       ((forall v, In v toPublish -> hasCodenames v) ->
        (forall ic lc h', publishLanguageVariant client ic lc h' <> None) ->
        fst run = Ok tt)).
Proof.
  intros client config languageVariants workflowSteps h run. subst run.
  unfold publishLanguageVariantsAsync. split.
  - intros Hnone.
    destruct (getPublishedWorkflowStep workflowSteps) as [step|] eqn:E;
      [|reflexivity].
    unfold getPublishedWorkflowStep in E. apply find_some in E.
    destruct E as [Hin Hname]. apply String.eqb_eq in Hname.
    exfalso. eapply Hnone; eassumption.
  - intros step Hstep. rewrite Hstep.
    set (toPublish := filter _ languageVariants).
    pose proof (publishLoop_calls client config toPublish h) as Hloop.
    cbv zeta in Hloop. destruct Hloop as [Hprefix Hok].
    split; [exact Hprefix|]. split; [exact Hok|]. split.
    + intros (v & Hin & Hv). eapply publishLoop_missing_codename; eassumption.
    + intros Hall Hclient. apply publishLoop_accepted; assumption.
Qed.

(** C10 on the variants of the sample project, after the codename
    translation: two of the three are in the step named [Published] and
    are published; without such a step nothing is asked. *)
Lemma publishLanguageVariantsAsync_published_witness :
  let variants :=
    languageVariants (importData (translateIds SpecCore.core Sample.source)) in
  let client := Sample.acceptingClient Sample.target in
  publishLanguageVariantsAsync client Sample.config variants [Sample.draft] []
  = (Ok tt, []) /\
  fst (publishLanguageVariantsAsync client Sample.config variants
         [Sample.draft; Sample.published] []) = Ok tt /\
  calls (snd (publishLanguageVariantsAsync client Sample.config variants
                [Sample.draft; Sample.published] []))
  = [PublishLanguageVariant "home" "en-US"; PublishLanguageVariant "about" "en-US"].
Proof.
  cbv zeta.
  split.
  - apply (publishLanguageVariantsAsync_published
             (Sample.acceptingClient Sample.target) Sample.config
             (languageVariants (importData (translateIds SpecCore.core Sample.source)))
             [Sample.draft] []).
    intros step [<-|[]]. discriminate.
  - destruct (publishLanguageVariantsAsync_published
                (Sample.acceptingClient Sample.target) Sample.config
                (languageVariants
                   (importData (translateIds SpecCore.core Sample.source)))
                [Sample.draft; Sample.published] []) as [_ Hsome].
    destruct (Hsome Sample.published eq_refl) as (_ & Hok & _ & Hrun).
    assert (Hfst : fst (publishLanguageVariantsAsync
                          (Sample.acceptingClient Sample.target) Sample.config
                          (languageVariants
                             (importData (translateIds SpecCore.core Sample.source)))
                          [Sample.draft; Sample.published] []) = Ok tt).
    { apply Hrun.
      - intros v Hv. vm_compute in Hv.
        destruct Hv as [<-|[<-|[]]]; split; vm_compute; discriminate.
      - intros ic lc h'. simpl. discriminate. }
    split; [exact Hfst|]. destruct (Hok Hfst) as [Hcalls _].
    rewrite Hcalls. vm_compute. reflexivity.
Defined.

(* ================================================================= *)
(** ** Further properties: the languages *)

(** *** [fixLanguageAsync] and [tryGetLanguage] *)

Lemma find_codename_known : forall currentLanguages importLanguage,
  knownCodename currentLanguages importLanguage = true <->
  find (fun m => String.eqb (lm_codename m) (lang_codename importLanguage))
       currentLanguages <> None.
Proof.
  intros cur l. unfold knownCodename.
  induction cur as [|m rest IH]; simpl.
  - split; [discriminate|congruence].
  - destruct (String.eqb (lm_codename m) (lang_codename l)); simpl.
    + split; [discriminate|reflexivity].
    + exact IH.
Qed.

(** X1.  [fixLanguageAsync] sends at most one request, and calls no
    callback.  The request is either the activation of the target language
    that has the codename of the imported language and is inactive, or, for
    an imported language flagged as default, the renaming of the target
    language that has its id, which happens only when that language has
    another codename and no target language has the imported codename. *)
Theorem fixLanguageAsync_at_most_one_request :
  forall client currentLanguages importLanguage h,
    let run := fixLanguageAsync client currentLanguages importLanguage h in
    length (snd run) <= 1 /\
    forall e, In e (snd run) ->
      (e = Call (activation importLanguage) /\
       exists m, In m currentLanguages /\
                 lm_codename m = lang_codename importLanguage /\
                 lm_isActive m = false) \/
      (exists d, e = Call (renaming d importLanguage) /\
                 lang_is_default importLanguage = true /\
                 In d currentLanguages /\
                 lm_id d = lang_id importLanguage /\
                 lm_codename d <> lang_codename importLanguage /\
                 forall m, In m currentLanguages ->
                           lm_codename m <> lang_codename importLanguage).
Proof.
  intros client cur l h run. subst run. unfold fixLanguageAsync.
  destruct (find (fun m => String.eqb (lm_codename m) (lang_codename l)) cur)
    as [ex|] eqn:Ec.
  - (* a target language has the codename: no renaming *)
    rewrite bind_run.
    apply find_some in Ec. destruct Ec as [Hex Hc]. apply String.eqb_eq in Hc.
    assert (Hact : forall e,
               e = Call (ModifyLanguage (lm_codename ex) [ReplaceIsActive true]) ->
               lm_isActive ex = false ->
               e = Call (activation l) /\
               exists m, In m cur /\ lm_codename m = lang_codename l
                         /\ lm_isActive m = false).
    { intros e -> Hin. unfold activation. rewrite Hc. split; [reflexivity|].
      exists ex. auto. }
    destruct (lm_isActive ex) eqn:Ea; simpl.
    + destruct (lang_is_default l); [|simpl; split; [lia|intros e []]].
      destruct (find (fun m => String.eqb (lm_id m) (lang_id l)) cur) as [d|];
        [|simpl; split; [lia|intros e []]].
      destruct (negb _); simpl; split; try lia; intros e [].
    + unfold request.
      destruct (modifyLanguage client (lm_codename ex) [ReplaceIsActive true] h).
      * destruct (lang_is_default l);
          [|simpl; split; [lia|intros e [<-|[]]; left; apply Hact; auto]].
        destruct (find (fun m => String.eqb (lm_id m) (lang_id l)) cur) as [d|];
          [|simpl; split; [lia|intros e [<-|[]]; left; apply Hact; auto]].
        destruct (negb _); simpl; split; try lia;
          intros e [<-|[]]; left; apply Hact; auto.
      * simpl. split; [lia|]. intros e [<-|[]]. left. apply Hact; auto.
  - (* no target language has the codename: no activation *)
    rewrite bind_ret.
    destruct (lang_is_default l) eqn:Ed; [|simpl; split; [lia|intros e []]].
    destruct (find (fun m => String.eqb (lm_id m) (lang_id l)) cur) as [d|] eqn:Ei;
      [|simpl; split; [lia|intros e []]].
    destruct (negb (String.eqb (lang_codename l) (lm_codename d))) eqn:En;
      [|simpl; split; [lia|intros e []]].
    assert (Hren : forall e,
               e = Call (ModifyLanguage (lm_codename d)
                           [ReplaceCodename (lang_codename l)]) ->
               exists d, e = Call (renaming d l) /\
                 true = true /\ In d cur /\ lm_id d = lang_id l /\
                 lm_codename d <> lang_codename l /\
                 forall m, In m cur -> lm_codename m <> lang_codename l).
    { intros e ->. exists d. apply find_some in Ei. destruct Ei as [Hd Hid].
      apply String.eqb_eq in Hid.
      apply negb_true_iff, String.eqb_neq in En.
      repeat split; auto.
      intros m Hm Hcm. eapply find_none in Ec; [|exact Hm]. simpl in Ec.
      rewrite Hcm, String.eqb_refl in Ec. discriminate. }
    unfold request.
    destruct (modifyLanguage client (lm_codename d) _ h); simpl;
      (split; [lia|intros e [<-|[]]; right; apply Hren; reflexivity]).
Qed.

(** X1 on the sample languages: English renames the default language of
    the target, German activates the inactive one. *)
Lemma fixLanguageAsync_at_most_one_request_witness :
  let client := Sample.acceptingClient FixLanguages.target in
  snd (fixLanguageAsync client FixLanguages.target Sample.english [])
  = [Call (ModifyLanguage "en-GB" [ReplaceCodename "en-US"])] /\
  snd (fixLanguageAsync client FixLanguages.target Sample.german [])
  = [Call (activation Sample.german)] /\
  (forall e,
     In e (snd (fixLanguageAsync client FixLanguages.target Sample.german [])) ->
     e = Call (activation Sample.german)).
Proof.
  cbv zeta. split; [reflexivity|]. split; [reflexivity|].
  intros e He.
  destruct (fixLanguageAsync_at_most_one_request
              (Sample.acceptingClient FixLanguages.target) FixLanguages.target
              Sample.german []) as [_ Hone].
  destruct (Hone e He) as [[-> _]|(d & _ & Hdefault & _)].
  - reflexivity.
  - discriminate Hdefault.
Defined.

(** X2.  For an imported language flagged as default whose id no target
    language has, [fixLanguageAsync] throws: the error names the id, unless
    the activation that comes first was rejected.  The activation, when
    there is one, has been sent before the error. *)
Theorem fixLanguageAsync_invalid_default :
  forall client currentLanguages importLanguage h,
    let run := fixLanguageAsync client currentLanguages importLanguage h in
    lang_is_default importLanguage = true ->
    (forall m, In m currentLanguages -> lm_id m <> lang_id importLanguage) ->
    (fst run = Throw (InvalidDefaultExistingLanguage (lang_id importLanguage)) \/
     (fst run = Throw (RequestFailed (activation importLanguage)) /\
      modifyLanguage client (lang_codename importLanguage) [ReplaceIsActive true] h
      = None)) /\
    (snd run = [] \/ snd run = [Call (activation importLanguage)]).
Proof.
  intros client cur l h run Hdefault Hnone. subst run.
  unfold fixLanguageAsync. rewrite Hdefault.
  assert (Hid : find (fun m => String.eqb (lm_id m) (lang_id l)) cur = None).
  { destruct (find _ cur) as [d|] eqn:E; [|reflexivity].
    apply find_some in E. destruct E as [Hd Hid]. apply String.eqb_eq in Hid.
    exfalso. eapply Hnone; eassumption. }
  rewrite Hid. rewrite bind_run.
  destruct (find (fun m => String.eqb (lm_codename m) (lang_codename l)) cur)
    as [ex|] eqn:Ec; [|simpl; auto].
  apply find_some in Ec. destruct Ec as [_ Hc]. apply String.eqb_eq in Hc.
  unfold activation. rewrite <- Hc.
  destruct (lm_isActive ex); simpl; [auto|].
  unfold request.
  destruct (modifyLanguage client (lm_codename ex) [ReplaceIsActive true] h);
    simpl; auto.
Qed.

(** X2 on a language flagged as default whose id the target does not
    have. *)
Lemma fixLanguageAsync_invalid_default_witness :
  fixLanguageAsync (Sample.acceptingClient FixLanguages.target)
    FixLanguages.target FixLanguages.stray []
  = (Throw (InvalidDefaultExistingLanguage "l-xx"), []).
Proof.
  destruct (@fixLanguageAsync_invalid_default
              (Sample.acceptingClient FixLanguages.target)
              FixLanguages.target FixLanguages.stray [])
    as [[Hthrow|[_ Hrejected]] _].
  - reflexivity.
  - intros m [<-|[<-|[]]]; discriminate.
  - reflexivity.
  - discriminate Hrejected.
Defined.

(** X3.  [tryGetLanguage] answers ['noImport'] exactly when a language of
    the target has the codename of the imported language, whatever else the
    language holds.  The data it answers otherwise carry the codename, name,
    external id and activity of the imported language, and refer to the
    fallback language by its codename, or by the id of the default language
    when the language is its own fallback. *)
Theorem tryGetLanguage_known_codename :
  forall currentLanguages importLanguage,
    (tryGetLanguage currentLanguages importLanguage = Ok None <->
     exists m, In m currentLanguages /\
               lm_codename m = lang_codename importLanguage) /\
    (forall data,
       tryGetLanguage currentLanguages importLanguage = Ok (Some data) ->
       ald_codename data = lang_codename importLanguage /\
       ald_name data = lang_name importLanguage /\
       ald_external_id data = lang_external_id importLanguage /\
       ald_is_active data = lang_is_active importLanguage /\
       exists fallback codename,
         lang_fallback_language importLanguage = Some fallback /\
         truthy (ref_codename fallback) = Some codename /\
         ald_fallback_language data
         = if String.eqb (lang_codename importLanguage) codename
           then FallbackById defaultLanguageId
           else FallbackByCodename codename).
Proof.
  intros cur l. unfold tryGetLanguage.
  destruct (find (fun m => String.eqb (lm_codename m) (lang_codename l)) cur)
    as [ex|] eqn:Ec.
  - split; [|discriminate]. split; [|reflexivity]. intros _.
    apply find_some in Ec. destruct Ec as [Hex Hc]. apply String.eqb_eq in Hc.
    exists ex. auto.
  - assert (Hnone : ~ exists m, In m cur /\ lm_codename m = lang_codename l).
    { intros (m & Hm & Hc). eapply find_none in Ec; [|exact Hm]. simpl in Ec.
      rewrite Hc, String.eqb_refl in Ec. discriminate. }
    cbv zeta.
    destruct (if String.eqb (lang_id l) defaultLanguageId then _ else None)
      as [t|].
    { split; [split; [discriminate|intros H; contradiction]|discriminate]. }
    destruct (lang_fallback_language l) as [fallback|].
    2: { split; [split; [discriminate|intros H; contradiction]|discriminate]. }
    destruct (truthy (ref_codename fallback)) as [fc|] eqn:Ef.
    2: { split; [split; [discriminate|intros H; contradiction]|discriminate]. }
    split; [split; [discriminate|intros H; contradiction]|].
    intros data H. inversion H; subst data; simpl.
    repeat split. exists fallback, fc. auto.
Qed.

(** X3 on the English of the sample project, which the target has. *)
Lemma tryGetLanguage_known_codename_witness :
  tryGetLanguage Sample.target Sample.english = Ok None.
Proof.
  apply (tryGetLanguage_known_codename Sample.target Sample.english).
  eexists. split; [left; reflexivity|reflexivity].
Defined.

(** *** The languages stage *)

Lemma tryGetLanguage_noImport : forall currentLanguages importLanguage,
  tryGetLanguage currentLanguages importLanguage = Ok None <->
  knownCodename currentLanguages importLanguage = true.
Proof.
  intros cur l. rewrite find_codename_known. unfold tryGetLanguage.
  destruct (find (fun m => String.eqb (lm_codename m) (lang_codename l)) cur)
    as [ex|].
  - split; [discriminate|reflexivity].
  - cbv zeta.
    destruct (if String.eqb (lang_id l) defaultLanguageId then _ else None);
      [split; [discriminate|congruence]|].
    destruct (lang_fallback_language l) as [fallback|];
      [|split; [discriminate|congruence]].
    destruct (truthy (ref_codename fallback));
      split; try discriminate; congruence.
Qed.

Lemma tryGetLanguage_data : forall currentLanguages importLanguage data,
  tryGetLanguage currentLanguages importLanguage = Ok (Some data) ->
  knownCodename currentLanguages importLanguage = false.
Proof.
  intros cur l data H.
  destruct (knownCodename cur l) eqn:E; [|reflexivity].
  apply tryGetLanguage_noImport in E. congruence.
Qed.

Section LanguagesStage.
Variable client : ManagementClient.
Variable config : ImportConfig.

Lemma importLanguagesLoop_without_fix : forall ls current h rs e,
  fixLanguages config = false ->
  importLanguagesLoop client config ls current h = (Ok rs, e) ->
  map (fun r => original r) rs
  = filter (fun l => negb (knownCodename current l)) ls /\
  calls e = flat_map (addLanguageRequest current) ls /\
  length (calls e) = length rs.
Proof.
  induction ls as [|l rest IH]; intros current h rs e Hfix H; simpl in H.
  - unfold ret in H. inversion H; subst. auto.
  - rewrite Hfix, bind_ret in H.
    apply bind_Ok_inv in H. destruct H as (data & e1 & q1 & H1 & H & ->).
    unfold lift in H1. inversion H1 as [[Hdata He1]]. subst e1. clear H1.
    simpl. unfold addLanguageRequest at 1. rewrite Hdata.
    destruct data as [data|].
    + rewrite (tryGetLanguage_data _ _ Hdata). simpl.
      apply bind_Ok_inv in H. destruct H as (resp & e3 & q3 & Hadd & H & ->).
      apply request_Ok_inv in Hadd. destruct Hadd as [_ ->].
      apply bind_Ok_inv in H. destruct H as (u & e4 & q4 & Hcb & H & ->).
      apply processItem_Ok_inv in Hcb.
      apply bind_Ok_inv in H. destruct H as (more & e5 & q5 & Hrest & H & ->).
      unfold ret in H. inversion H; subst. simpl.
      apply IH in Hrest; [|assumption]. destruct Hrest as (Ho & Hc & Hn).
      rewrite !calls_app, Hcb, Ho, app_nil_r. simpl. rewrite <- Hc.
      auto.
    + apply tryGetLanguage_noImport in Hdata. rewrite Hdata. simpl.
      apply IH in H; assumption.
Qed.

Lemma fixLanguageAsync_notListing : forall current language,
  emits notListing (fixLanguageAsync client current language).
Proof. intros. unfold fixLanguageAsync. emits_auto. Qed.

Lemma notListing_count : forall events,
  Forall notListing events -> filter isListLanguages (calls events) = [].
Proof.
  intros events H. induction H as [|e l He Hl IH]; [reflexivity|].
  change (calls (e :: l)) with (requestOf e ++ calls l).
  rewrite filter_app, IH, app_nil_r.
  destruct e as [[]| |]; simpl; try reflexivity. destruct He.
Qed.

Lemma importLanguagesLoop_with_fix : forall ls current h rs e,
  fixLanguages config = true ->
  importLanguagesLoop client config ls current h = (Ok rs, e) ->
  length (filter isListLanguages (calls e)) = length ls.
Proof.
  induction ls as [|l rest IH]; intros current h rs e Hfix H; simpl in H.
  - unfold ret in H. inversion H; subst. reflexivity.
  - rewrite Hfix in H.
    apply bind_Ok_inv in H. destruct H as (current' & e1 & q1 & H1 & H & ->).
    apply bind_Ok_inv in H1. destruct H1 as (u & ef & el & Hf & Hl & ->).
    apply request_Ok_inv in Hl. destruct Hl as [_ ->].
    assert (Hnone : filter isListLanguages (calls ef) = []).
    { apply notListing_count. replace ef with (snd (Ok u, ef)) by reflexivity.
      rewrite <- Hf. apply fixLanguageAsync_notListing. }
    apply bind_Ok_inv in H. destruct H as (data & e2 & q2 & H2 & H & ->).
    unfold lift in H2. inversion H2; subst e2. clear H2.
    rewrite !calls_app, !filter_app, !length_app, Hnone. simpl.
    destruct data as [data|].
    + apply bind_Ok_inv in H. destruct H as (resp & e3 & q3 & Hadd & H & ->).
      apply request_Ok_inv in Hadd. destruct Hadd as [_ ->].
      apply bind_Ok_inv in H. destruct H as (u' & e4 & q4 & Hcb & H & ->).
      apply processItem_Ok_inv in Hcb.
      apply bind_Ok_inv in H. destruct H as (more & e5 & q5 & Hrest & H & ->).
      unfold ret in H. inversion H; subst.
      apply IH in Hrest; [|assumption].
      rewrite !calls_app, !filter_app, !length_app, Hcb, Hrest. simpl. lia.
    + apply IH in H; [|assumption]. rewrite H. reflexivity.
Qed.
End LanguagesStage.

(** X4.  Without the fix mode, a languages stage that runs to its end has
    listed the languages of the target once, before the loop, and has added
    exactly the languages of the source whose codename that list does not
    hold, in their order; the stage answers one entry for each of them and
    none for a language the target already has.  The list is not read
    again, so a language added by the run itself is not seen by the
    rounds after it. *)
Theorem importLanguagesAsync_without_fix :
  forall client config languages h rs events,
    fixLanguages config = false ->
    importLanguagesAsync client config languages h = (Ok rs, events) ->
    exists currentLanguages,
      listLanguages client h = Some currentLanguages /\
      map (fun r => original r) rs
      = filter (fun l => negb (knownCodename currentLanguages l)) languages /\
      calls events
      = ListLanguages :: flat_map (addLanguageRequest currentLanguages) languages /\
      length (calls events) = 1 + length rs.
Proof.
  intros client config ls h rs events Hfix H. unfold importLanguagesAsync in H.
  apply bind_Ok_inv in H. destruct H as (current & e1 & q1 & H1 & H & ->).
  apply request_Ok_inv in H1. destruct H1 as [Hlist ->].
  exists current. split; [exact Hlist|].
  apply importLanguagesLoop_without_fix in H; [|assumption].
  destruct H as (Ho & Hc & Hn). rewrite calls_app. simpl.
  rewrite Ho, Hc. rewrite <- Hn, Hc. auto.
Qed.

(** X4 on the languages of the sample project: English is in the target
    and is skipped, German is added. *)
Lemma importLanguagesAsync_without_fix_witness :
  exists rs events,
    importLanguagesAsync (Sample.acceptingClient Sample.target) Sample.config
      (languages (importData (translateIds SpecCore.core Sample.source))) []
    = (Ok rs, events) /\
    map (fun r => lang_codename (original r)) rs = ["de-DE"] /\
    length (calls events) = 2.
Proof.
  assert (Hrun : exists rs events,
             importLanguagesAsync (Sample.acceptingClient Sample.target)
               Sample.config
               (languages (importData (translateIds SpecCore.core Sample.source)))
               [] = (Ok rs, events)).
  { eexists. eexists. vm_compute. reflexivity. }
  destruct Hrun as (rs & events & Hrun). exists rs, events.
  split; [exact Hrun|].
  destruct (@importLanguagesAsync_without_fix _ Sample.config _ _ _ _ eq_refl Hrun)
    as (current & Hlist & Ho & _ & Hn).
  simpl in Hlist. inversion Hlist; subst current.
  split.
  - rewrite <- (map_map (fun r => original r) lang_codename), Ho.
    vm_compute. reflexivity.
  - rewrite Hn.
    rewrite <- (length_map (fun r => original r)), Ho. vm_compute. reflexivity.
Defined.

(** X5.  With the fix mode, a languages stage that runs to its end has
    listed the languages of the target once before the loop and once more
    in every round, after the fix of the language of the round. *)
Theorem importLanguagesAsync_with_fix :
  forall client config languages h rs events,
    fixLanguages config = true ->
    importLanguagesAsync client config languages h = (Ok rs, events) ->
    length (filter isListLanguages (calls events)) = 1 + length languages.
Proof.
  intros client config ls h rs events Hfix H. unfold importLanguagesAsync in H.
  apply bind_Ok_inv in H. destruct H as (current & e1 & q1 & H1 & H & ->).
  apply request_Ok_inv in H1. destruct H1 as [_ ->].
  apply importLanguagesLoop_with_fix in H; [|assumption].
  rewrite calls_app, filter_app, length_app, H. reflexivity.
Qed.

(** X5 on the two languages of the sample project: three requests for
    the languages of the target. *)
Lemma importLanguagesAsync_with_fix_witness :
  exists rs events,
    importLanguagesAsync (Sample.acceptingClient Sample.target)
      FixLanguages.config
      (languages (importData (translateIds SpecCore.core Sample.source))) []
    = (Ok rs, events) /\
    length (filter isListLanguages (calls events)) = 3.
Proof.
  assert (Hrun : exists rs events,
             importLanguagesAsync (Sample.acceptingClient Sample.target)
               FixLanguages.config
               (languages (importData (translateIds SpecCore.core Sample.source)))
               [] = (Ok rs, events)).
  { eexists. eexists. vm_compute. reflexivity. }
  destruct Hrun as (rs & events & Hrun). exists rs, events.
  split; [exact Hrun|].
  apply (@importLanguagesAsync_with_fix _ FixLanguages.config _ _ _ _ eq_refl Hrun).
Defined.

Section LanguagesWithoutFix.
Variable client : ManagementClient.
Variable config : ImportConfig.
Hypothesis noFix : fixLanguages config = false.

(** One round of the loop of [importLanguagesAsync] without the fix mode,
    written out. *)
Lemma importLanguagesLoop_cons : forall l rest current h,
  importLanguagesLoop client config (l :: rest) current h
  = match tryGetLanguage current l with
    | Throw e => (Throw e, [])
    | Ok None => importLanguagesLoop client config rest current h
    | Ok (Some data) =>
        match addLanguage client data h with
        | None => (Throw (RequestFailed (AddLanguage data)),
                   [Call (AddLanguage data)])
        | Some response =>
            let events :=
              Call (AddLanguage data)
              :: (if onImport config
                  then [OnImport (lm_name response) AtLanguage] else []) in
            match importLanguagesLoop client config rest current (h ++ events) with
            | (Ok importedItems, more) =>
                (Ok ({| imported := response; original := l;
                        importId := lm_id response;
                        originalId := lang_id l |} :: importedItems),
                 events ++ more)
            | (Throw e, more) => (Throw e, events ++ more)
            end
        end
    end.
Proof.
  intros l rest current h. simpl importLanguagesLoop.
  rewrite noFix, bind_ret, bind_run. unfold lift.
  destruct (tryGetLanguage current l) as [[data|]|e]; [| |reflexivity].
  - rewrite app_nil_r. rewrite bind_run. unfold request.
    destruct (addLanguage client data h) as [response|]; [|reflexivity].
    rewrite bind_run, processItem_run. rewrite bind_run. cbv zeta.
    rewrite <- app_assoc. simpl.
    destruct (importLanguagesLoop client config rest current _)
      as [[items|e] more]; simpl; rewrite ?app_nil_r; reflexivity.
  - rewrite app_nil_r.
    destruct (importLanguagesLoop client config rest current h); reflexivity.
Qed.

Lemma importLanguagesLoop_first_error : forall before l after current e h,
  tryGetLanguage current l = Throw e ->
  importLanguagesLoop client config (before ++ l :: after) current h
  = match importLanguagesLoop client config before current h with
    | (Ok _, events) => (Throw e, events)
    | (Throw e', events) => (Throw e', events)
    end.
Proof.
  induction before as [|x rest IH]; intros l after current e h Hl.
  - simpl app. rewrite importLanguagesLoop_cons, Hl. reflexivity.
  - simpl app. rewrite !importLanguagesLoop_cons.
    destruct (tryGetLanguage current x) as [[data|]|e']; [| |reflexivity].
    + destruct (addLanguage client data h) as [response|]; [|reflexivity].
      cbv zeta. rewrite (IH _ _ _ _ _ Hl).
      destruct (importLanguagesLoop client config rest current _)
        as [[items|e'] more]; reflexivity.
    + apply IH. exact Hl.
Qed.
End LanguagesWithoutFix.

(** X6.  Without the fix mode, a language for which [tryGetLanguage]
    throws against the languages the target listed makes the languages
    stage throw that error at the language: the stage does what it does on
    the languages before it, which may have been added already, and sends
    nothing for the language or a later one.  This is the case of a
    language that the target does not have and whose fallback language
    carries no codename, or that has no fallback language at all, when the
    language has not the id of the default language. *)
Theorem importLanguagesAsync_first_error :
  forall client config,
    fixLanguages config = false ->
    (forall before l after h currentLanguages e,
       listLanguages client h = Some currentLanguages ->
       tryGetLanguage currentLanguages l = Throw e ->
       importLanguagesAsync client config (before ++ l :: after) h
       = match importLanguagesAsync client config before h with
         | (Ok _, events) => (Throw e, events)
         | (Throw e', events) => (Throw e', events)
         end) /\
    (forall currentLanguages l,
       knownCodename currentLanguages l = false ->
       lang_id l <> defaultLanguageId ->
       (lang_fallback_language l = None ->
        tryGetLanguage currentLanguages l = Throw TypeError) /\
       (forall fallback,
          lang_fallback_language l = Some fallback ->
          truthy (ref_codename fallback) = None ->
          tryGetLanguage currentLanguages l
          = Throw (LanguageHasUnsetCodename (lang_name l)))).
Proof.
  intros client config Hfix. split.
  - intros before l after h current e Hlist Hl. unfold importLanguagesAsync.
    rewrite !bind_run. unfold request. rewrite Hlist.
    rewrite (@importLanguagesLoop_first_error client config Hfix _ _ _ _ _ _ Hl).
    destruct (importLanguagesLoop client config before current _)
      as [[items|e'] more]; reflexivity.
  - intros current l Hknown Hid. unfold tryGetLanguage.
    destruct (find (fun m => String.eqb (lm_codename m) (lang_codename l)) current)
      eqn:Ef.
    { assert (knownCodename current l = true).
      { apply find_codename_known. rewrite Ef. discriminate. }
      congruence. }
    apply String.eqb_neq in Hid. rewrite Hid. cbv zeta. split.
    + intros ->. reflexivity.
    + intros fallback -> ->. reflexivity.
Qed.

(** X6 on German followed by French, French without the codename of
    its fallback language: German is added, then the stage throws. *)
Lemma importLanguagesAsync_first_error_witness :
  let run :=
    importLanguagesAsync (Sample.acceptingClient Sample.target) Sample.config
      ([UnsetFallback.germanWithFallback] ++ UnsetFallback.french :: []) [] in
  fst run = Throw (LanguageHasUnsetCodename "French") /\
  length (calls (snd run)) = 2.
Proof.
  cbv zeta.
  destruct (@importLanguagesAsync_first_error
              (Sample.acceptingClient Sample.target) Sample.config eq_refl)
    as [Hstage _].
  rewrite (Hstage [UnsetFallback.germanWithFallback] UnsetFallback.french []
             [] Sample.target (LanguageHasUnsetCodename "French")).
  - split; reflexivity.
  - reflexivity.
  - reflexivity.
Defined.

(* ================================================================= *)
(** ** Further properties: the removal of the skipped items *)

Lemma removeSkipped_In : forall A (shouldImport : A -> bool)
    (keeps : A -> A -> bool) collection m,
  In m (removeSkipped shouldImport keeps collection) <->
  In m collection /\
  forall item, In item collection -> shouldImport item = false ->
               keeps item m = true.
Proof.
  intros A shouldImport keeps collection m. unfold removeSkipped.
  rewrite removeSkipped_filter, filter_In, forallb_forall.
  split; intros [Hm Hall]; (split; [exact Hm|]).
  - intros item Hitem Hrejected. specialize (Hall item Hitem).
    rewrite Hrejected in Hall. exact Hall.
  - intros item Hitem. destruct (shouldImport item) eqn:E; [reflexivity|].
    simpl. apply Hall; assumption.
Qed.

Lemma otherId_true : forall A (id : A -> string) item m,
  otherId id item m = true <-> id item <> id m.
Proof.
  intros A id item m. unfold otherId. rewrite negb_true_iff, String.eqb_neq.
  split; intros H E; apply H; symmetry; exact E.
Qed.

Lemma otherVariant_true : forall item m,
  otherVariant item m = true <->
  ref_id (lv_item item) <> ref_id (lv_item m) /\
  ref_id (lv_language item) <> ref_id (lv_language m).
Proof.
  intros item m. unfold otherVariant.
  rewrite andb_true_iff, !negb_true_iff, !String.eqb_neq.
  split; intros [H1 H2]; split; congruence.
Qed.

(** X7.  A loop of [removeSkippedItemsFromImport] over a kind filtered by
    id keeps an entity exactly when the predicate accepts every entity of
    the collection that has its id, itself included; the loop over the
    language variants keeps a variant exactly when the predicate accepts
    every variant that has its item or its language.  Either way what is
    kept is accepted, and it stays in the order of the collection. *)
Theorem removeSkippedOf_kept :
  forall config p,
    process config = Some p ->
    (forall A (predicate : ProcessConfig -> option (A -> bool))
            (id : A -> string) shouldImport collection,
       predicate p = Some shouldImport ->
       let kept := removeSkippedOf config predicate (otherId id) collection in
       (forall m, In m kept <->
          In m collection /\
          forall item, In item collection -> id item = id m ->
                       shouldImport item = true) /\
       (exists keep, kept = filter keep collection)) /\
    (forall shouldImport collection,
       p_languageVariant p = Some shouldImport ->
       let kept := removeSkippedOf config p_languageVariant otherVariant collection in
       (forall m, In m kept <->
          In m collection /\
          forall item, In item collection ->
            ref_id (lv_item item) = ref_id (lv_item m) \/
            ref_id (lv_language item) = ref_id (lv_language m) ->
            shouldImport item = true) /\
       (exists keep, kept = filter keep collection)).
Proof.
  intros config p Hp. split.
  - intros A predicate id shouldImport collection Hpred kept. subst kept.
    unfold removeSkippedOf. rewrite Hp, Hpred. split.
    + intros m. rewrite removeSkipped_In.
      split; intros [Hm Hall]; (split; [exact Hm|]).
      * intros item Hitem Hid.
        destruct (shouldImport item) eqn:E; [reflexivity|].
        apply (Hall item Hitem) in E. apply otherId_true in E. contradiction.
      * intros item Hitem Hrejected. apply otherId_true. intros Hid.
        rewrite (Hall item Hitem Hid) in Hrejected. discriminate.
    + unfold removeSkipped. rewrite removeSkipped_filter. eexists. reflexivity.
  - intros shouldImport collection Hpred kept. subst kept.
    unfold removeSkippedOf. rewrite Hp, Hpred. split.
    + intros m. rewrite removeSkipped_In.
      split; intros [Hm Hall]; (split; [exact Hm|]).
      * intros item Hitem Hsame.
        destruct (shouldImport item) eqn:E; [reflexivity|].
        apply (Hall item Hitem) in E. apply otherVariant_true in E.
        destruct E as [E1 E2]. destruct Hsame; contradiction.
      * intros item Hitem Hrejected. apply otherVariant_true.
        split; intros Hid;
          rewrite (Hall item Hitem) in Hrejected; auto; discriminate.
    + unfold removeSkipped. rewrite removeSkipped_filter. eexists. reflexivity.
Qed.

(** X7 on two items with one id: the accepted one goes with the rejected
    one, the item with an id of its own stays. *)
Lemma removeSkippedOf_kept_witness :
  let kept :=
    removeSkippedOf DuplicateIds.config p_contentItem (otherId ci_id)
      [DuplicateIds.master; Sample.home; DuplicateIds.duplicate] in
  In Sample.home kept /\ ~ In DuplicateIds.master kept.
Proof.
  cbv zeta.
  destruct (@removeSkippedOf_kept DuplicateIds.config DuplicateIds.skipCopies
              eq_refl) as [Hid _].
  destruct (Hid _ p_contentItem ci_id DuplicateIds.shouldImport
              [DuplicateIds.master; Sample.home; DuplicateIds.duplicate] eq_refl)
    as [Hkept _].
  split.
  - apply Hkept. split; [right; left; reflexivity|].
    intros item [<-|[<-|[<-|[]]]] Hsame; try reflexivity; discriminate Hsame.
  - intros Hin. apply Hkept in Hin. destruct Hin as [_ Hall].
    specialize (Hall DuplicateIds.duplicate (or_intror (or_intror (or_introl eq_refl)))
                     eq_refl).
    discriminate Hall.
Defined.

Lemma filter_accepted_none : forall A (l : list A),
  filter (accepted None) l = l.
Proof.
  intros A l. induction l as [|x rest IH]; simpl; congruence.
Qed.

Lemma removeSkippedOf_accepted : forall A config p
    (predicate : ProcessConfig -> option (A -> bool)) (id : A -> string) collection,
  process config = Some p ->
  NoDup (map id collection) ->
  removeSkippedOf config predicate (otherId id) collection
  = filter (accepted (predicate p)) collection.
Proof.
  intros A config p predicate id collection Hp Hnd.
  rewrite removeSkippedOf_by_id by assumption. rewrite Hp.
  destruct (predicate p) as [shouldImport|].
  - reflexivity.
  - symmetry. apply filter_accepted_none.
Qed.

(** X8.  Without predicates [removeSkippedItemsFromImport] leaves the
    source as it is.  With predicates, and ids that are pairwise distinct
    within each collection, every collection filtered by id holds
    afterwards exactly the entities its predicate accepts, in their order:
    for the asset folders these are the folders at the top of the tree
    only, the folders below are not asked about.  The workflow steps and the
    binary files are never filtered. *)
Theorem removeSkippedItemsFromImport_distinct_ids :
  forall config source,
    let data := importData source in
    let prepared := removeSkippedItemsFromImport config source in
    (process config = None -> prepared = source) /\
    (forall p, process config = Some p ->
       NoDup (map lang_id (languages data)) ->
       NoDup (map tax_id (taxonomies data)) ->
       NoDup (map cts_id (contentTypeSnippets data)) ->
       NoDup (map ct_id (contentTypes data)) ->
       NoDup (map a_id (assets data)) ->
       NoDup (map ci_id (contentItems data)) ->
       NoDup (map afc_id (assetFolders source)) ->
       languages (importData prepared)
       = filter (accepted (p_language p)) (languages data) /\
       taxonomies (importData prepared)
       = filter (accepted (p_taxonomy p)) (taxonomies data) /\
       contentTypeSnippets (importData prepared)
       = filter (accepted (p_contentTypeSnippet p)) (contentTypeSnippets data) /\
       contentTypes (importData prepared)
       = filter (accepted (p_contentType p)) (contentTypes data) /\
       assets (importData prepared)
       = filter (accepted (p_asset p)) (assets data) /\
       contentItems (importData prepared)
       = filter (accepted (p_contentItem p)) (contentItems data) /\
       assetFolders prepared
       = filter (accepted (p_assetFolder p)) (assetFolders source)) /\
    workflowSteps (importData prepared) = workflowSteps data /\
    binaryFiles prepared = binaryFiles source.
Proof.
  intros config source data prepared. subst data prepared. split; [|split].
  - intros Hnone. unfold removeSkippedItemsFromImport, removeSkippedOf.
    rewrite Hnone. destruct source as [[] ? ?]. reflexivity.
  - intros p Hp Hl Ht Hn Hc Ha Hi Hf. simpl.
    rewrite !(@removeSkippedOf_accepted _ config p) by assumption.
    repeat split.
  - split; reflexivity.
Qed.

(** X8 on the sample project with a predicate that rejects the content
    item [about]. *)
Lemma removeSkippedItemsFromImport_distinct_ids_witness :
  let config :=
    {| enablePublish := false; workflowIdForImportedItems := None;
       fixLanguages := false;
       process :=
         Some {| p_asset := None; p_language := None; p_assetFolder := None;
                 p_contentType := None;
                 p_contentItem :=
                   Some (fun i => negb (String.eqb (ci_codename i) "about"));
                 p_contentTypeSnippet := None; p_languageVariant := None;
                 p_taxonomy := None |};
       onImport := false; onUnsupportedBinaryFile := false |} in
  contentItems (importData (removeSkippedItemsFromImport config Sample.source))
  = [Sample.home] /\
  assets (importData (removeSkippedItemsFromImport config Sample.source))
  = [Sample.logo; Sample.film].
Proof.
  cbv zeta.
  match goal with
  | |- contentItems (importData (removeSkippedItemsFromImport ?c _)) = _ /\ _ =>
      destruct (removeSkippedItemsFromImport_distinct_ids c Sample.source)
        as (_ & Hsome & _)
  end.
  cbv zeta in Hsome.
  edestruct Hsome as (_ & _ & _ & _ & Ha & Hi & _);
    [reflexivity
    |vm_compute; repeat constructor; simpl; intuition discriminate ..|].
  rewrite Hi, Ha. split; reflexivity.
Defined.

(* ================================================================= *)
(** ** Further properties: the loops of the stages *)

(** *** The stages that send one request for each entity *)

Section SimpleStages.
Variable client : ManagementClient.
Variable config : ImportConfig.

(** A round made of one request, the callback and the push, written out. *)
Lemma simple_round_run : forall Resp T rq (answer : list Event -> option Resp)
    (title : Resp -> string) type (entry : Resp -> T) h,
  (response <- request rq answer ;;
   processItem config (title response) type ;;;
   ret [entry response]) h
  = match answer h with
    | None => (Throw (RequestFailed rq), [Call rq])
    | Some response =>
        (Ok [entry response],
         Call rq :: (if onImport config
                     then [OnImport (title response) type] else []))
    end.
Proof.
  intros Resp T rq answer title type entry h.
  rewrite bind_run. unfold request.
  destruct (answer h) as [response|]; [|reflexivity].
  rewrite bind_run, processItem_run. unfold ret. rewrite app_nil_r.
  reflexivity.
Qed.

Lemma forEach_sentInOrder : forall A Resp T (rq : A -> Request)
    (answer : A -> list Event -> option Resp) (title : Resp -> string) type
    (entry : A -> Resp -> T) xs h,
  sentInOrder rq xs
    (forEach (fun x =>
                response <- request (rq x) (answer x) ;;
                processItem config (title response) type ;;;
                ret [entry x response]) xs h).
Proof.
  intros A Resp T rq answer title type entry.
  induction xs as [|x rest IH]; intros h.
  - unfold sentInOrder. simpl. auto.
  - simpl forEach. rewrite bind_run.
    rewrite (simple_round_run (rq x) (answer x) title type (entry x) h).
    destruct (answer x h) as [response|].
    + rewrite bind_run.
      match goal with
      | |- context [forEach ?body rest ?hh] =>
          specialize (IH hh); destruct (forEach body rest hh) as [[rs|e] ev]
      end; unfold sentInOrder in *; simpl in *.
      * destruct IH as [Hc Hl]. rewrite app_nil_r.
        assert (Hcalls : forall l,
                   calls ((if onImport config
                           then [OnImport (title response) type] else []) ++ l)
                   = calls l).
        { intros l. destruct (onImport config); reflexivity. }
        rewrite Hcalls, Hc, Hl. auto.
      * destruct IH as (before & y & after & -> & -> & Hc).
        exists (x :: before), y, after. repeat split.
        assert (Hcalls : forall l,
                   calls ((if onImport config
                           then [OnImport (title response) type] else []) ++ l)
                   = calls l).
        { intros l. destruct (onImport config); reflexivity. }
        rewrite Hcalls, Hc. reflexivity.
    + unfold sentInOrder. simpl. exists [], x, rest. auto.
Qed.
End SimpleStages.

(** X9.  The stages of the taxonomies, of the content-type snippets and
    of the content types send one request for each entity, in the order of
    the collection, and stop at the first request the target rejects: its
    failure is the error of the stage, and the entities after it are never
    sent.  A taxonomy and a content type are sent as they are; of a snippet
    only the elements, the name, the codename and the external id are sent.
    The stages have no error of their own. *)
Theorem importTaxonomiesAsync_in_order :
  forall client config h,
    (forall taxonomies,
       sentInOrder AddTaxonomy taxonomies
         (importTaxonomiesAsync client config taxonomies h)) /\
    (forall contentTypeSnippets,
       sentInOrder (fun s => AddContentTypeSnippet (snippetData s))
         contentTypeSnippets
         (importContentTypeSnippetsAsync client config contentTypeSnippets h)) /\
    (forall contentTypes,
       sentInOrder AddContentType contentTypes
         (importContentTypesAsync client config contentTypes h)).
Proof.
  intros client config h. split; [|split].
  - intros ts. unfold importTaxonomiesAsync.
    apply (@forEach_sentInOrder config _ _ _ AddTaxonomy (addTaxonomy client)
             tm_name AtTaxonomy
             (fun taxonomy response =>
                {| imported := response; original := taxonomy;
                   importId := tm_id response;
                   originalId := tax_id taxonomy |})).
  - intros ss. unfold importContentTypeSnippetsAsync.
    apply (@forEach_sentInOrder config _ _ _
             (fun s => AddContentTypeSnippet (snippetData s))
             (fun s => addContentTypeSnippet client (snippetData s))
             ctm_name AtContentTypeSnippet
             (fun contentTypeSnippet response =>
                {| imported := response; original := contentTypeSnippet;
                   importId := ctm_id response;
                   originalId := cts_id contentTypeSnippet |})).
  - intros ts. unfold importContentTypesAsync.
    apply (@forEach_sentInOrder config _ _ _ AddContentType
             (addContentType client) ctm_name AtContentType
             (fun contentType response =>
                {| imported := response; original := contentType;
                   importId := ctm_id response;
                   originalId := ct_id contentType |})).
Qed.

(** X9 on three taxonomies against a target that rejects the second:
    the third is never sent. *)
Lemma importTaxonomiesAsync_in_order_witness :
  calls (snd (importTaxonomiesAsync RejectedTaxonomy.client Sample.config
                [Sample.tags; RejectedTaxonomy.topics; RejectedTaxonomy.places]
                []))
  = [AddTaxonomy Sample.tags; AddTaxonomy RejectedTaxonomy.topics].
Proof.
  destruct (importTaxonomiesAsync_in_order RejectedTaxonomy.client
              Sample.config []) as [Hstage _].
  specialize (Hstage [Sample.tags; RejectedTaxonomy.topics;
                      RejectedTaxonomy.places]).
  unfold sentInOrder in Hstage.
  destruct (importTaxonomiesAsync RejectedTaxonomy.client Sample.config
              [Sample.tags; RejectedTaxonomy.topics; RejectedTaxonomy.places] [])
    as [[rs|e] events] eqn:E; simpl in Hstage.
  - vm_compute in E. discriminate E.
  - vm_compute in E. inversion E. reflexivity.
Defined.

(** *** The checks of the codenames and the move pass *)

(** X10.  A content item whose type carries no codename makes the
    content-item stage throw at the item, before any request for it: the
    stage does what it does on the items before it and then throws, with
    nothing more in the log; and [importAsync] throws as soon as the
    prepared source holds such an item. *)
Theorem importContentItemAsync_unset_type_codename :
  forall core client config,
    (forall before item after h,
       truthy (ref_codename (ci_type item)) = None ->
       importContentItemAsync client config (before ++ item :: after) h
       = match importContentItemAsync client config before h with
         | (Ok _, events) => (Throw (UnsetTypeCodename (ci_codename item)), events)
         | (Throw e, events) => (Throw e, events)
         end) /\
    (forall sourceData h item,
       let prepared :=
         removeSkippedItemsFromImport config (translateIds core sourceData) in
       In item (contentItems (importData prepared)) ->
       truthy (ref_codename (ci_type item)) = None ->
       isThrow (fst (importAsync core client config sourceData h)) = true).
Proof.
  intros core client config.
  assert (Hstage : forall before item after h,
             truthy (ref_codename (ci_type item)) = None ->
             importContentItemAsync client config (before ++ item :: after) h
             = match importContentItemAsync client config before h with
               | (Ok _, events) =>
                   (Throw (UnsetTypeCodename (ci_codename item)), events)
               | (Throw e, events) => (Throw e, events)
               end).
  { intros before item after h Hnone.
    unfold importContentItemAsync. rewrite forEach_app.
    destruct (forEach _ before h) as [[r1|e] e1]; [|reflexivity].
    simpl forEach. rewrite bind_run. rewrite Hnone. simpl.
    rewrite app_nil_r. reflexivity. }
  split; [exact Hstage|].
  intros sourceData h item prepared Hin Hnone.
  unfold importAsync. fold prepared. clearbody prepared.
  destruct (importStages core client config prepared h) as [[rs|e] events] eqn:E;
    [|reflexivity].
  exfalso. apply importStages_Ok_inv in E. destruct E as (s & Hran & _ & _).
  destruct Hran as (_ & _ & _ & _ & _ & _ & (hi & Hi) & _).
  apply in_split in Hin. destruct Hin as (before & after & Hsplit).
  rewrite Hsplit in Hi. simpl in Hi.
  assert (Hi' : importContentItemAsync client config (before ++ item :: after) hi
                = (Ok (r_items s), e_items s)).
  { destruct before; exact Hi. }
  rewrite (Hstage _ _ _ _ Hnone) in Hi'.
  destruct (importContentItemAsync client config before hi) as [[r|e] ev];
    discriminate.
Qed.

(** X10 on the items of the sample project before the codename
    translation: the type of the first item has no codename yet. *)
Lemma importContentItemAsync_unset_type_codename_witness :
  importContentItemAsync (Sample.acceptingClient Sample.target) Sample.config
    ([] ++ Sample.home :: [Sample.about]) []
  = (Throw (UnsetTypeCodename "home"), []).
Proof.
  destruct (importContentItemAsync_unset_type_codename SpecCore.core
              (Sample.acceptingClient Sample.target) Sample.config)
    as [Hstage _].
  rewrite (Hstage [] Sample.home [Sample.about] []).
  - reflexivity.
  - reflexivity.
Defined.

Section VariantLoops.
Variable core : CoreHelpers.
Variable client : ManagementClient.
Variable config : ImportConfig.

Lemma importLanguageVariantsAsync_app : forall vs ws current h,
  importLanguageVariantsAsync core client config (vs ++ ws) current h
  = match importLanguageVariantsAsync core client config vs current h with
    | (Ok d1, e1) =>
        match importLanguageVariantsAsync core client config ws current
                (h ++ e1) with
        | (Ok d2, e2) => (Ok (fst d1 ++ fst d2, snd d1 ++ snd d2), e1 ++ e2)
        | (Throw e, e2) => (Throw e, e1 ++ e2)
        end
    | (Throw e, e1) => (Throw e, e1)
    end.
Proof.
  induction vs as [|v rest IH]; intros ws current h.
  - simpl. rewrite app_nil_r.
    destruct (importLanguageVariantsAsync core client config ws current h)
      as [[[r2 v2]|e] e2]; reflexivity.
  - simpl app. simpl importLanguageVariantsAsync. rewrite !bind_run.
    destruct (importLanguageVariant core client config current v h)
      as [[d|e] e1]; [|reflexivity].
    rewrite !bind_run, IH.
    destruct (importLanguageVariantsAsync core client config rest current
                (h ++ e1)) as [[d1|e] e2]; simpl; [|reflexivity].
    rewrite ?app_nil_r, <- ?app_assoc.
    destruct (importLanguageVariantsAsync core client config ws current
                (h ++ e1 ++ e2)) as [[d2|e] e3]; simpl;
      rewrite ?app_nil_r, <- ?app_assoc; reflexivity.
Qed.

Lemma variantCodenames_missing : forall v h,
  ~ hasCodenames v ->
  variantCodenames v h = (Throw (missingCodename v), []).
Proof.
  intros v h Hv. unfold variantCodenames, missingCodename.
  destruct (truthy (ref_codename (lv_item v))) as [ic|] eqn:Ei; [|reflexivity].
  destruct (truthy (ref_codename (lv_language v))) as [lc|] eqn:El;
    [|reflexivity].
  exfalso. apply Hv. unfold hasCodenames. rewrite Ei, El. split; discriminate.
Qed.

(** One round of the loop of the move pass, written out. *)
Lemma moveLanguageVariants_cons : forall id v rest h,
  moveLanguageVariantsToCustomWorkflowStepAsync client config id (v :: rest) h
  = match truthy (ref_codename (lv_item v)) with
    | None => (Throw MissingItemCodename, [])
    | Some itemCodename =>
        match truthy (ref_codename (lv_language v)) with
        | None => (Throw MissingLanguageCodename, [])
        | Some languageCodename =>
            let rq := ChangeWorkflowStepOfLanguageVariant itemCodename
                        languageCodename id in
            match changeWorkflowStepOfLanguageVariant client itemCodename
                    languageCodename id h with
            | None => (Throw (RequestFailed rq), [Call rq])
            | Some _ =>
                let events :=
                  Call rq
                  :: (if onImport config
                      then [OnImport (variantTitle itemCodename languageCodename)
                                     AtChangeWorkflowStep]
                      else []) in
                (fst (moveLanguageVariantsToCustomWorkflowStepAsync client
                        config id rest (h ++ events)),
                 events ++ snd (moveLanguageVariantsToCustomWorkflowStepAsync
                                  client config id rest (h ++ events)))
            end
        end
    end.
Proof.
  intros id v rest h. simpl moveLanguageVariantsToCustomWorkflowStepAsync.
  unfold variantCodenames.
  destruct (truthy (ref_codename (lv_item v))) as [ic|]; [|reflexivity].
  destruct (truthy (ref_codename (lv_language v))) as [lc|]; [|reflexivity].
  rewrite bind_ret. rewrite bind_run. unfold request.
  destruct (changeWorkflowStepOfLanguageVariant client ic lc id h) as [u|];
    [|reflexivity].
  rewrite bind_run, processItem_run. cbv zeta.
  rewrite <- app_assoc. simpl.
  destruct (moveLanguageVariantsToCustomWorkflowStepAsync client config id rest _);
    reflexivity.
Qed.

Lemma moveLanguageVariants_calls : forall id vs h,
  let run := moveLanguageVariantsToCustomWorkflowStepAsync client config id vs h in
  (exists n, calls (snd run) = firstn n (flat_map (moveRequest id) vs)) /\
  (fst run = Ok tt ->
   calls (snd run) = flat_map (moveRequest id) vs /\
   length (calls (snd run)) = length vs).
Proof.
  intros id. induction vs as [|v rest IH]; intros h.
  - simpl. split; [exists 0; reflexivity|auto].
  - cbv zeta. rewrite moveLanguageVariants_cons. simpl flat_map.
    unfold moveRequest at 1 3.
    destruct (truthy (ref_codename (lv_item v))) as [ic|];
      [|split; [exists 0; reflexivity|discriminate]].
    destruct (truthy (ref_codename (lv_language v))) as [lc|];
      [|split; [exists 0; reflexivity|discriminate]].
    cbv zeta.
    destruct (changeWorkflowStepOfLanguageVariant client ic lc id h) as [u|];
      [|split; [exists 1; reflexivity|discriminate]].
    match goal with
    | |- context [moveLanguageVariantsToCustomWorkflowStepAsync client config
                    id rest ?hh] =>
        pose proof (IH hh) as IHh
    end.
    cbv zeta in IHh. destruct IHh as [[n Hn] Hok]. simpl fst. simpl snd.
    assert (Hc : forall l,
               calls (Call (ChangeWorkflowStepOfLanguageVariant ic lc id)
                      :: (if onImport config
                          then [OnImport (variantTitle ic lc) AtChangeWorkflowStep]
                          else [])
                         ++ l)
               = ChangeWorkflowStepOfLanguageVariant ic lc id :: calls l).
    { intros l. destruct (onImport config); reflexivity. }
    rewrite Hc. split.
    + exists (S n). simpl. rewrite Hn. reflexivity.
    + intros Hfst. destruct (Hok Hfst) as [H1 H2]. simpl.
      rewrite H2. rewrite H1 at 1. auto.
Qed.

Lemma moveLanguageVariants_missing_codename : forall id vs h v,
  In v vs -> ~ hasCodenames v ->
  isThrow (fst (moveLanguageVariantsToCustomWorkflowStepAsync client config
                  id vs h)) = true.
Proof.
  intros id. induction vs as [|x rest IH]; intros h v Hin Hv; [destruct Hin|].
  rewrite moveLanguageVariants_cons.
  destruct (truthy (ref_codename (lv_item x))) as [ic|] eqn:Ei; [|reflexivity].
  destruct (truthy (ref_codename (lv_language x))) as [lc|] eqn:El; [|reflexivity].
  cbv zeta.
  destruct (changeWorkflowStepOfLanguageVariant client ic lc id h); [|reflexivity].
  simpl. destruct Hin as [->|Hin].
  - exfalso. apply Hv. unfold hasCodenames. rewrite Ei, El. split; discriminate.
  - eapply IH; eassumption.
Qed.

Lemma moveLanguageVariants_accepted : forall id vs h,
  (forall v, In v vs -> hasCodenames v) ->
  (forall ic lc h', changeWorkflowStepOfLanguageVariant client ic lc id h' <> None) ->
  fst (moveLanguageVariantsToCustomWorkflowStepAsync client config id vs h) = Ok tt.
Proof.
  intros id. induction vs as [|x rest IH]; intros h Hall Hclient; [reflexivity|].
  rewrite moveLanguageVariants_cons.
  destruct (Hall x (or_introl eq_refl)) as [Hi Hl].
  destruct (truthy (ref_codename (lv_item x))) as [ic|]; [|contradiction].
  destruct (truthy (ref_codename (lv_language x))) as [lc|]; [|contradiction].
  cbv zeta. destruct (changeWorkflowStepOfLanguageVariant client ic lc id h) eqn:E;
    [|exfalso; eapply Hclient; eassumption].
  simpl. apply IH; [|assumption]. intros v Hv. apply Hall. right. assumption.
Qed.
End VariantLoops.

(** X11.  A language variant whose item or whose language carries no
    codename makes the language-variant stage throw at the variant, before
    the ids of the variant are rewritten and before any request for it: the
    stage does what it does on the variants before it and then throws the
    error of the codename that is missing, the item codename first; and
    [importAsync] throws as soon as the prepared source holds such a
    variant, whether or not the publish pass is enabled. *)
Theorem importLanguageVariantsAsync_missing_codename :
  forall core client config,
    (forall before v after currentItems h,
       ~ hasCodenames v ->
       importLanguageVariantsAsync core client config (before ++ v :: after)
         currentItems h
       = match importLanguageVariantsAsync core client config before
                 currentItems h with
         | (Ok _, events) => (Throw (missingCodename v), events)
         | (Throw e, events) => (Throw e, events)
         end) /\
    (forall sourceData h v,
       let prepared :=
         removeSkippedItemsFromImport config (translateIds core sourceData) in
       In v (languageVariants (importData prepared)) ->
       ~ hasCodenames v ->
       isThrow (fst (importAsync core client config sourceData h)) = true).
Proof.
  intros core client config.
  assert (Hstage : forall before v after currentItems h,
             ~ hasCodenames v ->
             importLanguageVariantsAsync core client config (before ++ v :: after)
               currentItems h
             = match importLanguageVariantsAsync core client config before
                       currentItems h with
               | (Ok _, events) => (Throw (missingCodename v), events)
               | (Throw e, events) => (Throw e, events)
               end).
  { intros before v after currentItems h Hv.
    rewrite importLanguageVariantsAsync_app.
    destruct (importLanguageVariantsAsync core client config before
                currentItems h) as [[d1|e] e1]; [|reflexivity].
    simpl importLanguageVariantsAsync. rewrite bind_run.
    unfold importLanguageVariant at 1. rewrite bind_run.
    rewrite (variantCodenames_missing _ Hv). rewrite app_nil_r. reflexivity. }
  split; [exact Hstage|].
  intros sourceData h v prepared Hin Hv.
  unfold importAsync. fold prepared. clearbody prepared.
  destruct (importStages core client config prepared h) as [[rs|e] events] eqn:E;
    [|reflexivity].
  exfalso. apply importStages_Ok_inv in E. destruct E as (s & Hran & _ & _).
  destruct Hran as (_ & _ & _ & _ & _ & _ & _ & (hv & Hrun) & _).
  apply in_split in Hin. destruct Hin as (before & after & Hsplit).
  rewrite Hsplit in Hrun. rewrite (Hstage _ _ _ _ _ Hv) in Hrun.
  destruct (importLanguageVariantsAsync core client config before
              (itemsBeforeVariants s) hv) as [[r|e] ev]; discriminate.
Qed.

(** X11 on the variants of the sample project before the codename
    translation: the item of the first variant has no codename yet. *)
Lemma importLanguageVariantsAsync_missing_codename_witness :
  importLanguageVariantsAsync SpecCore.core
    (Sample.acceptingClient Sample.target) Sample.config
    ([] ++ Sample.variant "i-home" "l-de" "w-draft" (JArr []) :: []) [] []
  = (Throw MissingItemCodename, []).
Proof.
  destruct (importLanguageVariantsAsync_missing_codename SpecCore.core
              (Sample.acceptingClient Sample.target) Sample.config)
    as [Hstage _].
  rewrite (Hstage [] (Sample.variant "i-home" "l-de" "w-draft" (JArr [])) [] [] []).
  - reflexivity.
  - intros [Hi _]. apply Hi. reflexivity.
Defined.

Lemma isMove_other_stage : forall s events,
  Forall (inStage s) events -> s <> SChangeWorkflowStep ->
  filter isMove (calls events) = [].
Proof.
  intros s events H Hs. induction H as [|e l He Hl IH]; [reflexivity|].
  change (calls (e :: l)) with (requestOf e ++ calls l).
  rewrite filter_app, IH, app_nil_r.
  destruct e as [rq| |]; try reflexivity.
  destruct rq; try reflexivity.
  unfold inStage in He. simpl in He. congruence.
Qed.

Lemma isMove_moveRequest : forall id vs,
  filter isMove (flat_map (moveRequest id) vs) = flat_map (moveRequest id) vs.
Proof.
  intros id vs. induction vs as [|v rest IH]; [reflexivity|].
  simpl. rewrite filter_app, IH. f_equal. unfold moveRequest.
  destruct (truthy (ref_codename (lv_item v))); [|reflexivity].
  destruct (truthy (ref_codename (lv_language v))); reflexivity.
Qed.

(** X12.  The requests of the move pass are requests to change the
    workflow step of the variants to the given step, for the variants in
    their order: for a first part of them always, for each of them exactly
    once when the pass runs to its end, and the pass throws when one of them
    lacks a codename.  In a run of [importAsync] that reaches its end with a
    workflow step configured for the imported items, every language variant
    of the prepared source has been moved once, the variants the publish
    pass has published before included; an empty step id counts as not
    configured. *)
Theorem moveLanguageVariantsToCustomWorkflowStepAsync_moves_all :
  forall core client config,
    (forall workflowStepId languageVariants h,
       let run :=
         moveLanguageVariantsToCustomWorkflowStepAsync client config
           workflowStepId languageVariants h in
       (exists n, calls (snd run)
                  = firstn n (flat_map (moveRequest workflowStepId)
                                       languageVariants)) /\
       (fst run = Ok tt ->
        calls (snd run) = flat_map (moveRequest workflowStepId) languageVariants /\
        length (calls (snd run)) = length languageVariants) /\
       ((exists v, In v languageVariants /\ ~ hasCodenames v) ->
        isThrow (fst run) = true) /\
       ((forall v, In v languageVariants -> hasCodenames v) ->
        (forall ic lc h',
           changeWorkflowStepOfLanguageVariant client ic lc workflowStepId h'
           <> None) ->
        fst run = Ok tt)) /\
    (forall sourceData h rs events,
       importAsync core client config sourceData h = (Ok rs, events) ->
       let prepared :=
         removeSkippedItemsFromImport config (translateIds core sourceData) in
       match truthy (workflowIdForImportedItems config) with
       | Some workflowStepId =>
           length (filter isMove (calls events))
           = length (languageVariants (importData prepared)) /\
           forall ic lc id,
             In (ChangeWorkflowStepOfLanguageVariant ic lc id) (calls events) ->
             id = workflowStepId
       | None => filter isMove (calls events) = []
       end).
Proof.
  intros core client config. split.
  - intros id vs h run. subst run.
    pose proof (moveLanguageVariants_calls client config id vs h) as Hloop.
    cbv zeta in Hloop. destruct Hloop as [Hprefix Hok].
    split; [exact Hprefix|]. split; [exact Hok|]. split.
    + intros (v & Hin & Hv).
      eapply moveLanguageVariants_missing_codename; eassumption.
    + intros Hall Hclient. apply moveLanguageVariants_accepted; assumption.
  - intros sourceData h rs events H prepared.
    unfold importAsync in H. fold prepared in H. clearbody prepared.
    apply importStages_Ok_inv in H. destruct H as (s & Hran & -> & ->).
    destruct Hran as (Hf & (hl & Hl) & (ht & Ht) & (hn & Hn) & (hc & Hc)
                      & (ha & Ha) & (hi & Hi) & (hv & Hv) & (hp & Hp) & (hw & Hw)).
    pose proof (@guardedRun_stage _ _ _ _ _ _ _ _
                  (importAssetFoldersAsync_stage client config _) Hf) as Sf.
    pose proof (@guardedRun_stage _ _ _ _ _ _ _ _
                  (importLanguagesAsync_stage client config _) Hl) as Sl.
    pose proof (@guardedRun_stage _ _ _ _ _ _ _ _
                  (importTaxonomiesAsync_stage client config _) Ht) as St.
    pose proof (@guardedRun_stage _ _ _ _ _ _ _ _
                  (importContentTypeSnippetsAsync_stage client config _) Hn) as Sn.
    pose proof (@guardedRun_stage _ _ _ _ _ _ _ _
                  (importContentTypesAsync_stage client config _) Hc) as Sc.
    pose proof (@guardedRun_stage _ _ _ _ _ _ _ _
                  (importAssetsAsync_stage core client config _ _ _) Ha) as Sa.
    pose proof (@guardedRun_stage _ _ _ _ _ _ _ _
                  (importContentItemAsync_stage client config _) Hi) as Si.
    pose proof (@run_stage _ _ _ _ _ _
                  (importLanguageVariantsAsync_stage core client config _ _) Hv)
      as Sv.
    assert (Sp : Forall (inStage SPublish) (e_publish s)).
    { destruct (enablePublish config).
      - eapply run_stage; [apply publishLanguageVariantsAsync_stage|exact Hp].
      - inversion Hp. constructor. }
    assert (Hothers : filter isMove (calls (eventsOf s))
                      = filter isMove (calls (e_workflow s))).
    { unfold eventsOf. rewrite !calls_app, !filter_app.
      rewrite (isMove_other_stage Sf), (isMove_other_stage Sl),
        (isMove_other_stage St), (isMove_other_stage Sn),
        (isMove_other_stage Sc), (isMove_other_stage Sa),
        (isMove_other_stage Si), (isMove_other_stage Sv),
        (isMove_other_stage Sp) by discriminate.
      reflexivity. }
    apply importLanguageVariantsAsync_Ok in Hv. simpl in Hv.
    destruct Hv as [_ Hafter].
    destruct (truthy (workflowIdForImportedItems config)) as [id|].
    + pose proof (moveLanguageVariants_calls client config id
                    (variants_after s) hw) as Hloop.
      cbv zeta in Hloop. rewrite Hw in Hloop. simpl in Hloop.
      destruct Hloop as [_ Hok]. destruct (Hok eq_refl) as [Hcalls Hlen].
      split.
      * rewrite Hothers, Hcalls, isMove_moveRequest, <- Hcalls, Hlen, Hafter.
        apply length_map.
      * intros ic lc id' Hin.
        assert (Hin' : In (ChangeWorkflowStepOfLanguageVariant ic lc id')
                          (filter isMove (calls (eventsOf s)))).
        { apply filter_In. split; [exact Hin|reflexivity]. }
        rewrite Hothers, Hcalls in Hin'. apply filter_In in Hin'.
        destruct Hin' as [Hin' _]. apply in_flat_map in Hin'.
        destruct Hin' as (v & _ & Hreq). unfold moveRequest in Hreq.
        destruct (truthy (ref_codename (lv_item v))); [|destruct Hreq].
        destruct (truthy (ref_codename (lv_language v))); [|destruct Hreq].
        destruct Hreq as [Hreq|[]]. inversion Hreq. reflexivity.
    + rewrite Hothers. unfold ret in Hw. inversion Hw. reflexivity.
Qed.

(** X12 on the sample project with the publish pass and a workflow step
    for the imported items: the three variants are moved, the two published
    ones among them. *)
Lemma moveLanguageVariantsToCustomWorkflowStepAsync_moves_all_witness :
  exists rs events,
    importAsync SpecCore.core (Sample.acceptingClient Sample.target)
      Notified.config Sample.source [] = (Ok rs, events) /\
    length (filter isMove (calls events)) = 3.
Proof.
  assert (Hrun : exists rs events,
             importAsync SpecCore.core (Sample.acceptingClient Sample.target)
               Notified.config Sample.source [] = (Ok rs, events)).
  { eexists. eexists. vm_compute. reflexivity. }
  destruct Hrun as (rs & events & Hrun). exists rs, events.
  split; [exact Hrun|].
  destruct (moveLanguageVariantsToCustomWorkflowStepAsync_moves_all
              SpecCore.core (Sample.acceptingClient Sample.target)
              Notified.config) as [_ Hall].
  specialize (Hall _ _ _ _ Hrun). cbv zeta in Hall.
  change (truthy (workflowIdForImportedItems Notified.config))
    with (Some "w-review") in Hall.
  destruct Hall as [Hlen _]. rewrite Hlen. vm_compute. reflexivity.
Defined.

(** *** The payload of the upsert requests *)

Section VariantUpserts.
Variable core : CoreHelpers.
Variable client : ManagementClient.
Variable config : ImportConfig.

(** One round of the loop of [importLanguageVariantsAsync], written out. *)
Lemma importLanguageVariant_run : forall currentItems v h,
  importLanguageVariant core client config currentItems v h
  = match truthy (ref_codename (lv_item v)) with
    | None => (Throw MissingItemCodename, [])
    | Some itemCodename =>
        match truthy (ref_codename (lv_language v)) with
        | None => (Throw MissingLanguageCodename, [])
        | Some languageCodename =>
            let v' := newIds_languageVariant core v currentItems in
            let rq := UpsertLanguageVariant itemCodename languageCodename
                        (lv_elements v') in
            match upsertLanguageVariant client itemCodename languageCodename
                    (lv_elements v') h with
            | None => (Throw (RequestFailed rq), [Call rq])
            | Some response =>
                (Ok ({| imported := response;
                        original := v';
                        importId := ref_id (lvm_item response);
                        originalId := ref_id (lv_item v') |}, v'),
                 Call rq
                 :: (if onImport config
                     then [OnImport (variantTitle itemCodename languageCodename)
                                    AtLanguageVariant]
                     else []))
            end
        end
    end.
Proof.
  intros currentItems v h. unfold importLanguageVariant, variantCodenames.
  destruct (truthy (ref_codename (lv_item v))) as [ic|]; [|reflexivity].
  destruct (truthy (ref_codename (lv_language v))) as [lc|]; [|reflexivity].
  rewrite bind_ret. rewrite bind_run. unfold request. cbv zeta.
  destruct (upsertLanguageVariant client ic lc _ h) as [response|]; [|reflexivity].
  rewrite bind_run, processItem_run. simpl. rewrite app_nil_r. reflexivity.
Qed.

Lemma importLanguageVariantsAsync_upserts : forall vs currentItems h,
  let run := importLanguageVariantsAsync core client config vs currentItems h in
  (exists n, calls (snd run)
             = firstn n (flat_map (upsertRequest core currentItems) vs)) /\
  (forall done, fst run = Ok done ->
     calls (snd run) = flat_map (upsertRequest core currentItems) vs /\
     Forall hasCodenames vs /\
     length (fst done) = length vs).
Proof.
  induction vs as [|v rest IH]; intros currentItems h.
  - simpl. split; [exists 0; reflexivity|].
    intros done Hdone. inversion Hdone. auto.
  - cbv zeta. simpl importLanguageVariantsAsync. rewrite bind_run.
    rewrite importLanguageVariant_run. simpl flat_map.
    unfold upsertRequest at 1 3, hasCodenames.
    destruct (truthy (ref_codename (lv_item v))) as [ic|] eqn:Ei;
      [|split; [exists 0; reflexivity|discriminate]].
    destruct (truthy (ref_codename (lv_language v))) as [lc|] eqn:El;
      [|split; [exists 0; reflexivity|discriminate]].
    cbv zeta.
    destruct (upsertLanguageVariant client ic lc _ h) as [response|];
      [|split; [exists 1; reflexivity|discriminate]].
    rewrite bind_run.
    match goal with
    | |- context [importLanguageVariantsAsync core client config rest
                    currentItems ?hh] =>
        pose proof (IH currentItems hh) as IHh;
        destruct (importLanguageVariantsAsync core client config rest
                    currentItems hh) as [[more|e] events]
    end; cbv zeta in IHh; simpl fst in *; simpl snd in *;
      destruct IHh as [[n Hn] Hok].
    + assert (Hc : forall l, calls (Call (UpsertLanguageVariant ic lc
                       (lv_elements (newIds_languageVariant core v currentItems)))
                     :: (if onImport config
                         then [OnImport (variantTitle ic lc) AtLanguageVariant]
                         else []) ++ l)
                   = UpsertLanguageVariant ic lc
                       (lv_elements (newIds_languageVariant core v currentItems))
                     :: calls l).
      { intros l. destruct (onImport config); reflexivity. }
      rewrite app_nil_r, Hc. split.
      * exists (S n). simpl. rewrite Hn. reflexivity.
      * intros done Hdone. inversion Hdone; subst done.
        destruct (Hok more eq_refl) as (H1 & H2 & H3).
        rewrite H1. split; [reflexivity|]. split.
        -- constructor; [|assumption].
           split; [rewrite Ei|rewrite El]; discriminate.
        -- simpl. rewrite H3. reflexivity.
    + assert (Hc : forall l, calls (Call (UpsertLanguageVariant ic lc
                       (lv_elements (newIds_languageVariant core v currentItems)))
                     :: (if onImport config
                         then [OnImport (variantTitle ic lc) AtLanguageVariant]
                         else []) ++ l)
                   = UpsertLanguageVariant ic lc
                       (lv_elements (newIds_languageVariant core v currentItems))
                     :: calls l).
      { intros l. destruct (onImport config); reflexivity. }
      rewrite Hc. split; [|discriminate].
      exists (S n). simpl. rewrite Hn. reflexivity.
Qed.
End VariantUpserts.

Lemma isUpsert_other_stage : forall s events,
  Forall (inStage s) events -> s <> SLanguageVariants ->
  filter isUpsert (calls events) = [].
Proof.
  intros s events H Hs. induction H as [|e l He Hl IH]; [reflexivity|].
  change (calls (e :: l)) with (requestOf e ++ calls l).
  rewrite filter_app, IH, app_nil_r.
  destruct e as [rq| |]; try reflexivity.
  destruct rq; try reflexivity.
  unfold inStage in He. simpl in He. congruence.
Qed.

Lemma isUpsert_upsertRequest : forall core currentItems vs,
  filter isUpsert (flat_map (upsertRequest core currentItems) vs)
  = flat_map (upsertRequest core currentItems) vs.
Proof.
  intros core currentItems vs. induction vs as [|v rest IH]; [reflexivity|].
  simpl. rewrite filter_app, IH. f_equal. unfold upsertRequest.
  destruct (truthy (ref_codename (lv_item v))); [|reflexivity].
  destruct (truthy (ref_codename (lv_language v))); reflexivity.
Qed.

Lemma widened_kind : forall TRaw TModel (raw : TRaw -> ValidImportContract)
    (model : TModel -> ValidImportModel) (P : Stage -> Prop)
    (l : list (ImportItemResult TRaw TModel)),
  (forall r, P (kindOf (widen raw model r))) ->
  Forall (fun r => P (kindOf r)) (map (widen raw model) l).
Proof.
  intros TRaw TModel raw model P l H. apply Forall_forall. intros r Hr.
  apply in_map_iff in Hr. destruct Hr as (x & <- & _). apply H.
Qed.

(** X19.  The language-variant stage sends every variant through the id
    helper of [../core] before it upserts it, and what it upserts is what
    the helper answered: the upsert requests of the stage are, in the order
    of the collection, one request for each variant, keyed by the two
    codenames of the variant and carrying the elements of the variant as the
    helper rewrote them against the results the stage was given; the stage
    sends a first part of these requests always and all of them when it
    runs to its end.  In a run of [importAsync] that reaches its end the
    results the helper is given are the entries of the stages before: the
    answered list is these entries followed by one entry for each variant,
    so the helper sees the entry of every asset folder, language, taxonomy,
    asset and content item of the answered list and of no variant. *)
Theorem importLanguageVariantsAsync_payload_from_helper :
  forall core client config,
    (forall languageVariants currentItems h,
       let run :=
         importLanguageVariantsAsync core client config languageVariants
           currentItems h in
       (exists n, calls (snd run)
                  = firstn n (flat_map (upsertRequest core currentItems)
                                       languageVariants)) /\
       (forall done, fst run = Ok done ->
          calls (snd run)
          = flat_map (upsertRequest core currentItems) languageVariants /\
          Forall hasCodenames languageVariants /\
          length (calls (snd run)) = length languageVariants)) /\
    (forall sourceData h rs events,
       importAsync core client config sourceData h = (Ok rs, events) ->
       let prepared :=
         removeSkippedItemsFromImport config (translateIds core sourceData) in
       exists currentItems variantEntries,
         rs = currentItems ++ variantEntries /\
         Forall (fun r => kindOf r <> SLanguageVariants) currentItems /\
         Forall (fun r => kindOf r = SLanguageVariants) variantEntries /\
         length variantEntries = length (languageVariants (importData prepared)) /\
         filter isUpsert (calls events)
         = flat_map (upsertRequest core currentItems)
                    (languageVariants (importData prepared))).
Proof.
  intros core client config. split.
  - intros vs currentItems h run. subst run.
    pose proof (importLanguageVariantsAsync_upserts core client config vs
                  currentItems h) as Hloop.
    cbv zeta in Hloop. destruct Hloop as [Hprefix Hok].
    split; [exact Hprefix|]. intros done Hdone.
    destruct (Hok done Hdone) as (Hcalls & Hall & _).
    split; [exact Hcalls|]. split; [exact Hall|].
    rewrite Hcalls. clear - Hall.
    induction Hall as [|v rest [Hi Hl] Hrest IH]; [reflexivity|].
    simpl. rewrite length_app, IH. unfold upsertRequest.
    destruct (truthy (ref_codename (lv_item v))); [|contradiction].
    destruct (truthy (ref_codename (lv_language v))); [|contradiction].
    reflexivity.
  - intros sourceData h rs events H prepared.
    unfold importAsync in H. fold prepared in H. clearbody prepared.
    apply importStages_Ok_inv in H. destruct H as (s & Hran & -> & ->).
    destruct Hran as (Hf & (hl & Hl) & (ht & Ht) & (hn & Hn) & (hc & Hc)
                      & (ha & Ha) & (hi & Hi) & (hv & Hv) & (hp & Hp) & (hw & Hw)).
    pose proof (@guardedRun_stage _ _ _ _ _ _ _ _
                  (importAssetFoldersAsync_stage client config _) Hf) as Sf.
    pose proof (@guardedRun_stage _ _ _ _ _ _ _ _
                  (importLanguagesAsync_stage client config _) Hl) as Sl.
    pose proof (@guardedRun_stage _ _ _ _ _ _ _ _
                  (importTaxonomiesAsync_stage client config _) Ht) as St.
    pose proof (@guardedRun_stage _ _ _ _ _ _ _ _
                  (importContentTypeSnippetsAsync_stage client config _) Hn) as Sn.
    pose proof (@guardedRun_stage _ _ _ _ _ _ _ _
                  (importContentTypesAsync_stage client config _) Hc) as Sc.
    pose proof (@guardedRun_stage _ _ _ _ _ _ _ _
                  (importAssetsAsync_stage core client config _ _ _) Ha) as Sa.
    pose proof (@guardedRun_stage _ _ _ _ _ _ _ _
                  (importContentItemAsync_stage client config _) Hi) as Si.
    assert (Sp : Forall (inStage SPublish) (e_publish s)).
    { destruct (enablePublish config).
      - eapply run_stage; [apply publishLanguageVariantsAsync_stage|exact Hp].
      - inversion Hp. constructor. }
    assert (Sw : Forall (inStage SChangeWorkflowStep) (e_workflow s)).
    { destruct (truthy (workflowIdForImportedItems config)).
      - eapply run_stage; [apply moveLanguageVariants_stage|exact Hw].
      - inversion Hw. constructor. }
    exists (itemsBeforeVariants s),
           (map (widen CLanguageVariant MLanguageVariant) (r_variants s)).
    pose proof (importLanguageVariantsAsync_upserts core client config
                  (languageVariants (importData prepared))
                  (itemsBeforeVariants s) hv) as Hloop.
    cbv zeta in Hloop. rewrite Hv in Hloop. simpl in Hloop.
    destruct Hloop as [_ Hok].
    destruct (Hok _ eq_refl) as (Hcalls & _ & Hlen). simpl in Hlen.
    split; [reflexivity|]. split; [|split; [|split]].
    + unfold itemsBeforeVariants, itemsBeforeAssets.
      repeat (apply Forall_app; split);
        apply (@widened_kind _ _ _ _ (fun k => k <> SLanguageVariants));
        intros r; discriminate.
    + apply (@widened_kind _ _ _ _ (fun k => k = SLanguageVariants)).
      intros r. reflexivity.
    + rewrite length_map. exact Hlen.
    + unfold eventsOf. rewrite !calls_app, !filter_app.
      rewrite (isUpsert_other_stage Sf), (isUpsert_other_stage Sl),
        (isUpsert_other_stage St), (isUpsert_other_stage Sn),
        (isUpsert_other_stage Sc), (isUpsert_other_stage Sa),
        (isUpsert_other_stage Si), (isUpsert_other_stage Sp),
        (isUpsert_other_stage Sw) by discriminate.
      simpl. rewrite app_nil_r, Hcalls. apply isUpsert_upsertRequest.
Qed.

(** X19 on the sample project: the helper is given the ten entries of the
    stages before, and the three variants are upserted with what it
    answered. *)
Lemma importLanguageVariantsAsync_payload_from_helper_witness :
  exists rs events currentItems variantEntries,
    importAsync SpecCore.core (Sample.acceptingClient Sample.target)
      Sample.config Sample.source [] = (Ok rs, events) /\
    rs = currentItems ++ variantEntries /\
    length variantEntries = 3 /\
    length (filter isUpsert (calls events)) = 3.
Proof.
  assert (Hrun : exists rs events,
             importAsync SpecCore.core (Sample.acceptingClient Sample.target)
               Sample.config Sample.source [] = (Ok rs, events)).
  { eexists. eexists. vm_compute. reflexivity. }
  destruct Hrun as (rs & events & Hrun).
  destruct (importLanguageVariantsAsync_payload_from_helper
              SpecCore.core (Sample.acceptingClient Sample.target)
              Sample.config) as [_ Hall].
  specialize (Hall _ _ _ _ Hrun). cbv zeta in Hall.
  destruct Hall as (currentItems & variantEntries & Hrs & _ & _ & Hlen & Hcalls).
  exists rs, events, currentItems, variantEntries.
  split; [exact Hrun|]. split; [exact Hrs|]. split.
  - rewrite Hlen. vm_compute. reflexivity.
  - rewrite Hcalls. generalize currentItems. intros items.
    vm_compute. reflexivity.
Defined.

(* ================================================================= *)
(** ** Further properties: the run as a whole *)

(** *** What the configuration allows in a log *)

(** The events of a computation, with the cases of the code kept as
    equations for the side conditions. *)
Ltac emits_cases solve :=
  repeat first
    [ apply emits_ret | apply emits_throw | apply emits_lift
    | apply emits_emit; solve
    | apply emits_request; solve
    | apply emits_bind; [|intros ?]
    | apply emits_forEach; intros ?
    | match goal with
      | |- emits _ (if ?b then _ else _) =>
          let E := fresh "E" in destruct b eqn:E
      | |- emits _ (match ?x with Some _ => _ | None => _ end) =>
          let E := fresh "E" in destruct x eqn:E
      | |- emits _ (match ?x with [] => _ | _ :: _ => _ end) =>
          let E := fresh "E" in destruct x eqn:E
      | |- emits _ (let '(_, _) := ?x in _) => destruct x
      end ].

Section StagesEmit.
Variable core : CoreHelpers.
Variable client : ManagementClient.
Variable config : ImportConfig.
Variable sourceData : ImportSource.
Variable P : Event -> Prop.

(** A property of the events of every stage is a property of the events
    of the run. *)
Lemma importStages_emits :
  let data := importData sourceData in
  emits P (importAssetFoldersAsync client config (assetFolders sourceData)) ->
  emits P (importLanguagesAsync client config (languages data)) ->
  emits P (importTaxonomiesAsync client config (taxonomies data)) ->
  emits P (importContentTypeSnippetsAsync client config (contentTypeSnippets data)) ->
  emits P (importContentTypesAsync client config (contentTypes data)) ->
  (forall currentItems,
     emits P (importAssetsAsync core client config (assets data)
                (binaryFiles sourceData) currentItems)) ->
  emits P (importContentItemAsync client config (contentItems data)) ->
  (forall currentItems,
     emits P (importLanguageVariantsAsync core client config
                (languageVariants data) currentItems)) ->
  (forall currentItems h done e,
     importLanguageVariantsAsync core client config (languageVariants data)
       currentItems h = (Ok done, e) ->
     enablePublish config = true ->
     emits P (publishLanguageVariantsAsync client config (snd done)
                (workflowSteps data))) ->
  (forall currentItems h done e workflowStepId,
     importLanguageVariantsAsync core client config (languageVariants data)
       currentItems h = (Ok done, e) ->
     truthy (workflowIdForImportedItems config) = Some workflowStepId ->
     emits P (moveLanguageVariantsToCustomWorkflowStepAsync client config
                workflowStepId (snd done))) ->
  emits P (importStages core client config sourceData).
Proof.
  intros data Hf Hl Ht Hn Hc Ha Hi Hv Hp Hw. subst data. unfold importStages.
  apply emits_bind; [|intros items0].
  { destruct (assetFolders sourceData); [apply emits_ret|].
    apply emits_bind; [assumption|intros; apply emits_ret]. }
  apply emits_bind; [|intros items1].
  { destruct (languages (importData sourceData)); [apply emits_ret|].
    apply emits_bind; [assumption|intros; apply emits_ret]. }
  apply emits_bind; [|intros items2].
  { destruct (taxonomies (importData sourceData)); [apply emits_ret|].
    apply emits_bind; [assumption|intros; apply emits_ret]. }
  apply emits_bind; [|intros _].
  { destruct (contentTypeSnippets (importData sourceData)); [apply emits_ret|].
    apply emits_bind; [assumption|intros; apply emits_ret]. }
  apply emits_bind; [|intros _].
  { destruct (contentTypes (importData sourceData)); [apply emits_ret|].
    apply emits_bind; [assumption|intros; apply emits_ret]. }
  apply emits_bind; [|intros items3].
  { destruct (assets (importData sourceData)); [apply emits_ret|].
    apply emits_bind; [apply Ha|intros; apply emits_ret]. }
  apply emits_bind; [|intros items4].
  { destruct (contentItems (importData sourceData)); [apply emits_ret|].
    apply emits_bind; [assumption|intros; apply emits_ret]. }
  apply emits_bind_post; [apply Hv|]. intros h done e Hdone. cbv zeta.
  apply emits_bind; [|intros _].
  { destruct (enablePublish config) eqn:Ep; [|apply emits_ret].
    eapply Hp; [eassumption|reflexivity]. }
  apply emits_bind; [|intros _; apply emits_ret].
  destruct (truthy (workflowIdForImportedItems config)) eqn:Ew;
    [|apply emits_ret].
  eapply Hw; [eassumption|reflexivity].
Qed.
End StagesEmit.

Section AllowedEvents.
Variable core : CoreHelpers.
Variable client : ManagementClient.
Variable config : ImportConfig.

Lemma processItem_allowed : forall title type,
  emits (allowedBy config) (processItem config title type).
Proof.
  intros. unfold processItem.
  destruct (onImport config) eqn:E; [|apply emits_ret].
  apply emits_emit. exact E.
Qed.

Ltac allowed :=
  repeat first
    [ apply processItem_allowed
    | progress emits_cases ltac:(simpl; unfold oversized; auto; fail) ].

Lemma fixLanguageAsync_allowed : forall current language,
  fixLanguages config = true ->
  emits (allowedBy config) (fixLanguageAsync client current language).
Proof. intros current language Hfix. unfold fixLanguageAsync. allowed. Qed.

Lemma importLanguagesLoop_allowed : forall ls current,
  emits (allowedBy config) (importLanguagesLoop client config ls current).
Proof.
  induction ls as [|l rest IH]; intros current; simpl; [apply emits_ret|].
  apply emits_bind; [|intros current'].
  { destruct (fixLanguages config) eqn:Hfix; [|apply emits_ret].
    apply emits_bind; [apply fixLanguageAsync_allowed; exact Hfix|].
    intros _. apply emits_request. exact I. }
  apply emits_bind; [apply emits_lift|intros [data|]]; [|apply IH].
  apply emits_bind; [apply emits_request; exact I|intros response].
  apply emits_bind; [apply processItem_allowed|intros _].
  apply emits_bind; [apply IH|intros; apply emits_ret].
Qed.

Lemma importLanguageVariantsAsync_allowed : forall vs current,
  emits (allowedBy config)
        (importLanguageVariantsAsync core client config vs current).
Proof.
  induction vs as [|v rest IH]; intros current; simpl; [apply emits_ret|].
  apply emits_bind; [|intros done].
  { unfold importLanguageVariant, variantCodenames. allowed. }
  apply emits_bind; [apply IH|intros; apply emits_ret].
Qed.

Lemma publishLoop_allowed : forall vs,
  emits (allowedBy config) (publishLoop client config vs).
Proof.
  induction vs as [|v rest IH]; simpl; [apply emits_ret|].
  unfold variantCodenames. allowed. exact IH.
Qed.

Lemma moveLanguageVariants_allowed : forall id vs,
  emits (allowedBy config)
        (moveLanguageVariantsToCustomWorkflowStepAsync client config id vs).
Proof.
  induction vs as [|v rest IH]; simpl; [apply emits_ret|].
  unfold variantCodenames. allowed. exact IH.
Qed.

Lemma importStages_allowed : forall sourceData,
  emits (allowedBy config) (importStages core client config sourceData).
Proof.
  intros sourceData. apply importStages_emits.
  - unfold importAssetFoldersAsync. allowed.
  - unfold importLanguagesAsync.
    apply emits_bind; [apply emits_request; exact I|intros].
    apply importLanguagesLoop_allowed.
  - unfold importTaxonomiesAsync. allowed.
  - unfold importContentTypeSnippetsAsync. allowed.
  - unfold importContentTypesAsync. allowed.
  - intros. unfold importAssetsAsync, importAsset. allowed.
  - unfold importContentItemAsync. allowed.
  - intros. apply importLanguageVariantsAsync_allowed.
  - intros. unfold publishLanguageVariantsAsync.
    destruct (getPublishedWorkflowStep _); [|apply emits_ret].
    apply publishLoop_allowed.
  - intros. apply moveLanguageVariants_allowed.
Qed.
End AllowedEvents.

(** X13.  The log of a run holds a request that modifies a language of the
    target only when the fix mode is on, a call of the [onImport] callback
    only when the callback is configured, and a call of the
    [onUnsupportedBinaryFile] callback only when that callback is configured,
    and then for a file at or above the ceiling.  So without the fix mode
    the languages of the target are never changed, and without callbacks the
    log holds requests only. *)
Theorem importAsync_allowed_events :
  forall core client config sourceData h,
    let events := snd (importAsync core client config sourceData h) in
    (fixLanguages config = false ->
     forall codename ops, ~ In (ModifyLanguage codename ops) (calls events)) /\
    (onImport config = false ->
     forall title type, ~ In (OnImport title type) events) /\
    (forall file, In (OnUnsupportedBinaryFile file) events ->
       onUnsupportedBinaryFile config = true /\
       (maxAllowedAssetSizeInBytes <= a_size (bf_asset file))%Z) /\
    (onImport config = false -> onUnsupportedBinaryFile config = false ->
     events = map Call (calls events)).
Proof.
  intros core client config sourceData h events.
  assert (Hall : Forall (allowedBy config) events).
  { apply importStages_allowed. }
  clearbody events. rewrite Forall_forall in Hall.
  repeat split.
  - intros Hfix codename ops Hin. apply in_calls in Hin.
    apply Hall in Hin. simpl in Hin. congruence.
  - intros Hoff title type Hin. apply Hall in Hin. simpl in Hin. congruence.
  - apply Hall in H. apply H.
  - apply Hall in H. destruct H as [_ H]. unfold oversized in H.
    apply Z.leb_le. exact H.
  - intros Hoff Hun. induction events as [|e l IH]; [reflexivity|].
    assert (He := Hall e (or_introl eq_refl)).
    destruct e as [rq|title type|file]; simpl in *.
    + f_equal. apply IH. intros x Hx. apply Hall. right. exact Hx.
    + congruence.
    + destruct He. congruence.
Qed.

(** X13 on the sample project, whose configuration has no [onImport]
    callback and no fix mode: the film, at the ceiling, is reported. *)
Lemma importAsync_allowed_events_witness :
  let events :=
    snd (importAsync SpecCore.core (Sample.acceptingClient Sample.target)
           Sample.config Sample.source []) in
  (forall codename ops, ~ In (ModifyLanguage codename ops) (calls events)) /\
  (forall title type, ~ In (OnImport title type) events) /\
  In (OnUnsupportedBinaryFile Sample.filmFile) events.
Proof.
  cbv zeta.
  destruct (importAsync_allowed_events SpecCore.core
              (Sample.acceptingClient Sample.target) Sample.config
              Sample.source []) as (Hfix & Hoff & _).
  split; [apply Hfix; reflexivity|]. split; [apply Hoff; reflexivity|].
  vm_compute. tauto.
Defined.

(** *** A rejected request ends the run *)

Section Rejection.
Variable core : CoreHelpers.
Variable client : ManagementClient.
Variable config : ImportConfig.

Lemma stops_ret : forall A (a : A), stopsAtRejection client (ret a).
Proof. intros A a h rq events H. discriminate H. Qed.

Lemma stops_throw : forall A e,
  (forall rq, e <> RequestFailed rq) -> stopsAtRejection client (@throw A e).
Proof.
  intros A e He h rq events H. unfold throw in H. inversion H; subst.
  exfalso. eapply He. reflexivity.
Qed.

Lemma stops_lift : forall A (o : Outcome A),
  (forall rq, o <> Throw (RequestFailed rq)) -> stopsAtRejection client (lift o).
Proof.
  intros A o Ho h rq events H. unfold lift in H. inversion H; subst.
  exfalso. eapply Ho. reflexivity.
Qed.

Lemma stops_emit : forall ev, stopsAtRejection client (emit ev).
Proof. intros ev h rq events H. discriminate H. Qed.

Lemma stops_request : forall R rq (answer : list Event -> option R),
  (forall h, answer h = None -> accepts client rq h = false) ->
  stopsAtRejection client (request rq answer).
Proof.
  intros R rq answer Hanswer h rq' events H. unfold request in H.
  destruct (answer h) eqn:E; [discriminate H|]. inversion H; subst.
  exists []. rewrite app_nil_r. auto.
Qed.

Lemma stops_bind : forall A B (m : M A) (f : A -> M B),
  stopsAtRejection client m -> (forall a, stopsAtRejection client (f a)) ->
  stopsAtRejection client (bind m f).
Proof.
  intros A B m f Hm Hf h rq events H. rewrite bind_run in H.
  destruct (m h) as [[a|e] e1] eqn:E.
  - destruct (f a (h ++ e1)) as [o e2] eqn:E2. inversion H; subst.
    apply Hf in E2. destruct E2 as (before & -> & Hrejected).
    exists (e1 ++ before). rewrite !app_assoc. auto.
  - inversion H; subst. eapply Hm. exact E.
Qed.

Lemma stops_processItem : forall title type,
  stopsAtRejection client (processItem config title type).
Proof.
  intros. unfold processItem.
  destruct (onImport config); [apply stops_emit|apply stops_ret].
Qed.

Lemma stops_forEach : forall A R (body : A -> M (list R)) xs,
  (forall x, stopsAtRejection client (body x)) ->
  stopsAtRejection client (forEach body xs).
Proof.
  intros A R body xs Hbody. induction xs as [|x rest IH]; simpl.
  - apply stops_ret.
  - apply stops_bind; [apply Hbody|intros].
    apply stops_bind; [apply IH|intros; apply stops_ret].
Qed.

Lemma tryGetLanguage_own_error : forall currentLanguages importLanguage rq,
  tryGetLanguage currentLanguages importLanguage <> Throw (RequestFailed rq).
Proof.
  intros cur l rq. unfold tryGetLanguage.
  destruct (find _ cur); [discriminate|]. cbv zeta.
  destruct (if String.eqb (lang_id l) defaultLanguageId then _ else None);
    [discriminate|].
  destruct (lang_fallback_language l) as [fallback|]; [|discriminate].
  destruct (truthy (ref_codename fallback)); discriminate.
Qed.

Lemma flattenAssetFolders_own_error : forall originalItems fs items rq,
  flattenAssetFolders fs originalItems items <> Throw (RequestFailed rq).
Proof.
  intros originalItems fs items rq. rewrite flattenAssetFolders_preorder.
  generalize (flattenAssetFolderModels fs). intros flat. revert items.
  induction flat as [|f rest IH]; intros items; simpl; [discriminate|].
  unfold pushFolder at 1.
  destruct (find _ originalItems); [apply IH|discriminate].
Qed.

Ltac stops :=
  repeat first
    [ apply stops_ret | apply stops_emit | apply stops_processItem
    | apply stops_throw; intros ? ?; discriminate
    | apply stops_lift; first [ apply tryGetLanguage_own_error
                              | apply flattenAssetFolders_own_error ]
    | apply stops_request;
      let h := fresh "h" in let H := fresh "H" in
      intros h H; unfold accepts; rewrite H; reflexivity
    | apply stops_bind; [|intros ?]
    | apply stops_forEach; intros ?
    | match goal with
      | |- stopsAtRejection _ (if ?b then _ else _) => destruct b
      | |- stopsAtRejection _ (match ?x with Some _ => _ | None => _ end) =>
          destruct x
      | |- stopsAtRejection _ (match ?x with [] => _ | _ :: _ => _ end) =>
          destruct x
      | |- stopsAtRejection _ (let '(_, _) := ?x in _) => destruct x
      end ].

Lemma importLanguagesLoop_stops : forall ls current,
  stopsAtRejection client (importLanguagesLoop client config ls current).
Proof.
  induction ls as [|l rest IH]; intros current; simpl; [apply stops_ret|].
  unfold fixLanguageAsync. stops; apply IH.
Qed.

Lemma importLanguageVariantsAsync_stops : forall vs current,
  stopsAtRejection client
    (importLanguageVariantsAsync core client config vs current).
Proof.
  induction vs as [|v rest IH]; intros current; simpl; [apply stops_ret|].
  unfold importLanguageVariant, variantCodenames. stops. apply IH.
Qed.

Lemma publishLoop_stops : forall vs,
  stopsAtRejection client (publishLoop client config vs).
Proof.
  induction vs as [|v rest IH]; simpl; [apply stops_ret|].
  unfold variantCodenames. stops. exact IH.
Qed.

Lemma moveLanguageVariants_stops : forall id vs,
  stopsAtRejection client
    (moveLanguageVariantsToCustomWorkflowStepAsync client config id vs).
Proof.
  induction vs as [|v rest IH]; simpl; [apply stops_ret|].
  unfold variantCodenames. stops. exact IH.
Qed.

Lemma importStages_stops : forall sourceData,
  stopsAtRejection client (importStages core client config sourceData).
Proof.
  intros sourceData.
  unfold importStages, importAssetFoldersAsync, importLanguagesAsync,
    importTaxonomiesAsync, importContentTypeSnippetsAsync,
    importContentTypesAsync, importAssetsAsync, importAsset,
    importContentItemAsync, publishLanguageVariantsAsync.
  cbv zeta.
  repeat first
    [ apply importLanguagesLoop_stops
    | apply importLanguageVariantsAsync_stops
    | apply publishLoop_stops
    | apply moveLanguageVariants_stops
    | progress stops ].
Qed.
End Rejection.

(** X14.  A request the target rejects is rethrown as it is by
    [handleImportError] and ends the run on the spot: when the run throws the
    failure of a request, that request is the last event of the log, and the
    target rejected it at that point.  The service sends nothing again and
    nothing more: no request and no callback comes after it.  (The retries
    of the retry strategy of the client happen inside the awaited request.) *)
Theorem importAsync_rejected_request_is_last :
  forall core client config sourceData h rq events,
    importAsync core client config sourceData h
    = (Throw (RequestFailed rq), events) ->
    exists before,
      events = before ++ [Call rq] /\
      accepts client rq (h ++ before) = false.
Proof.
  intros core client config sourceData h rq events H.
  unfold importAsync in H. eapply importStages_stops. exact H.
Qed.

(** X14 on the sample project against a target that rejects the second
    content item: its request ends the log. *)
Lemma importAsync_rejected_request_is_last_witness :
  exists before,
    snd (importAsync SpecCore.core RejectedItem.client Sample.config
           Sample.source [])
    = before ++ [Call (AddContentItem RejectedItem.aboutData)].
Proof.
  assert (Hrun : exists events,
             importAsync SpecCore.core RejectedItem.client Sample.config
               Sample.source []
             = (Throw (RequestFailed (AddContentItem RejectedItem.aboutData)),
                events)).
  { eexists. vm_compute. reflexivity. }
  destruct Hrun as (events & Hrun).
  destruct (importAsync_rejected_request_is_last _ _ _ _ _ Hrun)
    as (before & Hlast & _).
  exists before. rewrite Hrun. exact Hlast.
Defined.

(** *** The calls of the [onImport] callback *)

Section Notices.
Variable core : CoreHelpers.
Variable client : ManagementClient.
Variable config : ImportConfig.
Hypothesis configured : onImport config = true.

Lemma balanced_ret : forall A (a : A), balanced (ret a).
Proof. intros A a h a' e H. unfold ret in H. inversion H. reflexivity. Qed.

Lemma balanced_throw : forall A e, balanced (@throw A e).
Proof. intros A e h a e' H. discriminate H. Qed.

Lemma balanced_lift : forall A (o : Outcome A), balanced (lift o).
Proof. intros A o h a e H. unfold lift in H. inversion H. reflexivity. Qed.

Lemma balanced_bind : forall A B (m : M A) (f : A -> M B),
  balanced m -> (forall a, balanced (f a)) -> balanced (bind m f).
Proof.
  intros A B m f Hm Hf h b e H.
  apply bind_Ok_inv in H. destruct H as (a & e1 & e2 & H1 & H2 & ->).
  rewrite !flat_map_app. erewrite Hm, Hf by eassumption. reflexivity.
Qed.

Lemma balanced_silent : forall R rq (answer : list Event -> option R),
  notifies rq = None -> balanced (request rq answer).
Proof.
  intros R rq answer Hrq h a e H. apply request_Ok_inv in H.
  destruct H as [_ ->]. simpl. rewrite Hrq. reflexivity.
Qed.

Lemma balanced_unsupported : forall file,
  balanced (emit (OnUnsupportedBinaryFile file)).
Proof. intros file h a e H. unfold emit in H. inversion H. reflexivity. Qed.

Lemma balanced_folder : forall title,
  balanced (processItem config title AtAssetFolder).
Proof.
  intros title h a e H. rewrite processItem_run in H. inversion H.
  destruct (onImport config); reflexivity.
Qed.

(** A request that is followed by the callback. *)
Lemma balanced_round : forall R B rq (answer : list Event -> option R)
    (title : R -> string) type (k : R -> M B),
  notifies rq = Some type ->
  (forall response, balanced (k response)) ->
  balanced (response <- request rq answer ;;
            processItem config (title response) type ;;;
            k response).
Proof.
  intros R B rq answer title type k Hrq Hk h b e H.
  apply bind_Ok_inv in H. destruct H as (resp & e1 & e2 & H1 & H & ->).
  apply request_Ok_inv in H1. destruct H1 as [_ ->].
  apply bind_Ok_inv in H. destruct H as (u & e3 & e4 & H2 & H & ->).
  rewrite processItem_run, configured in H2. inversion H2; subst e3.
  apply Hk in H. rewrite !flat_map_app, H. simpl. rewrite Hrq.
  destruct rq; inversion Hrq; reflexivity.
Qed.

Lemma balanced_forEach : forall A R (body : A -> M (list R)) xs,
  (forall x, balanced (body x)) -> balanced (forEach body xs).
Proof.
  intros A R body xs Hbody. induction xs as [|x rest IH]; simpl.
  - apply balanced_ret.
  - apply balanced_bind; [apply Hbody|intros].
    apply balanced_bind; [apply IH|intros; apply balanced_ret].
Qed.

Ltac balance :=
  repeat first
    [ apply balanced_ret | apply balanced_throw | apply balanced_lift
    | apply balanced_unsupported | apply balanced_folder
    | apply balanced_round; [reflexivity|intros ?]
    | apply balanced_silent; reflexivity
    | apply balanced_bind; [|intros ?]
    | apply balanced_forEach; intros ?
    | progress cbv zeta
    | match goal with
      | |- balanced (if ?b then _ else _) => destruct b
      | |- balanced (match ?x with Some _ => _ | None => _ end) => destruct x
      | |- balanced (match ?x with [] => _ | _ :: _ => _ end) => destruct x
      | |- balanced (let '(_, _) := ?x in _) => destruct x
      end ].

Lemma importLanguagesLoop_balanced : forall ls current,
  balanced (importLanguagesLoop client config ls current).
Proof.
  induction ls as [|l rest IH]; intros current; simpl; [apply balanced_ret|].
  unfold fixLanguageAsync. balance; apply IH.
Qed.

Lemma importLanguageVariantsAsync_balanced : forall vs current,
  balanced (importLanguageVariantsAsync core client config vs current).
Proof.
  induction vs as [|v rest IH]; intros current; simpl; [apply balanced_ret|].
  unfold importLanguageVariant, variantCodenames. balance. apply IH.
Qed.

Lemma publishLoop_balanced : forall vs,
  balanced (publishLoop client config vs).
Proof.
  induction vs as [|v rest IH]; simpl; [apply balanced_ret|].
  unfold variantCodenames. balance. exact IH.
Qed.

Lemma moveLanguageVariants_balanced : forall id vs,
  balanced (moveLanguageVariantsToCustomWorkflowStepAsync client config id vs).
Proof.
  induction vs as [|v rest IH]; simpl; [apply balanced_ret|].
  unfold variantCodenames. balance. exact IH.
Qed.

Lemma importStages_balanced : forall sourceData,
  balanced (importStages core client config sourceData).
Proof.
  intros sourceData.
  unfold importStages, importAssetFoldersAsync, importLanguagesAsync,
    importTaxonomiesAsync, importContentTypeSnippetsAsync,
    importContentTypesAsync, importAssetsAsync, importAsset,
    importContentItemAsync, publishLanguageVariantsAsync.
  repeat first
    [ apply importLanguagesLoop_balanced
    | apply importLanguageVariantsAsync_balanced
    | apply publishLoop_balanced
    | apply moveLanguageVariants_balanced
    | progress balance ].
Qed.

(** The callback is told every folder the stage answers. *)
Lemma forEach_folder_notices :
  forall (l : list (ImportItemResult AssetFolderContract AssetFolderModel)) h rs e,
    forEach (fun flattenedFolder =>
               processItem config (af_name (imported flattenedFolder))
                           AtAssetFolder ;;;
               ret [flattenedFolder]) l h = (Ok rs, e) ->
    rs = l /\
    flat_map folderNoticeOf e = map (fun r => af_name (imported r)) l.
Proof.
  induction l as [|x rest IH]; intros h rs e H.
  - simpl in H. unfold ret in H. inversion H. auto.
  - apply forEach_cons_Ok_inv in H.
    destruct H as (r1 & e1 & r2 & e2 & H1 & H2 & -> & ->).
    apply IH in H2. destruct H2 as [-> Hn].
    apply bind_Ok_inv in H1. destruct H1 as (u & e3 & e4 & Hp & Hr & ->).
    rewrite processItem_run, configured in Hp. inversion Hp; subst e3.
    unfold ret in Hr. inversion Hr; subst.
    simpl. rewrite Hn. auto.
Qed.

Lemma importAssetFoldersAsync_notices : forall fs h rs e,
  importAssetFoldersAsync client config fs h = (Ok rs, e) ->
  flat_map folderNoticeOf e = map (fun r => af_name (imported r)) rs.
Proof.
  intros fs h rs e H. unfold importAssetFoldersAsync in H.
  apply bind_Ok_inv in H. destruct H as (resp & e1 & e2 & H1 & H & ->).
  apply request_Ok_inv in H1. destruct H1 as [_ ->].
  apply bind_Ok_inv in H. destruct H as (flat & e3 & e4 & H2 & H & ->).
  unfold lift in H2. inversion H2; subst e3.
  apply forEach_folder_notices in H. destruct H as [-> Hn].
  simpl. exact Hn.
Qed.
End Notices.

Lemma folderNoticeOf_other_stage : forall s events,
  Forall (inStage s) events -> s <> SAssetFolders ->
  flat_map folderNoticeOf events = [].
Proof.
  intros s events H Hs. induction H as [|e l He Hl IH]; [reflexivity|].
  simpl. rewrite IH, app_nil_r.
  destruct e as [rq|title type|file]; try reflexivity.
  destruct type; try reflexivity.
  unfold inStage in He. simpl in He. congruence.
Qed.

Lemma folderNames_app : forall r1 r2,
  folderNames (r1 ++ r2) = folderNames r1 ++ folderNames r2.
Proof. intros. apply flat_map_app. Qed.

Lemma folderNames_widen : forall TRaw TModel (raw : TRaw -> ValidImportContract)
    (model : TModel -> ValidImportModel) (l : list (ImportItemResult TRaw TModel)),
  (forall m, match model m with MAssetFolder _ => False | _ => True end) ->
  folderNames (map (widen raw model) l) = [].
Proof.
  intros TRaw TModel raw model l H. induction l as [|x rest IH]; [reflexivity|].
  change (folderNames (map (widen raw model) (x :: rest)))
    with (match model (imported x) with
          | MAssetFolder m => [af_name m]
          | _ => []
          end ++ folderNames (map (widen raw model) rest)).
  rewrite IH.
  specialize (H (imported x)). destruct (model (imported x));
    try reflexivity. destruct H.
Qed.

Lemma folderNames_folders :
  forall l : list (ImportItemResult AssetFolderContract AssetFolderModel),
    folderNames (map (widen CAssetFolder MAssetFolder) l)
    = map (fun r => af_name (imported r)) l.
Proof.
  induction l as [|x rest IH]; [reflexivity|].
  change (folderNames (map (widen CAssetFolder MAssetFolder) (x :: rest)))
    with (af_name (imported x)
          :: folderNames (map (widen CAssetFolder MAssetFolder) rest)).
  rewrite IH. reflexivity.
Qed.

(** X15.  With an [onImport] callback, a run that reaches its end has told
    the callback, in the order of the requests, one action for every request
    that created, upserted, published or moved something: content types and
    content-type snippets included, which the answered list does not hold.
    For the asset folders, which are created by one request, it has been
    told every folder of the answered list, by name and in order. *)
Theorem importAsync_onImport_notices :
  forall core client config sourceData h rs events,
    onImport config = true ->
    importAsync core client config sourceData h = (Ok rs, events) ->
    flat_map noticeOf events = flat_map dueOf events /\
    flat_map folderNoticeOf events = folderNames rs.
Proof.
  intros core client config sourceData h rs events Hon H.
  unfold importAsync in H. split.
  { eapply importStages_balanced; eassumption. }
  apply importStages_Ok_inv in H. destruct H as (s & Hran & -> & ->).
  destruct Hran as (Hf & (hl & Hl) & (ht & Ht) & (hn & Hn) & (hc & Hc)
                    & (ha & Ha) & (hi & Hi) & (hv & Hv) & (hp & Hp) & (hw & Hw)).
  pose proof (@guardedRun_stage _ _ _ _ _ _ _ _
                (importLanguagesAsync_stage client config _) Hl) as Sl.
  pose proof (@guardedRun_stage _ _ _ _ _ _ _ _
                (importTaxonomiesAsync_stage client config _) Ht) as St.
  pose proof (@guardedRun_stage _ _ _ _ _ _ _ _
                (importContentTypeSnippetsAsync_stage client config _) Hn) as Sn.
  pose proof (@guardedRun_stage _ _ _ _ _ _ _ _
                (importContentTypesAsync_stage client config _) Hc) as Sc.
  pose proof (@guardedRun_stage _ _ _ _ _ _ _ _
                (importAssetsAsync_stage core client config _ _ _) Ha) as Sa.
  pose proof (@guardedRun_stage _ _ _ _ _ _ _ _
                (importContentItemAsync_stage client config _) Hi) as Si.
  pose proof (@run_stage _ _ _ _ _ _
                (importLanguageVariantsAsync_stage core client config _ _) Hv)
    as Sv.
  assert (Sp : Forall (inStage SPublish) (e_publish s)).
  { destruct (enablePublish config).
    - eapply run_stage; [apply publishLanguageVariantsAsync_stage|exact Hp].
    - inversion Hp. constructor. }
  assert (Sw : Forall (inStage SChangeWorkflowStep) (e_workflow s)).
  { destruct (truthy (workflowIdForImportedItems config)).
    - eapply run_stage; [apply moveLanguageVariants_stage|exact Hw].
    - inversion Hw. constructor. }
  assert (Ff : flat_map folderNoticeOf (e_folders s)
               = map (fun r => af_name (imported r)) (r_folders s)).
  { destruct (assetFolders _) eqn:E; simpl in Hf.
    - destruct Hf as [-> ->]. reflexivity.
    - eapply importAssetFoldersAsync_notices; eassumption. }
  unfold eventsOf, resultsOf, itemsBeforeVariants, itemsBeforeAssets.
  rewrite !flat_map_app, !folderNames_app, Ff, folderNames_folders.
  rewrite !folderNames_widen by (intros m; exact I).
  rewrite (folderNoticeOf_other_stage Sl), (folderNoticeOf_other_stage St),
    (folderNoticeOf_other_stage Sn), (folderNoticeOf_other_stage Sc),
    (folderNoticeOf_other_stage Sa), (folderNoticeOf_other_stage Si),
    (folderNoticeOf_other_stage Sv), (folderNoticeOf_other_stage Sp),
    (folderNoticeOf_other_stage Sw) by discriminate.
  simpl. rewrite !app_nil_r. reflexivity.
Qed.

(** X15 on the sample project with a callback, the publish pass and a
    workflow step for the imported items. *)
Lemma importAsync_onImport_notices_witness :
  exists rs events,
    importAsync SpecCore.core (Sample.acceptingClient Sample.target)
      Notified.config Sample.source [] = (Ok rs, events) /\
    flat_map noticeOf events
    = [AtLanguage; AtTaxonomy; AtContentTypeSnippet; AtContentType;
       AtAsset; AtAsset; AtContentItem; AtContentItem;
       AtLanguageVariant; AtLanguageVariant; AtLanguageVariant;
       AtPublish; AtPublish;
       AtChangeWorkflowStep; AtChangeWorkflowStep; AtChangeWorkflowStep] /\
    flat_map folderNoticeOf events = ["Photos"; "2020"; "2021"; "May"].
Proof.
  assert (Hrun : exists rs events,
             importAsync SpecCore.core (Sample.acceptingClient Sample.target)
               Notified.config Sample.source [] = (Ok rs, events)).
  { eexists. eexists. vm_compute. reflexivity. }
  destruct Hrun as (rs & events & Hrun). exists rs, events.
  split; [exact Hrun|].
  destruct (@importAsync_onImport_notices _ _ Notified.config _ _ _ _
              eq_refl Hrun) as [Hn Hf].
  rewrite Hn, Hf.
  vm_compute in Hrun. inversion Hrun; subst rs events.
  split; vm_compute; reflexivity.
Defined.

(** *** Nothing is sent for a rejected entity *)

Lemma emits_forEach_in : forall A R P (body : A -> M (list R)) xs,
  (forall x, In x xs -> emits P (body x)) -> emits P (forEach body xs).
Proof.
  intros A R P body xs H. induction xs as [|x rest IH]; simpl.
  - apply emits_ret.
  - apply emits_bind; [apply H; left; reflexivity|intros].
    apply emits_bind; [|intros; apply emits_ret].
    apply IH. intros y Hy. apply H. right. exact Hy.
Qed.

Lemma truthy_Some : forall o s, truthy o = Some s -> o = Some s.
Proof.
  intros [x|] s H; simpl in H; [|discriminate].
  destruct (String.eqb x EmptyString); congruence.
Qed.

Section Provenance.
Variable core : CoreHelpers.
Variable client : ManagementClient.
Variable config : ImportConfig.
Variable sourceData : ImportSource.
Variable ok : ValidImportContract -> Prop.

Lemma processItem_sentFor : forall title type,
  emits (sentFor sourceData ok) (processItem config title type).
Proof. intros. apply emits_processItem. exact I. Qed.

Ltac sent :=
  repeat first
    [ apply processItem_sentFor
    | progress emits_cases ltac:(simpl; eauto 10; fail) ].

Lemma importAssetFoldersAsync_sentFor :
  (forall f, In f (assetFolders sourceData) -> ok (CAssetFolder f)) ->
  emits (sentFor sourceData ok)
    (importAssetFoldersAsync client config (assetFolders sourceData)).
Proof. intros Hok. unfold importAssetFoldersAsync. sent. Qed.

Lemma importLanguagesLoop_sentFor : forall ls current,
  (forall l, In l ls -> In l (languages (importData sourceData))
                        /\ ok (CLanguage l)) ->
  emits (sentFor sourceData ok) (importLanguagesLoop client config ls current).
Proof.
  induction ls as [|l rest IH]; intros current Hok; simpl; [apply emits_ret|].
  assert (Hrest : forall current',
             emits (sentFor sourceData ok)
               (importLanguagesLoop client config rest current')).
  { intros current'. apply IH. intros x Hx. apply Hok. right. exact Hx. }
  destruct (Hok l (or_introl eq_refl)) as [Hin Hl].
  apply emits_bind; [|intros current'].
  { unfold fixLanguageAsync. sent. }
  apply emits_bind_post; [apply emits_lift|]. intros h data e Hdata.
  unfold lift in Hdata. inversion Hdata as [[Htry He]].
  destruct data as [data|]; [|apply Hrest].
  apply emits_bind; [|intros response].
  { apply emits_request. simpl. exists l.
    repeat split; try assumption. unfold tryGetLanguage in Htry.
    destruct (find _ current'); [discriminate|]. cbv zeta in Htry.
    destruct (if String.eqb (lang_id l) defaultLanguageId then _ else None);
      [discriminate|].
    destruct (lang_fallback_language l) as [fallback|]; [|discriminate].
    destruct (truthy (ref_codename fallback)); [|discriminate].
    inversion Htry. reflexivity. }
  apply emits_bind; [apply processItem_sentFor|intros _].
  apply emits_bind; [apply Hrest|intros; apply emits_ret].
Qed.

Lemma importLanguageVariantsAsync_sentFor : forall vs current,
  (forall v, In v vs -> In v (languageVariants (importData sourceData))
                        /\ ok (CLanguageVariant v)) ->
  emits (sentFor sourceData ok)
    (importLanguageVariantsAsync core client config vs current).
Proof.
  induction vs as [|v rest IH]; intros current Hok; simpl; [apply emits_ret|].
  destruct (Hok v (or_introl eq_refl)) as [Hin Hv].
  apply emits_bind; [|intros done].
  { unfold importLanguageVariant.
    apply emits_bind_post; [apply variantCodenames_emits|].
    intros h [ic lc] e Hc. apply variantCodenames_Ok_inv in Hc.
    destruct Hc as (Hi & Hl & _). apply truthy_Some in Hi, Hl.
    cbv zeta. sent. }
  apply emits_bind; [|intros; apply emits_ret].
  apply IH. intros x Hx. apply Hok. right. exact Hx.
Qed.

Lemma publishLoop_sentFor : forall vs,
  emits (sentFor sourceData ok) (publishLoop client config vs).
Proof.
  induction vs as [|v rest IH]; simpl; [apply emits_ret|].
  unfold variantCodenames. sent. exact IH.
Qed.

Lemma moveLanguageVariants_sentFor : forall id vs,
  emits (sentFor sourceData ok)
    (moveLanguageVariantsToCustomWorkflowStepAsync client config id vs).
Proof.
  induction vs as [|v rest IH]; simpl; [apply emits_ret|].
  unfold variantCodenames. sent. exact IH.
Qed.

Hypothesis folders_ok :
  forall f, In f (assetFolders sourceData) -> ok (CAssetFolder f).
Hypothesis languages_ok :
  forall l, In l (languages (importData sourceData)) -> ok (CLanguage l).
Hypothesis taxonomies_ok :
  forall t, In t (taxonomies (importData sourceData)) -> ok (CTaxonomy t).
Hypothesis snippets_ok :
  forall s, In s (contentTypeSnippets (importData sourceData)) ->
            ok (CContentTypeSnippet s).
Hypothesis types_ok :
  forall t, In t (contentTypes (importData sourceData)) -> ok (CContentType t).
Hypothesis assets_ok :
  forall a, In a (assets (importData sourceData)) -> ok (CAsset a).
Hypothesis items_ok :
  forall i, In i (contentItems (importData sourceData)) -> ok (CContentItem i).
Hypothesis variants_ok :
  forall v, In v (languageVariants (importData sourceData)) ->
            ok (CLanguageVariant v).

Lemma importStages_sentFor :
  emits (sentFor sourceData ok) (importStages core client config sourceData).
Proof.
  apply importStages_emits.
  - apply importAssetFoldersAsync_sentFor. exact folders_ok.
  - unfold importLanguagesAsync.
    apply emits_bind; [apply emits_request; exact I|intros].
    apply importLanguagesLoop_sentFor. auto.
  - unfold importTaxonomiesAsync. apply emits_forEach_in. intros t Ht. sent.
  - unfold importContentTypeSnippetsAsync. apply emits_forEach_in.
    intros s Hs. cbv zeta. sent.
  - unfold importContentTypesAsync. apply emits_forEach_in. intros t Ht. sent.
  - intros currentItems. unfold importAssetsAsync. apply emits_forEach_in.
    intros a Ha. unfold importAsset. sent.
  - unfold importContentItemAsync. apply emits_forEach_in. intros i Hi.
    destruct (truthy (ref_codename (ci_type i))) as [typeCodename|] eqn:E;
      [|apply emits_throw].
    cbv zeta. sent. apply emits_request. simpl. exists i.
    split; [exact Hi|]. split; [auto|].
    unfold contentItemRequest. rewrite E. reflexivity.
  - intros currentItems. apply importLanguageVariantsAsync_sentFor. auto.
  - intros. unfold publishLanguageVariantsAsync.
    destruct (getPublishedWorkflowStep _); [|apply emits_ret].
    apply publishLoop_sentFor.
  - intros. apply moveLanguageVariants_sentFor.
Qed.
End Provenance.

Lemma removeSkippedOf_accepts : forall A config
    (predicate : ProcessConfig -> option (A -> bool)) (keeps : A -> A -> bool)
    collection m,
  (forall x, keeps x x = false) ->
  In m (removeSkippedOf config predicate keeps collection) ->
  In m collection /\
  match process config with
  | Some p => accepted (predicate p) m = true
  | None => True
  end.
Proof.
  intros A config predicate keeps collection m Hself Hin.
  unfold removeSkippedOf in Hin.
  destruct (process config) as [p|]; [|auto].
  destruct (predicate p) as [shouldImport|]; [|auto].
  apply removeSkipped_In in Hin. destruct Hin as [Hm Hall].
  split; [exact Hm|]. simpl.
  destruct (shouldImport m) eqn:E; [reflexivity|].
  specialize (Hself m). rewrite (Hall m Hm E) in Hself. discriminate.
Qed.

Lemma otherId_self : forall A (id : A -> string) x, otherId id x x = false.
Proof. intros. unfold otherId. rewrite String.eqb_refl. reflexivity. Qed.

Lemma otherVariant_self : forall v, otherVariant v v = false.
Proof. intros. unfold otherVariant. rewrite String.eqb_refl. reflexivity. Qed.

(** X16.  The run sends nothing for an entity its predicate rejects.
    Every request that adds a language, a taxonomy, a content-type snippet,
    a content type or a content item, uploads the file of an asset or upserts
    a language variant is the request for an entity of the prepared source,
    and the predicate of the configuration for its kind, if there is one,
    accepts that entity.  The one request for the asset folders holds the
    folders at the top of the prepared tree, which their predicate accepts. *)
Theorem importAsync_sends_accepted_only :
  forall core client config sourceData h,
    let prepared :=
      removeSkippedItemsFromImport config (translateIds core sourceData) in
    Forall (sentFor prepared (acceptedBy config))
           (snd (importAsync core client config sourceData h)).
Proof.
  intros core client config sourceData h. cbv zeta. unfold importAsync.
  generalize (translateIds core sourceData). intros translated.
  assert (Hkept : forall A (predicate : ProcessConfig -> option (A -> bool))
                         keeps collection m,
             (forall x, keeps x x = false) ->
             In m (removeSkippedOf config predicate keeps collection) ->
             match process config with
             | Some p => accepted (predicate p) m = true
             | None => True
             end).
  { intros A predicate keeps collection m Hself Hin.
    eapply removeSkippedOf_accepts; eassumption. }
  apply (@importStages_sentFor core client config
           (removeSkippedItemsFromImport config translated) (acceptedBy config));
    unfold removeSkippedItemsFromImport;
    cbn [importData assetFolders languages taxonomies contentTypeSnippets
         contentTypes assets contentItems languageVariants];
    intros x Hx; unfold acceptedBy;
    (apply Hkept in Hx; [|first [apply otherId_self|apply otherVariant_self]]);
    destruct (process config); exact Hx.
Qed.

(** X16 at a request of a run under the configuration of C4: the German
    variant of the about page, which is upserted, is accepted by the
    predicate. *)
Lemma importAsync_sends_accepted_only_witness :
  exists v,
    SkipVariant.shouldImport v = true /\
    ref_codename (lv_item v) = Some "about" /\
    ref_codename (lv_language v) = Some "de-DE".
Proof.
  pose proof (importAsync_sends_accepted_only SpecCore.core
                (Sample.acceptingClient Sample.target) SkipVariant.config
                SkipVariant.source []) as Hall.
  cbv zeta in Hall. rewrite Forall_forall in Hall.
  specialize (Hall (Call (UpsertLanguageVariant "about" "de-DE" (JArr [])))).
  destruct Hall as (v & _ & Hok & Hi & Hl).
  - vm_compute. tauto.
  - exists v. split; [exact Hok|]. split; assumption.
Defined.

(** *** C4: the filter of the language variants *)

(** C4, the code at the failing input.  The predicate accepts three of the
    four variants, but the filter of [removeSkippedItemsFromImport] keeps
    only the variant that differs from the rejected one in both the item
    and the language.  The same shows in every run of [importAsync],
    whatever the helpers of [../core] make of the ids: a variant is
    upserted only when the predicate accepts every variant of the
    translated source that has its item id or its language id, so an
    accepted variant that shares one of the two with a rejected variant is
    not upserted. *)
Theorem removeSkipped_languageVariant_drops_accepted :
  let source := SkipVariant.source in
  let config := SkipVariant.config in
  filter SkipVariant.shouldImport (languageVariants (importData source))
  = [SkipVariant.homeDe; SkipVariant.aboutEn; SkipVariant.aboutDe] /\
  languageVariants (importData (removeSkippedItemsFromImport config source))
  = [SkipVariant.aboutDe] /\
  (forall core client anyConfig p shouldImport sourceData h,
     process anyConfig = Some p ->
     p_languageVariant p = Some shouldImport ->
     let translated :=
       languageVariants (importData (translateIds core sourceData)) in
     forall itemCodename languageCodename elements,
       In (UpsertLanguageVariant itemCodename languageCodename elements)
          (calls (snd (importAsync core client anyConfig sourceData h))) ->
       exists v,
         In v translated /\
         ref_codename (lv_item v) = Some itemCodename /\
         ref_codename (lv_language v) = Some languageCodename /\
         forall item, In item translated ->
           ref_id (lv_item item) = ref_id (lv_item v) \/
           ref_id (lv_language item) = ref_id (lv_language v) ->
           shouldImport item = true).
Proof.
  cbv zeta. split; [reflexivity|]. split; [reflexivity|].
  intros core client anyConfig p shouldImport sourceData h Hp Hpred ic lc elements.
  unfold importAsync. generalize (translateIds core sourceData).
  intros translated Hin.
  set (ok := fun c : ValidImportContract =>
               match c with
               | CLanguageVariant v =>
                   In v (languageVariants (importData translated)) /\
                   forall item,
                     In item (languageVariants (importData translated)) ->
                     ref_id (lv_item item) = ref_id (lv_item v) \/
                     ref_id (lv_language item) = ref_id (lv_language v) ->
                     shouldImport item = true
               | _ => True
               end).
  assert (Hsent : Forall (sentFor (removeSkippedItemsFromImport anyConfig translated) ok)
                    (snd (importStages core client anyConfig
                            (removeSkippedItemsFromImport anyConfig translated) h))).
  { apply (@importStages_sentFor core client anyConfig
             (removeSkippedItemsFromImport anyConfig translated) ok);
      try (intros x Hx; exact I).
    unfold removeSkippedItemsFromImport.
    cbn [importData languageVariants]. intros v Hv.
    unfold removeSkippedOf in Hv. rewrite Hp, Hpred in Hv.
    apply removeSkipped_In in Hv. destruct Hv as [Hv Hall].
    split; [exact Hv|]. intros item Hitem Hshares.
    destruct (shouldImport item) eqn:E; [reflexivity|].
    apply (Hall item Hitem) in E. apply otherVariant_true in E.
    destruct E as [Hi Hl]. destruct Hshares; contradiction. }
  rewrite Forall_forall in Hsent.
  apply in_calls in Hin. specialize (Hsent _ Hin). simpl in Hsent.
  destruct Hsent as (v & _ & [Hv Hall] & Hi & Hl).
  exists v. repeat split; assumption.
Qed.

(** The same in a run with the helpers of the specification, which
    replace the raw ids of the references by codenames.  The predicate
    rejects the English variant of the home page by its codenames and
    accepts the three others; the variants have no ids left to tell them
    apart, the filter removes all four, and the run upserts none. *)
Lemma importAsync_upserts_no_accepted_variant :
  let source := SkipVariant.source in
  let config := SkipVariant.configByCodename in
  let translated := translateIds SpecCore.core source in
  length (filter SkipVariant.shouldImportByCodename
            (languageVariants (importData translated))) = 3 /\
  languageVariants (importData (removeSkippedItemsFromImport config translated))
  = [] /\
  isThrow (fst (importAsync SpecCore.core (Sample.acceptingClient Sample.target)
                  config source [])) = false /\
  filter isUpsert
    (calls (snd (importAsync SpecCore.core (Sample.acceptingClient Sample.target)
                   config source [])))
  = [].
Proof. cbv zeta. repeat split. Qed.

(** *** The entries of the answered list *)

Lemma forEach_Ok_Forall_in : forall A R (P : R -> Prop) (body : A -> M (list R)) xs,
  (forall x h r e, In x xs -> body x h = (Ok r, e) -> Forall P r) ->
  forall h rs events, forEach body xs h = (Ok rs, events) -> Forall P rs.
Proof.
  intros A R P body. induction xs as [|x rest IH]; intros Hbody h rs events H.
  - simpl in H. unfold ret in H. inversion H. constructor.
  - apply forEach_cons_Ok_inv in H.
    destruct H as (r1 & e1 & r2 & e2 & H1 & H2 & -> & ->).
    apply Forall_app. split.
    + eapply Hbody; [left; reflexivity|exact H1].
    + eapply IH; [|exact H2]. intros y h' r e Hy. apply Hbody. right. exact Hy.
Qed.

Section Linked.
Variable core : CoreHelpers.
Variable client : ManagementClient.
Variable config : ImportConfig.
Variable sourceData : ImportSource.

Lemma importAssetFoldersAsync_linked : forall h rs e,
  importAssetFoldersAsync client config (assetFolders sourceData) h = (Ok rs, e) ->
  Forall (linked sourceData) (map (widen CAssetFolder MAssetFolder) rs).
Proof.
  intros h rs e H. unfold importAssetFoldersAsync in H.
  apply bind_Ok_inv in H. destruct H as (resp & e1 & e2 & _ & H & ->).
  apply bind_Ok_inv in H. destruct H as (flat & e3 & e4 & H2 & H & ->).
  unfold lift in H2. inversion H2 as [[Hflat He3]]. clear H2.
  assert (Hrs : rs = flat).
  { destruct (@forEach_processItem config _ (fun x => af_name (imported x))
                AtAssetFolder flat ((h ++ e1) ++ e3)) as (events & E & _).
    rewrite E in H. inversion H. reflexivity. }
  subst rs. rewrite flattenAssetFolders_preorder in Hflat.
  apply pushFolders_Ok in Hflat. destruct Hflat as (rs' & -> & _ & Hpairs).
  simpl. apply Forall_forall. intros r Hr. apply in_map_iff in Hr.
  destruct Hr as (x & <- & Hx). rewrite Forall_forall in Hpairs.
  destruct (Hpairs x Hx) as (Hfind & Hi & Ho).
  apply find_some in Hfind. destruct Hfind as [Hin Heq].
  apply opt_eqb_eq in Heq. unfold linked. simpl. auto.
Qed.

Lemma importLanguagesLoop_linked : forall ls current h rs e,
  incl ls (languages (importData sourceData)) ->
  importLanguagesLoop client config ls current h = (Ok rs, e) ->
  Forall (linked sourceData) (map (widen CLanguage MLanguage) rs).
Proof.
  induction ls as [|l rest IH]; intros current h rs e Hincl H; simpl in H.
  - unfold ret in H. inversion H. constructor.
  - assert (Hrest : incl rest (languages (importData sourceData))).
    { intros x Hx. apply Hincl. right. exact Hx. }
    apply bind_Ok_inv in H. destruct H as (current' & e1 & q1 & _ & H & ->).
    apply bind_Ok_inv in H. destruct H as (data & e2 & q2 & _ & H & ->).
    destruct data as [data|].
    + apply bind_Ok_inv in H. destruct H as (resp & e3 & q3 & _ & H & ->).
      apply bind_Ok_inv in H. destruct H as (u & e4 & q4 & _ & H & ->).
      apply bind_Ok_inv in H. destruct H as (more & e5 & q5 & Hmore & H & ->).
      unfold ret in H. inversion H; subst. simpl. constructor.
      * unfold linked. simpl. split; [apply Hincl; left; reflexivity|auto].
      * eapply IH; eassumption.
    + eapply IH; eassumption.
Qed.

Lemma importLanguageVariantsAsync_linked : forall vs current h done e,
  importLanguageVariantsAsync core client config vs current h = (Ok done, e) ->
  Forall (linked sourceData)
         (map (widen CLanguageVariant MLanguageVariant) (fst done)).
Proof.
  induction vs as [|v rest IH]; intros current h done e H; simpl in H.
  - unfold ret in H. inversion H. constructor.
  - apply bind_Ok_inv in H. destruct H as ([r v'] & e1 & q1 & H1 & H & ->).
    apply bind_Ok_inv in H. destruct H as (more & e2 & q2 & H2 & H & ->).
    unfold ret in H. inversion H; subst. simpl. constructor.
    + unfold importLanguageVariant in H1.
      apply bind_Ok_inv in H1. destruct H1 as ([ic lc] & ? & ? & _ & H1 & _).
      apply bind_Ok_inv in H1. destruct H1 as (resp & ? & ? & _ & H1 & _).
      apply bind_Ok_inv in H1. destruct H1 as (? & ? & ? & _ & H1 & _).
      unfold ret in H1. inversion H1; subst. unfold linked. simpl. auto.
    + eapply IH. eassumption.
Qed.

Lemma guardedRun_linked : forall A R (collection : list A) (stage : M (list R))
    (k : R -> ValidResult) h r e,
  (forall h r e, stage h = (Ok r, e) -> Forall (linked sourceData) (map k r)) ->
  guardedRun collection stage h r e ->
  Forall (linked sourceData) (map k r).
Proof.
  intros A R collection stage k h r e Hstage H.
  destruct collection; simpl in H.
  - destruct H as [-> _]. constructor.
  - eapply Hstage. exact H.
Qed.

Lemma importStages_linked : forall h rs events,
  importStages core client config sourceData h = (Ok rs, events) ->
  Forall (linked sourceData) rs.
Proof.
  intros h rs events H.
  apply importStages_Ok_inv in H. destruct H as (s & Hran & -> & _).
  destruct Hran as (Hf & (hl & Hl) & (ht & Ht) & _ & _
                    & (ha & Ha) & (hi & Hi) & (hv & Hv) & _).
  unfold resultsOf, itemsBeforeVariants.
  set (before := itemsBeforeAssets s) in *.
  unfold itemsBeforeAssets in before. subst before.
  repeat (apply Forall_app; split).
  - eapply guardedRun_linked; [|exact Hf].
    apply importAssetFoldersAsync_linked.
  - eapply guardedRun_linked; [|exact Hl].
    intros h' r e H. unfold importLanguagesAsync in H.
    apply bind_Ok_inv in H. destruct H as (current & e1 & e2 & _ & H & _).
    eapply importLanguagesLoop_linked; [apply incl_refl|exact H].
  - eapply guardedRun_linked; [|exact Ht].
    intros h' r e H. unfold importTaxonomiesAsync in H.
    apply Forall_forall. intros x Hx. apply in_map_iff in Hx.
    destruct Hx as (y & <- & Hy). revert y Hy. apply Forall_forall.
    eapply forEach_Ok_Forall_in; [|exact H].
    intros t h0 r0 e0 Hin Hround. apply simple_round in Hround.
    destruct Hround as (resp & _ & -> & _).
    constructor; [|constructor]. unfold linked. simpl. auto.
  - eapply guardedRun_linked; [|exact Ha].
    intros h' r e H. unfold importAssetsAsync in H.
    apply Forall_forall. intros x Hx. apply in_map_iff in Hx.
    destruct Hx as (y & <- & Hy). revert y Hy. apply Forall_forall.
    eapply forEach_Ok_Forall_in; [|exact H].
    intros a h0 r0 e0 Hin Hround. unfold importAsset in Hround.
    destruct (find _ (binaryFiles sourceData)); [|discriminate].
    apply bind_Ok_inv in Hround. destruct Hround as (d & ? & ? & _ & Hround & _).
    apply bind_Ok_inv in Hround. destruct Hround as (up & ? & ? & _ & Hround & _).
    apply simple_round in Hround. destruct Hround as (resp & _ & -> & _).
    constructor; [|constructor]. unfold linked. simpl.
    split; [exists a; auto|auto].
  - eapply guardedRun_linked; [|exact Hi].
    intros h' r e H. unfold importContentItemAsync in H.
    apply Forall_forall. intros x Hx. apply in_map_iff in Hx.
    destruct Hx as (y & <- & Hy). revert y Hy. apply Forall_forall.
    eapply forEach_Ok_Forall_in; [|exact H].
    intros i h0 r0 e0 Hin Hround. simpl in Hround.
    destruct (truthy _); [|discriminate].
    apply simple_round in Hround. destruct Hround as (resp & _ & -> & _).
    constructor; [|constructor]. unfold linked. simpl. auto.
  - eapply (importLanguageVariantsAsync_linked _ _ _ Hv).
Qed.
End Linked.

(** X17.  In a run that reaches its end every entry of the answered list
    links an entity to the model of the same kind that the target answered
    for it: its original id is the id of the entity (for a language variant
    the id of the item it refers to), its import id is the id of the model
    (for a variant the id of the item of the answer).  The entity of a
    language, taxonomy or content-item entry is one of the prepared source,
    that of an asset entry has the id of an asset of the prepared source, and
    that of a folder entry is a node of the prepared tree that has the
    external id of the answered folder. *)
Theorem importAsync_entries_linked :
  forall core client config sourceData h rs events,
    importAsync core client config sourceData h = (Ok rs, events) ->
    let prepared :=
      removeSkippedItemsFromImport config (translateIds core sourceData) in
    Forall (linked prepared) rs.
Proof.
  intros core client config sourceData h rs events H prepared.
  unfold importAsync in H. eapply importStages_linked. exact H.
Qed.

(** X17 on the sample project: the entry of the German language. *)
Lemma importAsync_entries_linked_witness :
  exists rs events r,
    importAsync SpecCore.core (Sample.acceptingClient Sample.target)
      Sample.config Sample.source [] = (Ok rs, events) /\
    In r rs /\ originalId r = "l-de" /\ importId r = "new-de-DE" /\
    linked (removeSkippedItemsFromImport Sample.config
              (translateIds SpecCore.core Sample.source)) r.
Proof.
  assert (Hrun : exists rs events,
             importAsync SpecCore.core (Sample.acceptingClient Sample.target)
               Sample.config Sample.source [] = (Ok rs, events)).
  { eexists. eexists. vm_compute. reflexivity. }
  destruct Hrun as (rs & events & Hrun).
  pose proof (importAsync_entries_linked _ _ _ _ _ Hrun) as Hlinked.
  cbv zeta in Hlinked. rewrite Forall_forall in Hlinked.
  assert (Hin : exists r, In r rs /\ originalId r = "l-de"
                          /\ importId r = "new-de-DE").
  { vm_compute in Hrun. inversion Hrun; subst rs events.
    eexists. split; [do 4 right; left; reflexivity|]. split; reflexivity. }
  destruct Hin as (r & Hr & Ho & Hi).
  exists rs, events, r. repeat split; try assumption. apply Hlinked. exact Hr.
Defined.

(** *** The causes of the errors *)

Section Throws.
Variable Q : Error -> Prop.

Lemma throwsOnly_ret : forall A (a : A), throwsOnly Q (ret a).
Proof. intros A a h e events H. discriminate H. Qed.

Lemma throwsOnly_emit : forall ev, throwsOnly Q (emit ev).
Proof. intros ev h e events H. discriminate H. Qed.

Lemma throwsOnly_throw : forall A e, Q e -> throwsOnly Q (@throw A e).
Proof.
  intros A e He h e' events H. unfold throw in H. inversion H; subst.
  exact He.
Qed.

Lemma throwsOnly_lift : forall A (o : Outcome A),
  (forall e, o = Throw e -> Q e) -> throwsOnly Q (lift o).
Proof.
  intros A o Ho h e events H. unfold lift in H. inversion H; subst.
  apply Ho. reflexivity.
Qed.

Lemma throwsOnly_request : forall R rq (answer : list Event -> option R),
  (forall h, answer h = None -> Q (RequestFailed rq)) ->
  throwsOnly Q (request rq answer).
Proof.
  intros R rq answer Hanswer h e events H. unfold request in H.
  destruct (answer h) eqn:E; [discriminate H|]. inversion H; subst.
  eapply Hanswer. exact E.
Qed.

Lemma throwsOnly_bind_post : forall A B (m : M A) (f : A -> M B),
  throwsOnly Q m ->
  (forall h a e1, m h = (Ok a, e1) -> throwsOnly Q (f a)) ->
  throwsOnly Q (bind m f).
Proof.
  intros A B m f Hm Hf h e events H. rewrite bind_run in H.
  destruct (m h) as [[a|e'] e1] eqn:E.
  - destruct (f a (h ++ e1)) as [o e2] eqn:E2. inversion H; subst.
    eapply Hf; eassumption.
  - inversion H; subst. eapply Hm. exact E.
Qed.

Lemma throwsOnly_bind : forall A B (m : M A) (f : A -> M B),
  throwsOnly Q m -> (forall a, throwsOnly Q (f a)) -> throwsOnly Q (bind m f).
Proof. intros. apply throwsOnly_bind_post; auto. Qed.

Lemma throwsOnly_forEach_in : forall A R (body : A -> M (list R)) xs,
  (forall x, In x xs -> throwsOnly Q (body x)) ->
  throwsOnly Q (forEach body xs).
Proof.
  intros A R body xs H. induction xs as [|x rest IH]; simpl.
  - apply throwsOnly_ret.
  - apply throwsOnly_bind; [apply H; left; reflexivity|intros].
    apply throwsOnly_bind; [|intros; apply throwsOnly_ret].
    apply IH. intros y Hy. apply H. right. exact Hy.
Qed.

Lemma throwsOnly_processItem : forall config title type,
  throwsOnly Q (processItem config title type).
Proof.
  intros. unfold processItem.
  destruct (onImport config); [apply throwsOnly_emit|apply throwsOnly_ret].
Qed.
End Throws.

Lemma find_opt_eqb_none : forall originalItems externalId o,
  find (fun m => opt_eqb (afc_external_id m) externalId) originalItems = None ->
  In o originalItems -> afc_external_id o <> externalId.
Proof.
  intros originalItems externalId o Hnone Hin Heq.
  eapply find_none in Hnone; [|exact Hin]. simpl in Hnone.
  apply opt_eqb_eq in Heq. congruence.
Qed.

Lemma flattenAssetFolders_Throw : forall originalItems fs items e,
  flattenAssetFolders fs originalItems items = Throw e ->
  exists externalId name,
    e = CouldNotFindOriginalFolder externalId name /\
    forall o, In o originalItems -> afc_external_id o <> externalId.
Proof.
  intros originalItems fs items e. rewrite flattenAssetFolders_preorder.
  generalize (flattenAssetFolderModels fs). intros flat. revert items.
  induction flat as [|f rest IH]; intros items H; simpl in H; [discriminate|].
  unfold pushFolder at 1 in H.
  destruct (find _ originalItems) eqn:Ef; [eapply IH; exact H|].
  inversion H. eexists. eexists. split; [reflexivity|].
  intros o Ho. eapply find_opt_eqb_none; eassumption.
Qed.

Section Causes.
Variable core : CoreHelpers.
Variable client : ManagementClient.
Variable config : ImportConfig.
Variable sourceData : ImportSource.

Lemma request_cause : forall R rq (answer : list Event -> option R),
  (forall h, answer h = None -> accepts client rq h = false) ->
  throwsOnly (causeOf client config sourceData (seenAs core)) (request rq answer).
Proof.
  intros R rq answer H. apply throwsOnly_request. intros h Hnone.
  exists h. apply H. exact Hnone.
Qed.

Ltac rejected :=
  apply request_cause;
  let h := fresh "h" in let H := fresh "H" in
  intros h H; unfold accepts; rewrite H; reflexivity.

Ltac causes :=
  repeat first
    [ apply throwsOnly_ret | apply throwsOnly_emit
    | apply throwsOnly_processItem
    | rejected
    | apply throwsOnly_bind; [|intros ?]
    | match goal with
      | |- throwsOnly _ (if ?b then _ else _) =>
          let E := fresh "E" in destruct b eqn:E
      | |- throwsOnly _ (match ?x with Some _ => _ | None => _ end) =>
          let E := fresh "E" in destruct x eqn:E
      | |- throwsOnly _ (match ?x with [] => _ | _ :: _ => _ end) =>
          let E := fresh "E" in destruct x eqn:E
      | |- throwsOnly _ (let '(_, _) := ?x in _) => destruct x
      end ].

Lemma tryGetLanguage_cause : forall current l e,
  In l (languages (importData sourceData)) ->
  tryGetLanguage current l = Throw e ->
  causeOf client config sourceData (seenAs core) e.
Proof.
  intros current l e Hin H. unfold tryGetLanguage in H.
  destruct (find _ current); [discriminate|]. cbv zeta in H.
  destruct (String.eqb (lang_id l) defaultLanguageId) eqn:Eid.
  - destruct (find _ current) as [d|].
    + destruct (negb (String.eqb (lm_codename d) (lang_codename l))) eqn:En.
      * inversion H; subst. simpl. apply negb_true_iff, String.eqb_neq in En.
        apply String.eqb_eq in Eid. split; [exact En|]. exists l. auto.
      * destruct (lang_fallback_language l) as [fallback|] eqn:Ef.
        -- destruct (truthy (ref_codename fallback)) eqn:Et; [discriminate|].
           inversion H; subst. simpl. exists l, fallback. auto.
        -- inversion H; subst. simpl. exists l. auto.
    + destruct (lang_fallback_language l) as [fallback|] eqn:Ef.
      * destruct (truthy (ref_codename fallback)) eqn:Et; [discriminate|].
        inversion H; subst. simpl. exists l, fallback. auto.
      * inversion H; subst. simpl. exists l. auto.
  - destruct (lang_fallback_language l) as [fallback|] eqn:Ef.
    + destruct (truthy (ref_codename fallback)) eqn:Et; [discriminate|].
      inversion H; subst. simpl. exists l, fallback. auto.
    + inversion H; subst. simpl. exists l. auto.
Qed.

Lemma fixLanguageAsync_cause : forall current l,
  fixLanguages config = true ->
  In l (languages (importData sourceData)) ->
  throwsOnly (causeOf client config sourceData (seenAs core))
    (fixLanguageAsync client current l).
Proof.
  intros current l Hfix Hin. unfold fixLanguageAsync. causes.
  apply throwsOnly_throw. simpl. split; [exact Hfix|]. exists l. auto.
Qed.

Lemma importLanguagesLoop_cause : forall ls current,
  incl ls (languages (importData sourceData)) ->
  throwsOnly (causeOf client config sourceData (seenAs core))
    (importLanguagesLoop client config ls current).
Proof.
  induction ls as [|l rest IH]; intros current Hincl; simpl;
    [apply throwsOnly_ret|].
  assert (Hin : In l (languages (importData sourceData))).
  { apply Hincl. left. reflexivity. }
  assert (Hrest : forall current',
             throwsOnly (causeOf client config sourceData (seenAs core))
               (importLanguagesLoop client config rest current')).
  { intros current'. apply IH. intros x Hx. apply Hincl. right. exact Hx. }
  apply throwsOnly_bind; [|intros current'].
  { destruct (fixLanguages config) eqn:Hfix; [|apply throwsOnly_ret].
    apply throwsOnly_bind; [apply fixLanguageAsync_cause; assumption|].
    intros _. rejected. }
  apply throwsOnly_bind.
  { apply throwsOnly_lift. intros e He. eapply tryGetLanguage_cause; eassumption. }
  intros [data|]; [|apply Hrest].
  causes. apply Hrest.
Qed.

Lemma variantCodenames_cause : forall v w,
  In v (languageVariants (importData sourceData)) -> seenAs core v w ->
  throwsOnly (causeOf client config sourceData (seenAs core)) (variantCodenames w).
Proof.
  intros v w Hin Hseen. unfold variantCodenames.
  destruct (truthy (ref_codename (lv_item w))) eqn:Ei.
  - destruct (truthy (ref_codename (lv_language w))) eqn:El;
      [apply throwsOnly_ret|].
    apply throwsOnly_throw. simpl. exists v, w. auto.
  - apply throwsOnly_throw. simpl. exists v, w. auto.
Qed.

Lemma importLanguageVariantsAsync_cause : forall vs current,
  incl vs (languageVariants (importData sourceData)) ->
  throwsOnly (causeOf client config sourceData (seenAs core))
    (importLanguageVariantsAsync core client config vs current).
Proof.
  induction vs as [|v rest IH]; intros current Hincl; simpl;
    [apply throwsOnly_ret|].
  apply throwsOnly_bind; [|intros done].
  { unfold importLanguageVariant.
    apply throwsOnly_bind.
    - eapply variantCodenames_cause; [apply Hincl; left; reflexivity|].
      left. reflexivity.
    - intros [ic lc]. cbv zeta. causes. }
  apply throwsOnly_bind; [|intros; apply throwsOnly_ret].
  apply IH. intros x Hx. apply Hincl. right. exact Hx.
Qed.

Lemma publishLoop_cause : forall ws,
  (forall w, In w ws ->
     exists v, In v (languageVariants (importData sourceData)) /\ seenAs core v w) ->
  throwsOnly (causeOf client config sourceData (seenAs core))
    (publishLoop client config ws).
Proof.
  induction ws as [|w rest IH]; intros Hseen; simpl; [apply throwsOnly_ret|].
  destruct (Hseen w (or_introl eq_refl)) as (v & Hv & Hw).
  apply throwsOnly_bind; [eapply variantCodenames_cause; eassumption|].
  intros [ic lc]. causes. apply IH. intros x Hx. apply Hseen. right. exact Hx.
Qed.

Lemma moveLanguageVariants_cause : forall id ws,
  (forall w, In w ws ->
     exists v, In v (languageVariants (importData sourceData)) /\ seenAs core v w) ->
  throwsOnly (causeOf client config sourceData (seenAs core))
    (moveLanguageVariantsToCustomWorkflowStepAsync client config id ws).
Proof.
  intros id. induction ws as [|w rest IH]; intros Hseen; simpl;
    [apply throwsOnly_ret|].
  destruct (Hseen w (or_introl eq_refl)) as (v & Hv & Hw).
  apply throwsOnly_bind; [eapply variantCodenames_cause; eassumption|].
  intros [ic lc]. causes. apply IH. intros x Hx. apply Hseen. right. exact Hx.
Qed.

Lemma variants_after_seen : forall vs current h done e,
  importLanguageVariantsAsync core client config vs current h = (Ok done, e) ->
  forall w, In w (snd done) -> exists v, In v vs /\ seenAs core v w.
Proof.
  intros vs current h done e H w Hw.
  apply importLanguageVariantsAsync_Ok in H. destruct H as [_ Hafter].
  rewrite Hafter in Hw. apply in_map_iff in Hw. destruct Hw as (v & <- & Hv).
  exists v. split; [exact Hv|]. right. exists current. reflexivity.
Qed.

Lemma importStages_cause :
  throwsOnly (causeOf client config sourceData (seenAs core))
    (importStages core client config sourceData).
Proof.
  unfold importStages. cbv zeta.
  apply throwsOnly_bind; [|intros items0].
  { destruct (assetFolders sourceData) as [|f fs] eqn:Ef; [apply throwsOnly_ret|].
    apply throwsOnly_bind; [|intros; apply throwsOnly_ret].
    rewrite <- Ef. unfold importAssetFoldersAsync. cbv zeta.
    apply throwsOnly_bind; [rejected|intros response].
    apply throwsOnly_bind.
    - apply throwsOnly_lift. intros e He.
      apply flattenAssetFolders_Throw in He.
      destruct He as (externalId & name & -> & Hnone). simpl.
      split; [rewrite Ef; discriminate|exact Hnone].
    - intros flat. apply throwsOnly_forEach_in. intros x _. causes. }
  apply throwsOnly_bind; [|intros items1].
  { destruct (languages (importData sourceData)) as [|l ls] eqn:El;
      [apply throwsOnly_ret|].
    apply throwsOnly_bind; [|intros; apply throwsOnly_ret].
    rewrite <- El. unfold importLanguagesAsync.
    apply throwsOnly_bind; [rejected|intros current].
    apply importLanguagesLoop_cause. apply incl_refl. }
  apply throwsOnly_bind; [|intros items2].
  { destruct (taxonomies (importData sourceData)); [apply throwsOnly_ret|].
    apply throwsOnly_bind; [|intros; apply throwsOnly_ret].
    unfold importTaxonomiesAsync. apply throwsOnly_forEach_in. intros x _.
    causes. }
  apply throwsOnly_bind; [|intros _].
  { destruct (contentTypeSnippets (importData sourceData));
      [apply throwsOnly_ret|].
    apply throwsOnly_bind; [|intros; apply throwsOnly_ret].
    unfold importContentTypeSnippetsAsync. apply throwsOnly_forEach_in.
    intros x _. cbv zeta. causes. }
  apply throwsOnly_bind; [|intros _].
  { destruct (contentTypes (importData sourceData)); [apply throwsOnly_ret|].
    apply throwsOnly_bind; [|intros; apply throwsOnly_ret].
    unfold importContentTypesAsync. apply throwsOnly_forEach_in. intros x _.
    causes. }
  apply throwsOnly_bind; [|intros items3].
  { destruct (assets (importData sourceData)) as [|a l] eqn:Ea;
      [apply throwsOnly_ret|].
    apply throwsOnly_bind; [|intros; apply throwsOnly_ret].
    rewrite <- Ea. unfold importAssetsAsync. apply throwsOnly_forEach_in.
    intros x Hx. unfold importAsset.
    destruct (find _ (binaryFiles sourceData)) as [binaryFile|] eqn:Efile.
    - cbv zeta. causes.
    - apply throwsOnly_throw. simpl. exists x. auto. }
  apply throwsOnly_bind; [|intros items4].
  { destruct (contentItems (importData sourceData)) as [|i l] eqn:Ei;
      [apply throwsOnly_ret|].
    apply throwsOnly_bind; [|intros; apply throwsOnly_ret].
    rewrite <- Ei. unfold importContentItemAsync. apply throwsOnly_forEach_in.
    intros x Hx.
    destruct (truthy (ref_codename (ci_type x))) eqn:Et.
    - cbv zeta. causes.
    - apply throwsOnly_throw. simpl. exists x. auto. }
  apply throwsOnly_bind_post.
  { apply importLanguageVariantsAsync_cause. apply incl_refl. }
  intros h done e Hdone.
  pose proof (variants_after_seen _ _ _ Hdone) as Hseen.
  apply throwsOnly_bind; [|intros _].
  { destruct (enablePublish config); [|apply throwsOnly_ret].
    unfold publishLanguageVariantsAsync.
    destruct (getPublishedWorkflowStep _) as [step|]; [|apply throwsOnly_ret].
    apply publishLoop_cause. intros w Hw. apply filter_In in Hw.
    apply Hseen. apply Hw. }
  apply throwsOnly_bind; [|intros _; apply throwsOnly_ret].
  destruct (truthy (workflowIdForImportedItems config));
    [|apply throwsOnly_ret].
  apply moveLanguageVariants_cause. exact Hseen.
Qed.
End Causes.

(** X18.  Every error of a run has its cause in the target or in the
    prepared source.  A failed request was rejected by the target.  The
    error of the asset folders names an external id that no folder of the
    prepared tree carries.  The errors of the languages stage go back to a
    language of the prepared source: one flagged as default with the id the
    error names, in fix mode; one with the id of the default language and
    the codename the error names, which is not the codename of the default
    language of the target; one whose fallback language has no codename, or
    none at all.  The error of the assets names the id of an asset without
    binary file, the error of the content items the codename of an item whose
    type has no codename, and a missing codename is missing in a language
    variant of the prepared source, as it is or as the id helper left it. *)
Theorem importAsync_error_causes :
  forall core client config sourceData h e events,
    importAsync core client config sourceData h = (Throw e, events) ->
    let prepared :=
      removeSkippedItemsFromImport config (translateIds core sourceData) in
    causeOf client config prepared (seenAs core) e.
Proof.
  intros core client config sourceData h e events H prepared.
  unfold importAsync in H. eapply importStages_cause. exact H.
Qed.

(** X18 on the sample project against the target whose default language
    is [en-GB]: the error goes back to a language of the source that has the
    id of the default language and the codename [en-US]. *)
Lemma importAsync_error_causes_witness :
  causeOf (Sample.acceptingClient MismatchedDefault.target) Sample.config
    (removeSkippedItemsFromImport Sample.config
       (translateIds SpecCore.core Sample.source))
    (seenAs SpecCore.core)
    (DefaultLanguageCodenameMismatch "en-US" "en-GB").
Proof.
  assert (Hrun : exists events,
             importAsync SpecCore.core
               (Sample.acceptingClient MismatchedDefault.target)
               Sample.config Sample.source []
             = (Throw (DefaultLanguageCodenameMismatch "en-US" "en-GB"), events)).
  { eexists. vm_compute. reflexivity. }
  destruct Hrun as (events & Hrun).
  exact (importAsync_error_causes _ _ _ _ _ Hrun).
Defined.
